(** * LumixEngine navigation: navmesh build, tile store and crowd simulation

    A shallow embedding of [src/navigation/navigation_system.cpp]
    ([NavigationSceneImpl]).  The scene object becomes a record that is passed
    explicitly; every member function becomes a function from the old scene to
    the new scene and its return value.  The Recast (mesh build) and Detour
    (tile store, queries, crowd) libraries, the renderer, the universe and the
    script scene are external collaborators: their operations are the fields
    of the interfaces [Engine], [Recast] and [Detour], and every result below
    is proved for all implementations of these interfaces.  [RefLib] at the
    end of the definitions is one small executable implementation, used to
    evaluate the embedding on concrete scenes. *)

From Stdlib Require Import ZArith List Bool Lia String Ascii.
From Stdlib Require Import Floats.SpecFloat.
Import ListNotations.
Open Scope Z_scope.

(** ** Scalars: C++ [float] as IEEE binary32 *)

Definition float : Type := spec_float.

Definition f32_prec : Z := 24.
Definition f32_emax : Z := 128.

Definition fadd : float -> float -> float := SFadd f32_prec f32_emax.
Definition fsub : float -> float -> float := SFsub f32_prec f32_emax.
Definition fmul : float -> float -> float := SFmul f32_prec f32_emax.
Definition fdiv : float -> float -> float := SFdiv f32_prec f32_emax.
Definition fsqrt : float -> float := SFsqrt f32_prec f32_emax.

(** [a > b] and [a < b] on floats; both are false when a NaN is involved. *)
Definition fgt (a b : float) : bool := SFltb b a.
Definition flt (a b : float) : bool := SFltb a b.

(** Conversion [int -> float] (round to nearest even). *)
Definition float_of_int (n : Z) : float :=
  binary_normalize f32_prec f32_emax n 0 false.

(** ** Scalars: C++ [int] as a 32-bit two's complement integer

    An [int] is a [Z] in the range [INT_MIN .. INT_MAX].  A sum or a product
    that leaves the range is undefined in C++; the build targets compute it
    modulo 2^32, and [wrap32] is that result. *)
Definition INT_MIN : Z := - 2 ^ 31.
Definition INT_MAX : Z := 2 ^ 31 - 1.

Definition wrap32 (n : Z) : Z := (n + 2 ^ 31) mod 2 ^ 32 - 2 ^ 31.

(** Conversion [(int)f]: truncation toward zero.  When the truncated value
    does not fit an [int], and for an infinity or a NaN, the conversion is
    undefined in C++; the conversion instruction of the build targets
    ([cvttss2si]) then yields [INT_MIN], and so does the model. *)
Definition int_of_float (f : float) : Z :=
  match f with
  | S754_zero _ => 0
  | S754_finite s m e =>
      let a := match e with
               | Z0 => Zpos m
               | Zpos p => Zpos m * 2 ^ Zpos p
               | Zneg p => Zpos m / 2 ^ Zpos p
               end in
      let v := if s then - a else a in
      if (INT_MIN <=? v) && (v <=? INT_MAX) then v else INT_MIN
  | _ => INT_MIN
  end.

(** The decimal literal [n/d] with [n] and [d] exactly representable, e.g.
    [flit 3 10] is [0.3f]: the division rounds once, as the literal does. *)
Definition flit (n d : Z) : float := fdiv (float_of_int n) (float_of_int d).

Definition fzero : float := S754_zero false.

(** ** Vectors and boxes *)

Record Vec3 : Type := mkVec3 { vx : float; vy : float; vz : float }.
Record Vec2 : Type := mkVec2 { v2x : float; v2y : float }.
Record AABB : Type := mkAABB { aabb_min : Vec3; aabb_max : Vec3 }.

(** Modelled from the spec: the [Vec3] helpers ([operator-], [operator+],
    [operator*], [squaredLength], [length], [crossProduct], [normalized])
    live in engine/vec.h, which is not among the sources.  The spec speaks of
    the squared distance between two positions and of the face normal of a
    triangle; the helpers are the usual componentwise binary32 formulas. *)
Definition vsub (a b : Vec3) : Vec3 :=
  mkVec3 (fsub (vx a) (vx b)) (fsub (vy a) (vy b)) (fsub (vz a) (vz b)).
Definition vadd (a b : Vec3) : Vec3 :=
  mkVec3 (fadd (vx a) (vx b)) (fadd (vy a) (vy b)) (fadd (vz a) (vz b)).
Definition vscale (a : Vec3) (k : float) : Vec3 :=
  mkVec3 (fmul (vx a) k) (fmul (vy a) k) (fmul (vz a) k).
Definition squaredLength (a : Vec3) : float :=
  fadd (fadd (fmul (vx a) (vx a)) (fmul (vy a) (vy a))) (fmul (vz a) (vz a)).
Definition vlength (a : Vec3) : float := fsqrt (squaredLength a).
Definition crossProduct (a b : Vec3) : Vec3 :=
  mkVec3 (fsub (fmul (vy a) (vz b)) (fmul (vz a) (vy b)))
         (fsub (fmul (vz a) (vx b)) (fmul (vx a) (vz b)))
         (fsub (fmul (vx a) (vy b)) (fmul (vy a) (vx b))).
Definition normalized (a : Vec3) : Vec3 :=
  vscale a (fdiv (float_of_int 1) (vlength a)).

(** ** Identifiers *)

Definition Entity : Type := Z.
Definition INVALID_ENTITY : Entity := -1.
Definition ComponentHandle : Type := Z.
Definition dtPolyRef : Type := Z.
Definition dtTileRef : Type := Z.

(** Raw bytes of a serialized tile: [data] with [dataSize = length data]. *)
Definition byte : Type := Z.
Definition blob : Type := list byte.

(** ** Constants of the translation unit *)

Definition CELLS_PER_TILE_SIDE : Z := 256.
Definition CELL_SIZE : float := flit 3 10.
Definition RC_WALKABLE_AREA : Z := 63.

(** ** Engine interface

    Everything the scene needs from the engine headers that are not among the
    sources: matrices and quaternions, the box helpers, [Math::], libm and
    the material flag registry. *)
Class Engine : Type := {
  Matrix : Type;
  Quat : Type;
  quat_toMatrix : Quat -> Matrix;
  mtx_setTranslation : Matrix -> Vec3 -> Matrix;
  mtx_fastInverse : Matrix -> Matrix;
  mtx_multiplyPosition : Matrix -> Vec3 -> Vec3;
  quat_rotate : Quat -> Vec3 -> Vec3;
  quat_axis_angle : Vec3 -> float -> Quat;
  aabb_transform : AABB -> Matrix -> AABB;
  aabb_merge : AABB -> AABB -> AABB;
  aabb_overlaps : AABB -> AABB -> bool;
  cosf : float -> float;
  atan2f : float -> float -> float;
  degreesToRadians : Z -> float;
  math_clamp : float -> float -> float -> float;
  math_log2 : Z -> Z;
  math_nextPow2 : Z -> Z;
  getCustomFlag : string -> Z;
}.

(** ** Recast data that the scene reads or writes field by field *)

Record rcConfig : Type := mkConfig {
  cfg_width : Z;
  cfg_height : Z;
  cfg_tileSize : Z;
  cfg_borderSize : Z;
  cfg_cs : float;
  cfg_ch : float;
  cfg_bmin : Vec3;
  cfg_bmax : Vec3;
  cfg_walkableSlopeAngle : float;
  cfg_walkableHeight : Z;
  cfg_walkableClimb : Z;
  cfg_walkableRadius : Z;
  cfg_maxEdgeLen : Z;
  cfg_maxSimplificationError : float;
  cfg_minRegionArea : Z;
  cfg_mergeRegionArea : Z;
  cfg_maxVertsPerPoly : Z;
  cfg_detailSampleDist : float;
  cfg_detailSampleMaxError : float;
}.

Record rcPolyMesh : Type := mkPolyMesh {
  pm_verts : list Z;
  pm_polys : list Z;
  pm_areas : list Z;
  pm_flags : list Z;
  pm_nverts : Z;
  pm_npolys : Z;
  pm_nvp : Z;
  pm_bmin : Vec3;
  pm_bmax : Vec3;
}.

Record rcPolyMeshDetail : Type := mkPolyMeshDetail {
  dm_meshes : list Z;
  dm_verts : list float;
  dm_tris : list Z;
  dm_nverts : Z;
  dm_ntris : Z;
}.

(** ** Recast interface (mesh build library)

    A C++ function that fills an out-parameter and returns [bool] becomes a
    function to the filled object and the flag; an allocator that may return
    a null pointer becomes an [option]. *)
Class Recast : Type := {
  rcHeightfield : Type;
  rcCompactHeightfield : Type;
  rcContourSet : Type;
  rcAllocHeightfield : option rcHeightfield;
  rcCreateHeightfield :
    rcHeightfield -> Z -> Z -> Vec3 -> Vec3 -> float -> float -> rcHeightfield * bool;
  rcRasterizeTriangle : Vec3 -> Vec3 -> Vec3 -> Z -> rcHeightfield -> rcHeightfield;
  rcFilterLowHangingWalkableObstacles : Z -> rcHeightfield -> rcHeightfield;
  rcFilterLedgeSpans : Z -> Z -> rcHeightfield -> rcHeightfield;
  rcFilterWalkableLowHeightSpans : Z -> rcHeightfield -> rcHeightfield;
  rcAllocCompactHeightfield : option rcCompactHeightfield;
  rcBuildCompactHeightfield :
    Z -> Z -> rcHeightfield -> rcCompactHeightfield -> rcCompactHeightfield * bool;
  rcErodeWalkableArea : Z -> rcCompactHeightfield -> rcCompactHeightfield * bool;
  rcBuildDistanceField : rcCompactHeightfield -> rcCompactHeightfield * bool;
  rcBuildRegions : rcCompactHeightfield -> Z -> Z -> Z -> rcCompactHeightfield * bool;
  rcAllocContourSet : option rcContourSet;
  rcBuildContours :
    rcCompactHeightfield -> float -> Z -> rcContourSet -> rcContourSet * bool;
  rcAllocPolyMesh : option rcPolyMesh;
  rcBuildPolyMesh : rcContourSet -> Z -> rcPolyMesh -> rcPolyMesh * bool;
  rcAllocPolyMeshDetail : option rcPolyMeshDetail;
  rcBuildPolyMeshDetail :
    rcPolyMesh -> rcCompactHeightfield -> float -> float -> rcPolyMeshDetail ->
    rcPolyMeshDetail * bool;
  rcCalcGridSize : Vec3 -> Vec3 -> float -> Z * Z;
}.

(** ** Detour data *)

Record dtNavMeshParams : Type := mkNavMeshParams {
  nmp_orig : Vec3;
  nmp_tileWidth : float;
  nmp_tileHeight : float;
  nmp_maxTiles : Z;
  nmp_maxPolys : Z;
}.

Record dtNavMeshCreateParams : Type := mkCreateParams {
  cp_verts : list Z;
  cp_vertCount : Z;
  cp_polys : list Z;
  cp_polyAreas : list Z;
  cp_polyFlags : list Z;
  cp_polyCount : Z;
  cp_nvp : Z;
  cp_detailMeshes : list Z;
  cp_detailVerts : list float;
  cp_detailVertsCount : Z;
  cp_detailTris : list Z;
  cp_detailTriCount : Z;
  cp_walkableHeight : float;
  cp_walkableRadius : float;
  cp_walkableClimb : float;
  cp_tileX : Z;
  cp_tileY : Z;
  cp_bmin : Vec3;
  cp_bmax : Vec3;
  cp_cs : float;
  cp_ch : float;
  cp_buildBvTree : bool;
}.

(** The part of a tile header the persistence claims speak about. *)
Record dtMeshHeader : Type := mkMeshHeader {
  hdr_x : Z;
  hdr_y : Z;
  hdr_polyCount : Z;
  hdr_vertCount : Z;
}.

Record dtCrowdAgentParams : Type := mkAgentParams {
  ap_radius : float;
  ap_height : float;
  ap_maxAcceleration : float;
  ap_maxSpeed : float;
  ap_collisionQueryRange : float;
  ap_pathOptimizationRange : float;
  ap_separationWeight : float;
  ap_updateFlags : Z;
}.

(** The fields of [dtCrowdAgent] the scene reads ([npos], [vel], [ncorners],
    [params]) and the movement target the claims speak about. *)
Record dtCrowdAgent : Type := mkCrowdAgent {
  ca_npos : Vec3;
  ca_vel : Vec3;
  ca_ncorners : Z;
  ca_params : dtCrowdAgentParams;
  ca_targetRef : dtPolyRef;
  ca_targetPos : Vec3;
}.

(** ** Detour interface (tile store, query, crowd)

    [dtStatusFailed(status)] becomes the flag [false].  The query and the
    crowd keep a pointer to the navmesh they were initialised with; what a
    library call sees through that pointer belongs to the abstract objects. *)
Class Detour : Type := {
  dtNavMesh : Type;
  dtNavMeshQuery : Type;
  dtCrowd : Type;
  dtAllocNavMesh : option dtNavMesh;
  dtNavMesh_init : dtNavMesh -> dtNavMeshParams -> dtNavMesh * bool;
  dtNavMesh_addTile : dtNavMesh -> blob -> dtNavMesh * bool;
  dtNavMesh_removeTile : dtNavMesh -> dtTileRef -> dtNavMesh;
  dtNavMesh_getTileRefAt : dtNavMesh -> Z -> Z -> dtTileRef;
  dtNavMesh_getTileAt : dtNavMesh -> Z -> Z -> option blob;
  dtNavMesh_getParams : dtNavMesh -> dtNavMeshParams;
  dtCreateNavMeshData : dtNavMeshCreateParams -> option blob;
  dtTileHeader : blob -> option dtMeshHeader;
  dtAllocNavMeshQuery : option dtNavMeshQuery;
  dtNavMeshQuery_init : dtNavMeshQuery -> dtNavMesh -> Z -> dtNavMeshQuery * bool;
  dtNavMeshQuery_findNearestPoly : dtNavMeshQuery -> Vec3 -> Vec3 -> dtPolyRef;
  dtAllocCrowd : dtCrowd;
  dtCrowd_init : dtCrowd -> Z -> float -> option dtNavMesh -> dtCrowd * bool;
  dtCrowd_addAgent : dtCrowd -> Vec3 -> dtCrowdAgentParams -> dtCrowd * Z;
  dtCrowd_removeAgent : dtCrowd -> Z -> dtCrowd;
  dtCrowd_getAgent : dtCrowd -> Z -> option dtCrowdAgent;
  dtCrowd_update : dtCrowd -> float -> dtCrowd;
  dtCrowd_resetMoveTarget : dtCrowd -> Z -> dtCrowd;
  dtCrowd_updateAgentParameters : dtCrowd -> Z -> dtCrowdAgentParams -> dtCrowd;
  dtCrowd_requestMoveTarget : dtCrowd -> Z -> dtPolyRef -> Vec3 -> dtCrowd * bool;
}.

(** ** Geometry provider, universe and script scene *)

Record Material : Type := mkMaterial { mat_custom_flags : Z }.

Definition isCustomFlag (m : Material) (flag : Z) : bool :=
  negb (Z.land (mat_custom_flags m) flag =? 0).

Record Mesh : Type := mkMesh {
  mesh_material : Material;
  mesh_indices_offset : Z;
  mesh_indices_count : Z;
  mesh_attribute_array_offset : Z;
}.

(** [model_indices16] and [model_indices32] are the index buffer read
    through a [uint16*] and through a [uint32*]; [model_is16] is the flag
    [INDICES_16BIT]; [model_lod_from] and [model_lod_to] are
    [getLODMeshIndices(0)]. *)
Record Model : Type := mkModel {
  model_aabb : AABB;
  model_is16 : bool;
  model_indices16 : list Z;
  model_indices32 : list Z;
  model_vertices : list Vec3;
  model_stride : Z;
  model_meshes : list Mesh;
  model_lod_from : Z;
  model_lod_to : Z;
}.

Record Renderable : Type := mkRenderable {
  rend_model : option Model;
  rend_entity : Entity;
}.

Record Terrain : Type := mkTerrain {
  terrain_entity : Entity;
  terrain_resolution : Vec2;
  terrain_scaleXZ : float;
  terrain_heightAt : float -> float -> float;
  terrain_aabb : AABB;
}.

Record RenderScene : Type := mkRenderScene {
  rs_renderables : list Renderable;
  rs_terrains : list Terrain;
}.

Record LuaScriptScene : Type := mkScriptScene {
  ls_getComponent : Entity -> option ComponentHandle;
  ls_getScriptCount : ComponentHandle -> Z;
  ls_hasFunction : ComponentHandle -> Z -> string -> bool;
}.

Record Agent : Type := mkAgent {
  entity : Entity;
  radius : float;
  height : float;
  agent : Z;
  is_finished : bool;
}.

Definition with_agent (a : Agent) (h : Z) : Agent :=
  mkAgent (entity a) (radius a) (height a) h (is_finished a).
Definition with_is_finished (a : Agent) (b : bool) : Agent :=
  mkAgent (entity a) (radius a) (height a) (agent a) b.

(** What [update] does to the outside: transform writes and the call of
    [onPathFinished], which carries the script indices it invoked. *)
Inductive Effect {E : Engine} : Type :=
| SetPosition (e : Entity) (p : Vec3)
| SetRotation (e : Entity) (q : Quat)
| PathFinished (e : Entity) (calls : list Z).

(** A file is the sequence of objects written to it: [file.write(&x,
    sizeof(x))] appends the object [x], [file.read(&x, sizeof(x))] takes the
    next one.  The object representation in bytes is not modelled. *)
Inductive Chunk : Type :=
| ChAABB (a : AABB)
| ChInt (n : Z)
| ChParams (p : dtNavMeshParams)
| ChData (d : blob).

Definition FileSystem : Type := list (string * list Chunk).

Fixpoint fs_lookup (fs : FileSystem) (path : string) : option (list Chunk) :=
  match fs with
  | [] => None
  | (p, c) :: rest => if String.eqb p path then Some c else fs_lookup rest path
  end.

Section Scene.

Context {E : Engine} {R : Recast} {D : Detour}.

Record Universe : Type := mkUniverse {
  getPosition : Entity -> Vec3;
  getRotation : Entity -> Quat;
  getMatrix : Entity -> Matrix;
}.

(** The collaborators a call can read: the universe, the renderer and script
    scenes ([None] when [getScene] returns null) and whether a path can be
    created for writing. *)
Record World : Type := mkWorld {
  w_universe : Universe;
  w_render_scene : option RenderScene;
  w_script_scene : option LuaScriptScene;
  w_can_create : string -> bool;
}.

(** ** The scene object: the data members of [NavigationSceneImpl] *)

Record NavigationSceneImpl : Type := mkScene {
  m_polymesh : option rcPolyMesh;
  m_navmesh : option dtNavMesh;
  m_navquery : option dtNavMeshQuery;
  m_detail_mesh : option rcPolyMeshDetail;
  m_agents : list (Entity * Agent);
  m_debug_compact_heightfield : option rcCompactHeightfield;
  m_debug_heightfield : option rcHeightfield;
  m_debug_contours : option rcContourSet;
  m_debug_tile_origin : Vec3;
  m_aabb : AABB;
  m_config : rcConfig;
  m_num_tiles_x : Z;
  m_num_tiles_z : Z;
  m_script_scene : option LuaScriptScene;
  m_crowd : option dtCrowd;
}.

Definition set_polymesh (s : NavigationSceneImpl) v : NavigationSceneImpl :=
  mkScene v (m_navmesh s) (m_navquery s) (m_detail_mesh s) (m_agents s)
    (m_debug_compact_heightfield s) (m_debug_heightfield s) (m_debug_contours s)
    (m_debug_tile_origin s) (m_aabb s) (m_config s) (m_num_tiles_x s)
    (m_num_tiles_z s) (m_script_scene s) (m_crowd s).
Definition set_navmesh (s : NavigationSceneImpl) v : NavigationSceneImpl :=
  mkScene (m_polymesh s) v (m_navquery s) (m_detail_mesh s) (m_agents s)
    (m_debug_compact_heightfield s) (m_debug_heightfield s) (m_debug_contours s)
    (m_debug_tile_origin s) (m_aabb s) (m_config s) (m_num_tiles_x s)
    (m_num_tiles_z s) (m_script_scene s) (m_crowd s).
Definition set_navquery (s : NavigationSceneImpl) v : NavigationSceneImpl :=
  mkScene (m_polymesh s) (m_navmesh s) v (m_detail_mesh s) (m_agents s)
    (m_debug_compact_heightfield s) (m_debug_heightfield s) (m_debug_contours s)
    (m_debug_tile_origin s) (m_aabb s) (m_config s) (m_num_tiles_x s)
    (m_num_tiles_z s) (m_script_scene s) (m_crowd s).
Definition set_detail_mesh (s : NavigationSceneImpl) v : NavigationSceneImpl :=
  mkScene (m_polymesh s) (m_navmesh s) (m_navquery s) v (m_agents s)
    (m_debug_compact_heightfield s) (m_debug_heightfield s) (m_debug_contours s)
    (m_debug_tile_origin s) (m_aabb s) (m_config s) (m_num_tiles_x s)
    (m_num_tiles_z s) (m_script_scene s) (m_crowd s).
Definition set_agents (s : NavigationSceneImpl) v : NavigationSceneImpl :=
  mkScene (m_polymesh s) (m_navmesh s) (m_navquery s) (m_detail_mesh s) v
    (m_debug_compact_heightfield s) (m_debug_heightfield s) (m_debug_contours s)
    (m_debug_tile_origin s) (m_aabb s) (m_config s) (m_num_tiles_x s)
    (m_num_tiles_z s) (m_script_scene s) (m_crowd s).
Definition set_debug_compact_heightfield (s : NavigationSceneImpl) v
  : NavigationSceneImpl :=
  mkScene (m_polymesh s) (m_navmesh s) (m_navquery s) (m_detail_mesh s)
    (m_agents s) v (m_debug_heightfield s) (m_debug_contours s)
    (m_debug_tile_origin s) (m_aabb s) (m_config s) (m_num_tiles_x s)
    (m_num_tiles_z s) (m_script_scene s) (m_crowd s).
Definition set_debug_heightfield (s : NavigationSceneImpl) v
  : NavigationSceneImpl :=
  mkScene (m_polymesh s) (m_navmesh s) (m_navquery s) (m_detail_mesh s)
    (m_agents s) (m_debug_compact_heightfield s) v (m_debug_contours s)
    (m_debug_tile_origin s) (m_aabb s) (m_config s) (m_num_tiles_x s)
    (m_num_tiles_z s) (m_script_scene s) (m_crowd s).
Definition set_debug_contours (s : NavigationSceneImpl) v : NavigationSceneImpl :=
  mkScene (m_polymesh s) (m_navmesh s) (m_navquery s) (m_detail_mesh s)
    (m_agents s) (m_debug_compact_heightfield s) (m_debug_heightfield s) v
    (m_debug_tile_origin s) (m_aabb s) (m_config s) (m_num_tiles_x s)
    (m_num_tiles_z s) (m_script_scene s) (m_crowd s).
Definition set_debug_tile_origin (s : NavigationSceneImpl) v
  : NavigationSceneImpl :=
  mkScene (m_polymesh s) (m_navmesh s) (m_navquery s) (m_detail_mesh s)
    (m_agents s) (m_debug_compact_heightfield s) (m_debug_heightfield s)
    (m_debug_contours s) v (m_aabb s) (m_config s) (m_num_tiles_x s)
    (m_num_tiles_z s) (m_script_scene s) (m_crowd s).
Definition set_aabb (s : NavigationSceneImpl) v : NavigationSceneImpl :=
  mkScene (m_polymesh s) (m_navmesh s) (m_navquery s) (m_detail_mesh s)
    (m_agents s) (m_debug_compact_heightfield s) (m_debug_heightfield s)
    (m_debug_contours s) (m_debug_tile_origin s) v (m_config s)
    (m_num_tiles_x s) (m_num_tiles_z s) (m_script_scene s) (m_crowd s).
Definition set_config (s : NavigationSceneImpl) v : NavigationSceneImpl :=
  mkScene (m_polymesh s) (m_navmesh s) (m_navquery s) (m_detail_mesh s)
    (m_agents s) (m_debug_compact_heightfield s) (m_debug_heightfield s)
    (m_debug_contours s) (m_debug_tile_origin s) (m_aabb s) v
    (m_num_tiles_x s) (m_num_tiles_z s) (m_script_scene s) (m_crowd s).
Definition set_num_tiles (s : NavigationSceneImpl) nx nz : NavigationSceneImpl :=
  mkScene (m_polymesh s) (m_navmesh s) (m_navquery s) (m_detail_mesh s)
    (m_agents s) (m_debug_compact_heightfield s) (m_debug_heightfield s)
    (m_debug_contours s) (m_debug_tile_origin s) (m_aabb s) (m_config s)
    nx nz (m_script_scene s) (m_crowd s).
Definition set_script_scene (s : NavigationSceneImpl) v : NavigationSceneImpl :=
  mkScene (m_polymesh s) (m_navmesh s) (m_navquery s) (m_detail_mesh s)
    (m_agents s) (m_debug_compact_heightfield s) (m_debug_heightfield s)
    (m_debug_contours s) (m_debug_tile_origin s) (m_aabb s) (m_config s)
    (m_num_tiles_x s) (m_num_tiles_z s) v (m_crowd s).
Definition set_crowd (s : NavigationSceneImpl) v : NavigationSceneImpl :=
  mkScene (m_polymesh s) (m_navmesh s) (m_navquery s) (m_detail_mesh s)
    (m_agents s) (m_debug_compact_heightfield s) (m_debug_heightfield s)
    (m_debug_contours s) (m_debug_tile_origin s) (m_aabb s) (m_config s)
    (m_num_tiles_x s) (m_num_tiles_z s) (m_script_scene s) v.

(** [m_agents.find(entity)]. *)
Fixpoint find_agent (l : list (Entity * Agent)) (e : Entity) : option Agent :=
  match l with
  | [] => None
  | (k, a) :: rest => if k =? e then Some a else find_agent rest e
  end.

(** Writing through the [Agent*] stored under key [e]. *)
Fixpoint store_agent (l : list (Entity * Agent)) (e : Entity) (a : Agent)
  : list (Entity * Agent) :=
  match l with
  | [] => []
  | (k, b) :: rest =>
      if k =? e then (k, a) :: rest else (k, b) :: store_agent rest e a
  end.

(** ** [clear] *)

Definition clear (s : NavigationSceneImpl) : NavigationSceneImpl :=
  mkScene None None None None (m_agents s) None None None
    (m_debug_tile_origin s) (m_aabb s) (m_config s) (m_num_tiles_x s)
    (m_num_tiles_z s) (m_script_scene s) None.

(** The state [clear] leaves: all eight owned pointers are null. *)
Definition is_cleared (s : NavigationSceneImpl) : bool :=
  match m_polymesh s, m_navmesh s, m_navquery s, m_detail_mesh s,
        m_crowd s, m_debug_compact_heightfield s, m_debug_heightfield s,
        m_debug_contours s with
  | None, None, None, None, None, None, None, None => true
  | _, _, _, _, _, _, _, _ => false
  end.

(** [isNavmeshReady]. *)
Definition isNavmeshReady (s : NavigationSceneImpl) : bool :=
  match m_navmesh s with Some _ => true | None => false end.

(** ** [setGeneratorParams]

    The integer members of [rcConfig] are [int]s: the casts are
    [int_of_float] and the sums and the product for the border and the
    heightfield size are taken in [int]. *)

Definition DETAIL_SAMPLE_DIST : float := float_of_int 6.
Definition DETAIL_SAMPLE_MAX_ERROR : float := float_of_int 1.

Definition setGeneratorParams (s : NavigationSceneImpl)
    (cell_size cell_height agent_radius agent_height walkable_angle max_climb : float)
  : NavigationSceneImpl :=
  let c := m_config s in
  let cs := cell_size in
  let ch := cell_height in
  let walkableHeight := int_of_float (fadd (fdiv agent_height ch) (flit 99 100)) in
  let walkableClimb := int_of_float (fdiv max_climb ch) in
  let walkableRadius := int_of_float (fadd (fdiv agent_radius cs) (flit 99 100)) in
  let borderSize := wrap32 (walkableRadius + 3) in
  let tileSize := CELLS_PER_TILE_SIDE in
  set_config s
    (mkConfig (wrap32 (tileSize + wrap32 (borderSize * 2)))
       (wrap32 (tileSize + wrap32 (borderSize * 2))) tileSize
       borderSize cs ch (cfg_bmin c) (cfg_bmax c) walkable_angle
       walkableHeight walkableClimb walkableRadius
       (int_of_float (fdiv (float_of_int 12) cs))
       (flit 13 10) (8 * 8) (20 * 20) 6
       (if flt DETAIL_SAMPLE_DIST (flit 9 10) then float_of_int 0
        else fmul CELL_SIZE DETAIL_SAMPLE_DIST)
       (fmul ch DETAIL_SAMPLE_MAX_ERROR)).

Definition with_bounds (c : rcConfig) (bmin bmax : Vec3) : rcConfig :=
  mkConfig (cfg_width c) (cfg_height c) (cfg_tileSize c) (cfg_borderSize c)
    (cfg_cs c) (cfg_ch c) bmin bmax (cfg_walkableSlopeAngle c)
    (cfg_walkableHeight c) (cfg_walkableClimb c) (cfg_walkableRadius c)
    (cfg_maxEdgeLen c) (cfg_maxSimplificationError c) (cfg_minRegionArea c)
    (cfg_mergeRegionArea c) (cfg_maxVertsPerPoly c) (cfg_detailSampleDist c)
    (cfg_detailSampleMaxError c).

(** ** Geometry sampling: [rasterizeMeshes], [rasterizeTerrains]

    Sampling reads only the geometry provider; every sampled triangle is
    handed to [rcRasterizeTriangle] in the order it is produced.  The model
    first lists the calls ([Sample]) and then folds the rasterizer over them. *)

Record Sample : Type := mkSample {
  s_a : Vec3;
  s_b : Vec3;
  s_c : Vec3;
  s_area : Z;
}.

Definition vzero : Vec3 := mkVec3 (float_of_int 0) (float_of_int 0) (float_of_int 0).

(** Array reads; an index outside the array is undefined in C++ and yields
    a default here. *)
Definition vertex_at (vs : list Vec3) (k : Z) : Vec3 := nth (Z.to_nat k) vs vzero.
Definition index_at (l : list Z) (k : Z) : Z := nth (Z.to_nat k) l 0.

Definition mesh_walkable_threshold : float := cosf (degreesToRadians 45).
Definition terrain_walkable_threshold : float := cosf (degreesToRadians 60).

(** The area tag of a mesh triangle:
    [n.y > walkable_threshold && is_walkable ? RC_WALKABLE_AREA : 0]. *)
Definition mesh_area (a b c : Vec3) (is_walkable : bool) : Z :=
  let n := normalized (crossProduct (vsub a b) (vsub a c)) in
  if fgt (vy n) mesh_walkable_threshold && is_walkable
  then RC_WALKABLE_AREA else 0.

(** One iteration of the index loop of a mesh. *)
Definition mesh_triangle (mtx : Matrix) (model : Model) (indices : list Z)
    (mesh : Mesh) (is_walkable : bool) (i : Z) : Sample :=
  let base := Z.quot (mesh_attribute_array_offset mesh) (model_stride model) in
  let vert k :=
    mtx_multiplyPosition mtx
      (vertex_at (model_vertices model)
         (base + index_at indices (mesh_indices_offset mesh + k))) in
  let a := vert i in
  let b := vert (i + 1) in
  let c := vert (i + 2) in
  mkSample a b c (mesh_area a b c is_walkable).

(** [for (int i = 0; i < mesh.indices_count; i += 3)]. *)
Fixpoint mesh_triangles (fuel : nat) (mtx : Matrix) (model : Model)
    (indices : list Z) (mesh : Mesh) (is_walkable : bool) (i : Z) : list Sample :=
  match fuel with
  | O => []
  | S fuel' =>
      if i <? mesh_indices_count mesh
      then mesh_triangle mtx model indices mesh is_walkable i
           :: mesh_triangles fuel' mtx model indices mesh is_walkable (i + 3)
      else []
  end.

Definition no_navigation_flag : Z := getCustomFlag "no_navigation".
Definition nonwalkable_flag : Z := getCustomFlag "nonwalkable".

(** The body of the sub-mesh loop. *)
Definition mesh_samples (mtx : Matrix) (model : Model) (mesh : Mesh) : list Sample :=
  if isCustomFlag (mesh_material mesh) no_navigation_flag then []
  else
    let is_walkable := negb (isCustomFlag (mesh_material mesh) nonwalkable_flag) in
    let indices :=
      if model_is16 model then model_indices16 model else model_indices32 model in
    mesh_triangles (Z.to_nat (mesh_indices_count mesh)) mtx model indices mesh
      is_walkable 0.

(** The sub-meshes [lod.from .. lod.to] of level of detail 0. *)
Definition lod_meshes (model : Model) : list Mesh :=
  firstn (Z.to_nat (model_lod_to model - model_lod_from model + 1))
    (skipn (Z.to_nat (model_lod_from model)) (model_meshes model)).

(** The renderable loop: a renderable without a model ends the function
    ([return]), a model that does not overlap the box is skipped
    ([continue]). *)
Fixpoint renderable_samples (u : Universe) (aabb : AABB) (l : list Renderable)
  : list Sample :=
  match l with
  | [] => []
  | r :: rest =>
      match rend_model r with
      | None => []
      | Some model =>
          let mtx := getMatrix u (rend_entity r) in
          if negb (aabb_overlaps (aabb_transform (model_aabb model) mtx) aabb)
          then renderable_samples u aabb rest
          else flat_map (mesh_samples mtx model) (lod_meshes model)
               ++ renderable_samples u aabb rest
      end
  end.

Definition meshes_samples (w : World) (aabb : AABB) : list Sample :=
  match w_render_scene w with
  | None => []
  | Some rs => renderable_samples (w_universe w) aabb (rs_renderables rs)
  end.

Definition getTerrainSpaceAABB (terrain_pos : Vec3) (terrain_rot : Quat)
    (aabb_world_space : AABB) : AABB :=
  let mtx :=
    mtx_fastInverse (mtx_setTranslation (quat_toMatrix terrain_rot) terrain_pos) in
  aabb_transform aabb_world_space mtx.

(** The area tag of a terrain triangle. *)
Definition terrain_area (n : Vec3) : Z :=
  if fgt (vy n) terrain_walkable_threshold then RC_WALKABLE_AREA else 0.

(** The two triangles of grid cell [(i, j)] of a terrain. *)
Definition terrain_cell (t : Terrain) (pos : Vec3) (rot : Quat) (i j : Z)
  : list Sample :=
  let scaleXZ := terrain_scaleXZ t in
  let point (ci cj : Z) :=
    let x := fmul (float_of_int ci) scaleXZ in
    let z := fmul (float_of_int cj) scaleXZ in
    vadd pos (quat_rotate rot (mkVec3 x (terrain_heightAt t x z) z)) in
  let p0 := point i j in
  let p1 := point (i + 1) j in
  let p2 := point (i + 1) (j + 1) in
  let p3 := point i (j + 1) in
  let n1 := normalized (crossProduct (vsub p1 p0) (vsub p0 p2)) in
  let n2 := normalized (crossProduct (vsub p2 p0) (vsub p0 p3)) in
  [ mkSample p0 p1 p2 (terrain_area n1); mkSample p0 p2 p3 (terrain_area n2) ].

(** The normal [rasterizeTerrains] computes for the triangle [(a, b, c)]. *)
Definition terrain_normal (smp : Sample) : Vec3 :=
  normalized (crossProduct (vsub (s_b smp) (s_a smp)) (vsub (s_a smp) (s_c smp))).

(** [for (int i = from_x; i < to_x; ++i)]. *)
Fixpoint terrain_row (fuel : nat) (t : Terrain) (pos : Vec3) (rot : Quat)
    (i to_x j : Z) : list Sample :=
  match fuel with
  | O => []
  | S fuel' =>
      if i <? to_x
      then terrain_cell t pos rot i j ++ terrain_row fuel' t pos rot (i + 1) to_x j
      else []
  end.

(** [for (int j = from_z; j < to_z; ++j)]. *)
Fixpoint terrain_rows (fuel : nat) (t : Terrain) (pos : Vec3) (rot : Quat)
    (from_x to_x j to_z : Z) : list Sample :=
  match fuel with
  | O => []
  | S fuel' =>
      if j <? to_z
      then terrain_row (Z.to_nat (to_x - from_x)) t pos rot from_x to_x j
           ++ terrain_rows fuel' t pos rot from_x to_x (j + 1) to_z
      else []
  end.

Definition terrain_samples (u : Universe) (aabb : AABB) (t : Terrain) : list Sample :=
  let pos := getPosition u (terrain_entity t) in
  let rot := getRotation u (terrain_entity t) in
  let res := terrain_resolution t in
  let scaleXZ := terrain_scaleXZ t in
  let ts := getTerrainSpaceAABB pos rot aabb in
  let one := float_of_int 1 in
  let lo := float_of_int 0 in
  let from_z :=
    int_of_float (math_clamp (fsub (fdiv (vz (aabb_min ts)) scaleXZ) one) lo
                    (fsub (v2y res) one)) in
  let to_z :=
    int_of_float (math_clamp (fadd (fdiv (vz (aabb_max ts)) scaleXZ) one) lo
                    (fsub (v2y res) one)) in
  let from_x :=
    int_of_float (math_clamp (fsub (fdiv (vx (aabb_min ts)) scaleXZ) one) lo
                    (fsub (v2x res) one)) in
  let to_x :=
    int_of_float (math_clamp (fadd (fdiv (vx (aabb_max ts)) scaleXZ) one) lo
                    (fsub (v2x res) one)) in
  terrain_rows (Z.to_nat (to_z - from_z)) t pos rot from_x to_x from_z to_z.

Definition terrains_samples (w : World) (aabb : AABB) : list Sample :=
  match w_render_scene w with
  | None => []
  | Some rs => flat_map (terrain_samples (w_universe w) aabb) (rs_terrains rs)
  end.

Definition rasterize (l : list Sample) (solid : rcHeightfield) : rcHeightfield :=
  fold_left
    (fun hf s => rcRasterizeTriangle (s_a s) (s_b s) (s_c s) (s_area s) hf)
    l solid.

Definition rasterizeMeshes (w : World) (aabb : AABB) (solid : rcHeightfield)
  : rcHeightfield := rasterize (meshes_samples w aabb) solid.

Definition rasterizeTerrains (w : World) (aabb : AABB) (solid : rcHeightfield)
  : rcHeightfield := rasterize (terrains_samples w aabb) solid.

Definition rasterizeGeometry (w : World) (aabb : AABB) (solid : rcHeightfield)
  : rcHeightfield := rasterizeTerrains w aabb (rasterizeMeshes w aabb solid).

(** ** [generateTile] *)

Fixpoint set_nth (l : list Z) (i : nat) (v : Z) : list Z :=
  match l, i with
  | [], _ => []
  | _ :: rest, O => v :: rest
  | x :: rest, S i' => x :: set_nth rest i' v
  end.

(** [for (int i = 0; i < npolys; ++i)
       flags[i] = areas[i] == RC_WALKABLE_AREA ? 1 : 0;] *)
Fixpoint mark_flags (fuel : nat) (i npolys : Z) (areas flags : list Z) : list Z :=
  match fuel with
  | O => flags
  | S fuel' =>
      if i <? npolys
      then mark_flags fuel' (i + 1) npolys areas
             (set_nth flags (Z.to_nat i)
                (if index_at areas i =? RC_WALKABLE_AREA then 1 else 0))
      else flags
  end.

Definition with_flags (pm : rcPolyMesh) (flags : list Z) : rcPolyMesh :=
  mkPolyMesh (pm_verts pm) (pm_polys pm) (pm_areas pm) flags (pm_nverts pm)
    (pm_npolys pm) (pm_nvp pm) (pm_bmin pm) (pm_bmax pm).

Definition flag_polys (pm : rcPolyMesh) : rcPolyMesh :=
  with_flags pm
    (mark_flags (Z.to_nat (pm_npolys pm)) 0 (pm_npolys pm) (pm_areas pm) (pm_flags pm)).

(** [(1 + m_config.borderSize) * m_config.cs]: the sum is an [int], which
    is converted for the product. *)
Definition tile_margin (c : rcConfig) : float :=
  fmul (float_of_int (wrap32 (1 + cfg_borderSize c))) (cfg_cs c).

(** The lower corner of the build bounds of tile [(x, z)]:
    [m_aabb.min.x + x * CELLS_PER_TILE_SIDE * CELL_SIZE - margin], where
    [x * CELLS_PER_TILE_SIDE] is a product of [int]s that is then converted
    for the product with [CELL_SIZE]. *)
Definition tile_bmin (s : NavigationSceneImpl) (x z : Z) : Vec3 :=
  let lo := aabb_min (m_aabb s) in
  mkVec3
    (fsub (fadd (vx lo) (fmul (float_of_int (wrap32 (x * CELLS_PER_TILE_SIDE))) CELL_SIZE))
          (tile_margin (m_config s)))
    (vy lo)
    (fsub (fadd (vz lo) (fmul (float_of_int (wrap32 (z * CELLS_PER_TILE_SIDE))) CELL_SIZE))
          (tile_margin (m_config s))).

Definition tile_bmax (s : NavigationSceneImpl) (bmin : Vec3) : Vec3 :=
  let side := fmul (float_of_int CELLS_PER_TILE_SIDE) CELL_SIZE in
  mkVec3
    (fadd (fadd (vx bmin) side) (tile_margin (m_config s)))
    (vy (aabb_max (m_aabb s)))
    (fadd (fadd (vz bmin) side) (tile_margin (m_config s))).

(** The [dtNavMeshCreateParams] filled in by [generateTile]. *)
Definition tile_create_params (c : rcConfig) (pm : rcPolyMesh)
    (dm : rcPolyMeshDetail) (x z : Z) : dtNavMeshCreateParams :=
  mkCreateParams (pm_verts pm) (pm_nverts pm) (pm_polys pm) (pm_areas pm)
    (pm_flags pm) (pm_npolys pm) (pm_nvp pm) (dm_meshes dm) (dm_verts dm)
    (dm_nverts dm) (dm_tris dm) (dm_ntris dm)
    (float_of_int (cfg_walkableHeight c)) (float_of_int (cfg_walkableRadius c))
    (float_of_int (cfg_walkableClimb c)) x z (pm_bmin pm) (pm_bmax pm)
    (cfg_cs c) (cfg_ch c) false.

(** [keep_data ? p : nullptr]. *)
Definition kept {A : Type} (keep_data : bool) (p : A) : option A :=
  if keep_data then Some p else None.

(** The three span filters, in the order of the source. *)
Definition filter_spans (c : rcConfig) (solid : rcHeightfield) : rcHeightfield :=
  rcFilterWalkableLowHeightSpans (cfg_walkableHeight c)
    (rcFilterLedgeSpans (cfg_walkableHeight c) (cfg_walkableClimb c)
       (rcFilterLowHangingWalkableObstacles (cfg_walkableClimb c) solid)).

(** [generateTile(x, z, keep_data)].  The debug members alias the local
    buffers, so at every exit they hold the buffers as they are at that
    point.  Buffers that are neither kept nor freed on an early exit are
    leaked in C++; a leak is not visible in the model. *)
Definition generateTile (w : World) (s : NavigationSceneImpl) (x z : Z)
    (keep_data : bool) : NavigationSceneImpl * bool :=
  match m_navmesh s with
  | None => (s, false)
  | Some nm =>
    let nm1 := dtNavMesh_removeTile nm (dtNavMesh_getTileRefAt nm x z) in
    let s := set_navmesh s (Some nm1) in
    let bmin := tile_bmin s x z in
    let bmax := tile_bmax s bmin in
    let s := if keep_data then set_debug_tile_origin s bmin else s in
    let s := set_config s (with_bounds (m_config s) bmin bmax) in
    let c := m_config s in
    match rcAllocHeightfield with
    | None => (set_debug_heightfield s None, false)
    | Some solid =>
      let '(solid, ok) :=
        rcCreateHeightfield solid (cfg_width c) (cfg_height c) (cfg_bmin c)
          (cfg_bmax c) (cfg_cs c) (cfg_ch c) in
      if negb ok then (set_debug_heightfield s (kept keep_data solid), false) else
      let solid := rasterizeGeometry w (mkAABB bmin bmax) solid in
      let solid := filter_spans c solid in
      let s := set_debug_heightfield s (kept keep_data solid) in
      match rcAllocCompactHeightfield with
      | None => (set_debug_compact_heightfield s None, false)
      | Some chf =>
        let '(chf, ok) :=
          rcBuildCompactHeightfield (cfg_walkableHeight c) (cfg_walkableClimb c)
            solid chf in
        if negb ok
        then (set_debug_compact_heightfield s (kept keep_data chf), false) else
        let '(chf, ok) := rcErodeWalkableArea (cfg_walkableRadius c) chf in
        if negb ok
        then (set_debug_compact_heightfield s (kept keep_data chf), false) else
        let '(chf, ok) := rcBuildDistanceField chf in
        if negb ok
        then (set_debug_compact_heightfield s (kept keep_data chf), false) else
        let '(chf, ok) :=
          rcBuildRegions chf (cfg_borderSize c) (cfg_minRegionArea c)
            (cfg_mergeRegionArea c) in
        let s := set_debug_compact_heightfield s (kept keep_data chf) in
        if negb ok then (s, false) else
        match rcAllocContourSet with
        | None => (set_debug_contours s None, false)
        | Some cset =>
          let '(cset, ok) :=
            rcBuildContours chf (cfg_maxSimplificationError c) (cfg_maxEdgeLen c)
              cset in
          let s := set_debug_contours s (kept keep_data cset) in
          if negb ok then (s, false) else
          match rcAllocPolyMesh with
          | None => (set_polymesh s None, false)
          | Some pm =>
            let '(pm, ok) := rcBuildPolyMesh cset (cfg_maxVertsPerPoly c) pm in
            if negb ok then (set_polymesh s (Some pm), false) else
            match rcAllocPolyMeshDetail with
            | None => (set_detail_mesh (set_polymesh s (Some pm)) None, false)
            | Some dm =>
              let '(dm, ok) :=
                rcBuildPolyMeshDetail pm chf (cfg_detailSampleDist c)
                  (cfg_detailSampleMaxError c) dm in
              if negb ok
              then (set_detail_mesh (set_polymesh s (Some pm)) (Some dm), false)
              else
              let pm := flag_polys pm in
              let s := set_detail_mesh (set_polymesh s (Some pm)) (Some dm) in
              match dtCreateNavMeshData (tile_create_params c pm dm x z) with
              | None => (s, false)
              | Some nav_data =>
                let '(nm2, ok) := dtNavMesh_addTile nm1 nav_data in
                (set_navmesh s (Some nm2), ok)
              end
            end
          end
        end
      end
    end
  end.

(** [generateTileAt(pos, keep_data)]. *)
Definition generateTileAt (w : World) (s : NavigationSceneImpl) (pos : Vec3)
    (keep_data : bool) : NavigationSceneImpl * bool :=
  let side := fmul (float_of_int CELLS_PER_TILE_SIDE) CELL_SIZE in
  let x :=
    int_of_float
      (fdiv (fadd (fsub (vx pos) (vx (aabb_min (m_aabb s))))
               (tile_margin (m_config s))) side) in
  let z :=
    int_of_float
      (fdiv (fadd (fsub (vz pos) (vz (aabb_min (m_aabb s))))
               (tile_margin (m_config s))) side) in
  generateTile w s x z keep_data.

(** ** [computeAABB], [initNavmesh], [generateNavmesh] *)

Definition computeAABB (w : World) (s : NavigationSceneImpl) : NavigationSceneImpl :=
  let s := set_aabb s (mkAABB vzero vzero) in
  match w_render_scene w with
  | None => s
  | Some rs =>
    let u := w_universe w in
    let a1 :=
      fold_left
        (fun acc r =>
           match rend_model r with
           | None => acc
           | Some model =>
               aabb_merge acc
                 (aabb_transform (model_aabb model) (getMatrix u (rend_entity r)))
           end)
        (rs_renderables rs) (m_aabb s) in
    let a2 :=
      fold_left
        (fun acc t =>
           aabb_merge acc
             (aabb_transform (terrain_aabb t) (getMatrix u (terrain_entity t))))
        (rs_terrains rs) a1 in
    set_aabb s a2
  end.

Definition initNavmesh (s : NavigationSceneImpl) : NavigationSceneImpl * bool :=
  match dtAllocNavMesh with
  | None => (set_navmesh s None, false)
  | Some nm =>
    let s := set_navmesh s (Some nm) in
    match dtAllocNavMeshQuery with
    | None => (set_navquery s None, false)
    | Some q =>
      let '(q, ok) := dtNavMeshQuery_init q nm 2048 in
      (set_navquery s (Some q), ok)
    end
  end.

(** [for (int i = 0; i < m_num_tiles_x; ++i)
       if (!generateTile(i, j, false)) return false;] *)
Fixpoint generate_row (fuel : nat) (w : World) (s : NavigationSceneImpl) (i j : Z)
  : NavigationSceneImpl * bool :=
  match fuel with
  | O => (s, true)
  | S fuel' =>
      if i <? m_num_tiles_x s
      then let '(s', ok) := generateTile w s i j false in
           if negb ok then (s', false) else generate_row fuel' w s' (i + 1) j
      else (s, true)
  end.

(** [for (int j = 0; j < m_num_tiles_z; ++j) ...]. *)
Fixpoint generate_rows (fuel : nat) (w : World) (s : NavigationSceneImpl) (j : Z)
  : NavigationSceneImpl * bool :=
  match fuel with
  | O => (s, true)
  | S fuel' =>
      if j <? m_num_tiles_z s
      then let '(s', ok) := generate_row (Z.to_nat (m_num_tiles_x s)) w s 0 j in
           if negb ok then (s', false) else generate_rows fuel' w s' (j + 1)
      else (s, true)
  end.

(** The parameters [generateNavmesh] passes to [dtNavMesh::init]. *)
Definition navmesh_params (aabb : AABB) (num_tiles_x num_tiles_z : Z)
  : dtNavMeshParams :=
  let side := fmul (float_of_int CELLS_PER_TILE_SIDE) CELL_SIZE in
  let maxTiles := num_tiles_x * num_tiles_z in
  let tiles_bits := math_log2 (math_nextPow2 maxTiles) in
  mkNavMeshParams (aabb_min aabb) side side maxTiles (Z.shiftl 1 (22 - tiles_bits)).

(** The state [generateNavmesh] reaches before its first tile, and whether
    the set-up succeeded. *)
Definition generateNavmesh_setup (w : World) (s : NavigationSceneImpl)
  : NavigationSceneImpl * bool :=
  let s := clear s in
  let '(s, ok) := initNavmesh s in
  if negb ok then (s, false) else
  let s := computeAABB w s in
  let '(grid_width, grid_height) :=
    rcCalcGridSize (aabb_min (m_aabb s)) (aabb_max (m_aabb s)) CELL_SIZE in
  let s :=
    set_num_tiles s
      (Z.quot (grid_width + CELLS_PER_TILE_SIDE - 1) CELLS_PER_TILE_SIDE)
      (Z.quot (grid_height + CELLS_PER_TILE_SIDE - 1) CELLS_PER_TILE_SIDE) in
  let params := navmesh_params (m_aabb s) (m_num_tiles_x s) (m_num_tiles_z s) in
  match m_navmesh s with
  | None => (s, false) (* not reached: [initNavmesh] returned true *)
  | Some nm =>
    let '(nm, ok) := dtNavMesh_init nm params in
    (set_navmesh s (Some nm), ok)
  end.

Definition generateNavmesh (w : World) (s : NavigationSceneImpl)
  : NavigationSceneImpl * bool :=
  let '(s, ok) := generateNavmesh_setup w s in
  if negb ok then (s, false) else
  generate_rows (Z.to_nat (m_num_tiles_z s)) w s 0.

(** ** Crowd: [addCrowdAgent], [initCrowd], [startGame], [stopGame] *)

Definition DT_CROWD_ANTICIPATE_TURNS : Z := 1.
Definition DT_CROWD_OBSTACLE_AVOIDANCE : Z := 2.
Definition DT_CROWD_SEPARATION : Z := 4.
Definition DT_CROWD_OPTIMIZE_VIS : Z := 8.
Definition DT_CROWD_OPTIMIZE_TOPO : Z := 16.

(** The parameters [addCrowdAgent] builds from the agent ([params = {}]
    zeroes the fields that are not assigned). *)
Definition crowd_agent_params (a : Agent) : dtCrowdAgentParams :=
  mkAgentParams (radius a) (height a) (float_of_int 10) (float_of_int 10)
    (fmul (radius a) (float_of_int 12)) (fmul (radius a) (float_of_int 30))
    (float_of_int 0)
    (Z.lor DT_CROWD_ANTICIPATE_TURNS
       (Z.lor DT_CROWD_SEPARATION
          (Z.lor DT_CROWD_OBSTACLE_AVOIDANCE
             (Z.lor DT_CROWD_OPTIMIZE_TOPO DT_CROWD_OPTIMIZE_VIS)))).

(** [addCrowdAgent(agent)] on the crowd [c] that [m_crowd] points to. *)
Definition addCrowdAgent (u : Universe) (c : dtCrowd) (a : Agent) : dtCrowd * Agent :=
  let pos := getPosition u (entity a) in
  let '(c', idx) := dtCrowd_addAgent c pos (crowd_agent_params a) in
  (c', with_agent a idx).

Fixpoint add_all_agents (u : Universe) (c : dtCrowd) (l : list (Entity * Agent))
  : dtCrowd * list (Entity * Agent) :=
  match l with
  | [] => (c, [])
  | (k, a) :: rest =>
      let '(c1, a1) := addCrowdAgent u c a in
      let '(c2, rest') := add_all_agents u c1 rest in
      (c2, (k, a1) :: rest')
  end.

Definition initCrowd (u : Universe) (s : NavigationSceneImpl)
  : NavigationSceneImpl * bool :=
  let '(c, ok) := dtCrowd_init dtAllocCrowd 1000 (float_of_int 4) (m_navmesh s) in
  if negb ok then (set_crowd s None, false) else
  let '(c, agents) := add_all_agents u c (m_agents s) in
  (set_agents (set_crowd s (Some c)) agents, true).

Fixpoint remove_all_agents (c : dtCrowd) (l : list (Entity * Agent))
  : dtCrowd * list (Entity * Agent) :=
  match l with
  | [] => (c, [])
  | (k, a) :: rest =>
      let c1 := dtCrowd_removeAgent c (agent a) in
      let '(c2, rest') := remove_all_agents c1 rest in
      (c2, (k, with_agent a (-1)) :: rest')
  end.

Definition stopGame (s : NavigationSceneImpl) : NavigationSceneImpl :=
  match m_crowd s with
  | None => s
  | Some c =>
      let '(_, agents) := remove_all_agents c (m_agents s) in
      set_crowd (set_agents s agents) None
  end.

(** [startGame]; the physics scene pointer it also fetches is never used. *)
Definition startGame (w : World) (s : NavigationSceneImpl) : NavigationSceneImpl :=
  let s := set_script_scene s (w_script_scene w) in
  match m_navmesh s, m_crowd s with
  | Some _, None => fst (initCrowd (w_universe w) s)
  | _, _ => s
  end.

(** ** Agent components

    [createComponent] and [destroyComponent] are given for the component
    type [NAVMESH_AGENT_TYPE], the only one the scene owns; a component
    handle is the index of its entity.  The calls [m_universe.addComponent]
    and [m_universe.destroyComponent] change the universe's own table and no
    member of the scene. *)

Definition createComponent (u : Universe) (s : NavigationSceneImpl) (e : Entity)
  : NavigationSceneImpl :=
  let a := mkAgent e (flit 5 10) (float_of_int 2) (-1) true in
  match m_crowd s with
  | Some c =>
      let '(c', a') := addCrowdAgent u c a in
      set_agents (set_crowd s (Some c')) (m_agents s ++ [(e, a')])
  | None => set_agents s (m_agents s ++ [(e, a)])
  end.

Fixpoint erase_agent (l : list (Entity * Agent)) (e : Entity)
  : list (Entity * Agent) :=
  match l with
  | [] => []
  | (k, a) :: rest => if k =? e then rest else (k, a) :: erase_agent rest e
  end.

(** [destroyComponent]; [None] when the component does not exist (the source
    dereferences the end iterator). *)
Definition destroyComponent (s : NavigationSceneImpl) (e : Entity)
  : option NavigationSceneImpl :=
  match find_agent (m_agents s) e with
  | None => None
  | Some a =>
      let s1 :=
        match m_crowd s with
        | Some c =>
            if 0 <=? agent a
            then set_crowd s (Some (dtCrowd_removeAgent c (agent a)))
            else s
        | None => s
        end in
      Some (set_agents s1 (erase_agent (m_agents s1) e))
  end.

(** ** [onEntityMoved]

    The handler bound to the universe's [entityTransformed] signal.  [None]
    stands for undefined behaviour: the source dereferences [m_crowd] and the
    result of [getAgent] without a null check. *)
Definition RESYNC_TOLERANCE : float := flit 1 10.

Definition onEntityMoved (u : Universe) (s : NavigationSceneImpl) (e : Entity)
  : option NavigationSceneImpl :=
  match find_agent (m_agents s) e with
  | None => Some s
  | Some a =>
      let pos := getPosition u e in
      match m_crowd s with
      | None => None
      | Some c =>
          match dtCrowd_getAgent c (agent a) with
          | None => None
          | Some dt_agent =>
              if fgt (squaredLength (vsub pos (ca_npos dt_agent))) RESYNC_TOLERANCE
              then
                let c1 := dtCrowd_removeAgent c (agent a) in
                let '(c2, a') := addCrowdAgent u c1 a in
                Some (set_agents (set_crowd s (Some c2))
                        (store_agent (m_agents s) e a'))
              else Some s
          end
      end
  end.

(** ** [onPathFinished] and [update]

    The transform writes of [update] are recorded as effects.  The universe
    signals every transform write to its observers, among them
    [onEntityMoved] of this scene; the entity then stands exactly at the
    simulated position and the handler changes nothing
    ([onEntityMoved_at_simulated_position] below).  That is so for an agent
    stored under the entity it records, as [createComponent] makes it; the
    handler call for a write to any other entity is not part of the model. *)

(** [for (int i = 0, c = getScriptCount(cmp); i < c; ++i)]: the indices of
    the scripts whose [onPathFinished] function is called. *)
Fixpoint script_calls (fuel : nat) (ls : LuaScriptScene) (cmp : ComponentHandle)
    (i c : Z) : list Z :=
  match fuel with
  | O => []
  | S fuel' =>
      if i <? c
      then (if ls_hasFunction ls cmp i "onPathFinished" then [i] else [])
           ++ script_calls fuel' ls cmp (i + 1) c
      else []
  end.

Definition onPathFinished (script_scene : option LuaScriptScene) (a : Agent)
  : list Z :=
  match script_scene with
  | None => []
  | Some ls =>
      match ls_getComponent ls (entity a) with
      | None => []
      | Some cmp =>
          let c := ls_getScriptCount ls cmp in
          script_calls (Z.to_nat c) ls cmp 0 c
      end
  end.

(** The transform writes of one agent: the position, and the rotation when
    [speed > 0]. *)
Definition transform_writes (a : Agent) (dt_agent : dtCrowdAgent) : list Effect :=
  let velocity := ca_vel dt_agent in
  let speed := vlength velocity in
  SetPosition (entity a) (ca_npos dt_agent)
  :: (if fgt speed (float_of_int 0)
      then
        let velocity := vscale velocity (fdiv (float_of_int 1) speed) in
        let yaw := atan2f (vx velocity) (vz velocity) in
        [SetRotation (entity a)
           (quat_axis_angle
              (mkVec3 (float_of_int 0) (float_of_int 1) (float_of_int 0)) yaw)]
      else []).

(** The body of the agent loop of [update]; [None] when [getAgent] returns
    null, which the source dereferences. *)
Definition update_agent (script_scene : option LuaScriptScene) (c : dtCrowd)
    (a : Agent) : option (dtCrowd * Agent * list Effect) :=
  match dtCrowd_getAgent c (agent a) with
  | None => None
  | Some dt_agent =>
      let writes := transform_writes a dt_agent in
      if ca_ncorners dt_agent =? 0
      then
        if negb (is_finished a)
        then
          let c' := dtCrowd_resetMoveTarget c (agent a) in
          let a' := with_is_finished a true in
          Some (c', a',
                writes ++ [PathFinished (entity a) (onPathFinished script_scene a')])
        else Some (c, a, writes)
      else Some (c, with_is_finished a false, writes)
  end.

Fixpoint update_agents (script_scene : option LuaScriptScene) (c : dtCrowd)
    (l : list (Entity * Agent))
  : option (dtCrowd * list (Entity * Agent) * list Effect) :=
  match l with
  | [] => Some (c, [], [])
  | (k, a) :: rest =>
      match update_agent script_scene c a with
      | None => None
      | Some (c1, a1, e1) =>
          match update_agents script_scene c1 rest with
          | None => None
          | Some (c2, rest', e2) => Some (c2, (k, a1) :: rest', e1 ++ e2)
          end
      end
  end.

Definition update (s : NavigationSceneImpl) (time_delta : float) (paused : bool)
  : option (NavigationSceneImpl * list Effect) :=
  match m_crowd s with
  | None => Some (s, [])
  | Some c =>
      let c := dtCrowd_update c time_delta in
      match update_agents (m_script_scene s) c (m_agents s) with
      | None => None
      | Some (c', agents, effects) =>
          Some (set_agents (set_crowd s (Some c')) agents, effects)
      end
  end.

(** ** [navigate] *)

Definition with_maxSpeed (p : dtCrowdAgentParams) (speed : float)
  : dtCrowdAgentParams :=
  mkAgentParams (ap_radius p) (ap_height p) (ap_maxAcceleration p) speed
    (ap_collisionQueryRange p) (ap_pathOptimizationRange p)
    (ap_separationWeight p) (ap_updateFlags p).

Definition navigate_ext : Vec3 :=
  mkVec3 (float_of_int 1) (float_of_int 2) (float_of_int 1).

Definition navigate (s : NavigationSceneImpl) (e : Entity) (dest : Vec3)
    (speed : float) : option (NavigationSceneImpl * bool) :=
  match m_navquery s with
  | None => Some (s, false)
  | Some q =>
    match m_crowd s with
    | None => Some (s, false)
    | Some c =>
      if e =? INVALID_ENTITY then Some (s, false) else
      match find_agent (m_agents s) e with
      | None => Some (s, false)
      | Some a =>
        let end_poly_ref := dtNavMeshQuery_findNearestPoly q dest navigate_ext in
        match dtCrowd_getAgent c (agent a) with
        | None => None
        | Some dt_agent =>
          let params := with_maxSpeed (ca_params dt_agent) speed in
          let c1 := dtCrowd_updateAgentParameters c (agent a) params in
          let '(c2, ok) := dtCrowd_requestMoveTarget c1 (agent a) end_poly_ref dest in
          Some (set_crowd s (Some c2), ok)
        end
      end
    end
  end.

(** ** Persistence: [save] and [load]

    [None] stands for undefined behaviour: [save] dereferences the tile
    pointer returned by [getTileAt] without a null check, and [load] ignores
    the result of every [file.read], so that a read past the end of the file
    leaves its destination indeterminate. *)

(** [for (int i = 0; i < m_num_tiles_x; ++i)] of [save]. *)
Fixpoint save_row (fuel : nat) (nm : dtNavMesh) (num_tiles_x i j : Z)
  : option (list Chunk) :=
  match fuel with
  | O => Some []
  | S fuel' =>
      if i <? num_tiles_x
      then
        match dtNavMesh_getTileAt nm i j with
        | None => None
        | Some data =>
            match save_row fuel' nm num_tiles_x (i + 1) j with
            | None => None
            | Some rest =>
                Some (ChInt (Z.of_nat (List.length data)) :: ChData data :: rest)
            end
        end
      else Some []
  end.

(** [for (int j = 0; j < m_num_tiles_z; ++j)] of [save]. *)
Fixpoint save_rows (fuel : nat) (nm : dtNavMesh) (num_tiles_x num_tiles_z j : Z)
  : option (list Chunk) :=
  match fuel with
  | O => Some []
  | S fuel' =>
      if j <? num_tiles_z
      then
        match save_row (Z.to_nat num_tiles_x) nm num_tiles_x 0 j with
        | None => None
        | Some row =>
            match save_rows fuel' nm num_tiles_x num_tiles_z (j + 1) with
            | None => None
            | Some rest => Some (row ++ rest)
            end
        end
      else Some []
  end.

Definition save (w : World) (fs : FileSystem) (s : NavigationSceneImpl)
    (path : string) : option (FileSystem * bool) :=
  match m_navmesh s with
  | None => Some (fs, false)
  | Some nm =>
      if negb (w_can_create w path) then Some (fs, false) else
      let header :=
        [ ChAABB (m_aabb s); ChInt (m_num_tiles_x s); ChInt (m_num_tiles_z s);
          ChParams (dtNavMesh_getParams nm) ] in
      match save_rows (Z.to_nat (m_num_tiles_z s)) nm (m_num_tiles_x s)
              (m_num_tiles_z s) 0 with
      | None => None
      | Some tiles => Some ((path, header ++ tiles) :: fs, true)
      end
  end.

(** The result of the tile loops of [load]: the navmesh, the unread rest of
    the file and whether every [addTile] succeeded. *)
Fixpoint load_row (fuel : nat) (nm : dtNavMesh) (file : list Chunk)
    (num_tiles_x i : Z) : option (dtNavMesh * list Chunk * bool) :=
  match fuel with
  | O => Some (nm, file, true)
  | S fuel' =>
      if i <? num_tiles_x
      then
        match file with
        | ChInt data_size :: ChData data :: rest =>
            if data_size =? Z.of_nat (List.length data)
            then
              let '(nm', ok) := dtNavMesh_addTile nm data in
              if negb ok then Some (nm', rest, false)
              else load_row fuel' nm' rest num_tiles_x (i + 1)
            else None
        | _ => None
        end
      else Some (nm, file, true)
  end.

Fixpoint load_rows (fuel : nat) (nm : dtNavMesh) (file : list Chunk)
    (num_tiles_x num_tiles_z j : Z) : option (dtNavMesh * list Chunk * bool) :=
  match fuel with
  | O => Some (nm, file, true)
  | S fuel' =>
      if j <? num_tiles_z
      then
        match load_row (Z.to_nat num_tiles_x) nm file num_tiles_x 0 with
        | None => None
        | Some (nm', rest, ok) =>
            if negb ok then Some (nm', rest, false)
            else load_rows fuel' nm' rest num_tiles_x num_tiles_z (j + 1)
        end
      else Some (nm, file, true)
  end.

Definition load (w : World) (fs : FileSystem) (s : NavigationSceneImpl)
    (path : string) : option (NavigationSceneImpl * bool) :=
  let s := clear s in
  match fs_lookup fs path with
  | None => Some (s, false)
  | Some file =>
    let '(s, ok) := initNavmesh s in
    if negb ok then Some (s, false) else
    match file with
    | ChAABB aabb :: ChInt num_tiles_x :: ChInt num_tiles_z :: ChParams params
      :: tiles =>
      let s := set_num_tiles (set_aabb s aabb) num_tiles_x num_tiles_z in
      match m_navmesh s with
      | None => Some (s, false) (* not reached: [initNavmesh] returned true *)
      | Some nm =>
        let '(nm, ok) := dtNavMesh_init nm params in
        let s := set_navmesh s (Some nm) in
        if negb ok then Some (s, false) else
        match load_rows (Z.to_nat num_tiles_z) nm tiles num_tiles_x num_tiles_z 0
        with
        | None => None
        | Some (nm', _, ok) =>
          let s := set_navmesh s (Some nm') in
          if negb ok then Some (s, false) else
          match m_crowd s with
          | None => Some (initCrowd (w_universe w) s)
          | Some _ => Some (s, true)
          end
        end
      end
    | _ => None
    end
  end.

(** ** The constructor

    The member initialiser list sets the eight owned pointers to null, the
    tile counts to 0 and the agent map to the empty map, and the body calls
    [setGeneratorParams] with the default arguments.  [m_aabb],
    [m_debug_tile_origin], [m_script_scene] and the bounds of [m_config] are
    not initialised: they keep what the storage of the object holds, which
    is the argument [raw]. *)
Definition construct (raw : NavigationSceneImpl) : NavigationSceneImpl :=
  setGeneratorParams
    (mkScene None None None None [] None None None (m_debug_tile_origin raw)
       (m_aabb raw) (m_config raw) 0 0 (m_script_scene raw) None)
    (flit 3 10) (flit 1 10) (flit 3 10) (float_of_int 2) (float_of_int 60)
    (flit 15 10).

(** Storage filled with zeros. *)
Definition zero_config : rcConfig :=
  mkConfig 0 0 0 0 (float_of_int 0) (float_of_int 0) vzero vzero (float_of_int 0)
    0 0 0 0 (float_of_int 0) 0 0 0 (float_of_int 0) (float_of_int 0).

Definition zero_storage : NavigationSceneImpl :=
  mkScene None None None None [] None None None vzero (mkAABB vzero vzero)
    zero_config 0 0 None None.

(** The scene constructed in zero-filled storage, where the members the
    constructor does not initialise are zero and null.  It is the starting
    point of the concrete scenes of the examples. *)
Definition new_scene : NavigationSceneImpl := construct zero_storage.

(** ** The build order and the tile pipeline, as the specification words them *)

(** [a; a+1; ...], [n] numbers. *)
Fixpoint zseq (a : Z) (n : nat) : list Z :=
  match n with
  | O => []
  | S n' => a :: zseq (a + 1) n'
  end.

(** The tile coordinates of a grid in row-major order: z outer, x inner. *)
Definition row_major (num_tiles_x num_tiles_z : Z) : list (Z * Z) :=
  flat_map (fun j => map (fun i => (i, j)) (zseq 0 (Z.to_nat num_tiles_x)))
    (zseq 0 (Z.to_nat num_tiles_z)).

(** Building a list of tile coordinates in order, stopping at the first
    tile that fails. *)
Fixpoint build_tiles (w : World) (coords : list (Z * Z)) (s : NavigationSceneImpl)
  : NavigationSceneImpl * bool :=
  match coords with
  | [] => (s, true)
  | (i, j) :: rest =>
      let '(s', ok) := generateTile w s i j false in
      if negb ok then (s', false) else build_tiles w rest s'
  end.

(** A stage that reports failure yields nothing. *)
Definition stage {A : Type} (r : A * bool) : option A :=
  let '(a, ok) := r in if ok then Some a else None.

Definition bind {A B : Type} (o : option A) (f : A -> option B) : option B :=
  match o with
  | Some a => f a
  | None => None
  end.

(** The tile pipeline of the specification (4.2, steps 1 to 7) as a pure
    function of the geometry, the configuration and the tile coordinate:
    bounds, heightfield and rasterization, span filters, compaction, erosion,
    distance field and regions, contours, polygon and detail mesh, polygon
    flags, encoding. *)
Definition tile_pipeline (w : World) (s : NavigationSceneImpl) (x z : Z)
  : option (rcPolyMesh * rcPolyMeshDetail * blob) :=
  let bmin := tile_bmin s x z in
  let bmax := tile_bmax s bmin in
  let c := with_bounds (m_config s) bmin bmax in
  bind rcAllocHeightfield (fun solid =>
  bind (stage (rcCreateHeightfield solid (cfg_width c) (cfg_height c) bmin bmax
                 (cfg_cs c) (cfg_ch c))) (fun solid =>
  let solid := filter_spans c (rasterizeGeometry w (mkAABB bmin bmax) solid) in
  bind rcAllocCompactHeightfield (fun chf =>
  bind (stage (rcBuildCompactHeightfield (cfg_walkableHeight c)
                 (cfg_walkableClimb c) solid chf)) (fun chf =>
  bind (stage (rcErodeWalkableArea (cfg_walkableRadius c) chf)) (fun chf =>
  bind (stage (rcBuildDistanceField chf)) (fun chf =>
  bind (stage (rcBuildRegions chf (cfg_borderSize c) (cfg_minRegionArea c)
                 (cfg_mergeRegionArea c))) (fun chf =>
  bind rcAllocContourSet (fun cset =>
  bind (stage (rcBuildContours chf (cfg_maxSimplificationError c)
                 (cfg_maxEdgeLen c) cset)) (fun cset =>
  bind rcAllocPolyMesh (fun pm =>
  bind (stage (rcBuildPolyMesh cset (cfg_maxVertsPerPoly c) pm)) (fun pm =>
  bind rcAllocPolyMeshDetail (fun dm =>
  bind (stage (rcBuildPolyMeshDetail pm chf (cfg_detailSampleDist c)
                 (cfg_detailSampleMaxError c) dm)) (fun dm =>
  let pm := flag_polys pm in
  bind (dtCreateNavMeshData (tile_create_params c pm dm x z)) (fun data =>
  Some (pm, dm, data))))))))))))))).

(** The scene and the value a call left, [d] when the call is undefined. *)
Definition scene_of {B : Type} (r : option (NavigationSceneImpl * B))
    (d : NavigationSceneImpl) : NavigationSceneImpl :=
  match r with
  | Some (s, _) => s
  | None => d
  end.

Definition value_of {B : Type} (r : option (NavigationSceneImpl * B)) (d : B) : B :=
  match r with
  | Some (_, b) => b
  | None => d
  end.

Definition defined {A : Type} (r : option A) : bool :=
  match r with
  | Some _ => true
  | None => false
  end.

(** The expanded build bounds of tile [(x, z)]. *)
Definition tile_box (s : NavigationSceneImpl) (x z : Z) : AABB :=
  mkAABB (tile_bmin s x z) (tile_bmax s (tile_bmin s x z)).

(** The navmesh [generateTile] inserts into: the old tile at [(x, z)] is
    evicted first. *)
Definition evict (nm : dtNavMesh) (x z : Z) : dtNavMesh :=
  dtNavMesh_removeTile nm (dtNavMesh_getTileRefAt nm x z).

(** [getPolygonCount]. *)
Definition getPolygonCount (s : NavigationSceneImpl) : Z :=
  match m_polymesh s with
  | None => 0
  | Some pm => pm_npolys pm
  end.

(** ** Vocabulary for the agent loop of [update] *)

(** What the loop reads of a crowd agent: position, velocity, corner count. *)
Definition motion (o : option dtCrowdAgent) : option (Vec3 * Vec3 * Z) :=
  option_map (fun d => (ca_npos d, ca_vel d, ca_ncorners d)) o.

(** The corner count of the corridor of agent [a] in the crowd [c]. *)
Definition corners (c : dtCrowd) (a : Agent) : option Z :=
  option_map ca_ncorners (dtCrowd_getAgent c (agent a)).

(** The agent has no corner left and is not yet marked as arrived. *)
Definition arriving (c : dtCrowd) (a : Agent) : bool :=
  match corners c a with
  | Some n => (n =? 0) && negb (is_finished a)
  | None => false
  end.

(** The crowd handles of the arriving agents, in iteration order. *)
Definition arrivals (c : dtCrowd) (l : list (Entity * Agent)) : list Z :=
  map (fun ka => agent (snd ka)) (filter (fun ka => arriving c (snd ka)) l).

(** The agent record after the step: arrived if and only if no corner is
    left. *)
Definition settle (c : dtCrowd) (ka : Entity * Agent) : Entity * Agent :=
  match corners c (snd ka) with
  | Some n => (fst ka, with_is_finished (snd ka) (n =? 0))
  | None => ka
  end.

(** The effects of the step for one agent. *)
Definition agent_effects (script_scene : option LuaScriptScene) (c : dtCrowd)
    (ka : Entity * Agent) : list Effect :=
  match dtCrowd_getAgent c (agent (snd ka)) with
  | Some d =>
      transform_writes (snd ka) d
      ++ (if arriving c (snd ka)
          then [PathFinished (entity (snd ka))
                  (onPathFinished script_scene (with_is_finished (snd ka) true))]
          else [])
  | None => []
  end.

(** The agent map holds one agent per entity, stored under its entity. *)
Definition agents_wf (l : list (Entity * Agent)) : Prop :=
  NoDup (map fst l) /\ Forall (fun ka => entity (snd ka) = fst ka) l.

(** Resetting a move target changes no agent's position, velocity or
    corner count, and no handle's validity. *)
Definition reset_keeps_motion : Prop :=
  forall (c : dtCrowd) (i j : Z),
    motion (dtCrowd_getAgent (dtCrowd_resetMoveTarget c i) j)
    = motion (dtCrowd_getAgent c j).

(** ** Vocabulary for the persistence round trip *)

(** The contract of the Detour tile store the round trip relies on, with
    [count] the number of tiles a navmesh holds: a successful [init] gives
    an empty store with the given parameters; [addTile] accepts a blob with
    a header whose location is free while the store has room; an accepted
    blob sits at the location its header names and nothing else changes;
    removing the tile of one location leaves the other locations alone; the
    encoder writes the tile coordinate it was given into the header. *)
Record tile_store_laws (count : dtNavMesh -> Z) : Prop := mkTileStoreLaws {
  init_fresh :
    forall nm p nm',
      dtNavMesh_init nm p = (nm', true) ->
      dtNavMesh_getParams nm' = p /\ count nm' = 0 /\
      forall x y, dtNavMesh_getTileAt nm' x y = None;
  add_accepts :
    forall nm d h,
      dtTileHeader d = Some h ->
      dtNavMesh_getTileAt nm (hdr_x h) (hdr_y h) = None ->
      count nm < nmp_maxTiles (dtNavMesh_getParams nm) ->
      snd (dtNavMesh_addTile nm d) = true;
  add_result :
    forall nm d nm',
      dtNavMesh_addTile nm d = (nm', true) ->
      exists h,
        dtTileHeader d = Some h /\
        dtNavMesh_getTileAt nm' (hdr_x h) (hdr_y h) = Some d /\
        (forall x y, (x, y) <> (hdr_x h, hdr_y h) ->
                     dtNavMesh_getTileAt nm' x y = dtNavMesh_getTileAt nm x y) /\
        count nm' = count nm + 1 /\
        dtNavMesh_getParams nm' = dtNavMesh_getParams nm;
  remove_other :
    forall nm x y,
      dtNavMesh_getParams (evict nm x y) = dtNavMesh_getParams nm /\
      forall x' y', (x', y') <> (x, y) ->
                    dtNavMesh_getTileAt (evict nm x y) x' y'
                    = dtNavMesh_getTileAt nm x' y';
  encode_header :
    forall p d,
      dtCreateNavMeshData p = Some d ->
      exists h, dtTileHeader d = Some h /\ hdr_x h = cp_tileX p /\
                hdr_y h = cp_tileY p;
}.

(** The navmesh holds at [c] a tile whose header names [c]. *)
Definition tile_ok (nm : dtNavMesh) (c : Z * Z) : Prop :=
  exists d h,
    dtNavMesh_getTileAt nm (fst c) (snd c) = Some d /\
    dtTileHeader d = Some h /\ hdr_x h = fst c /\ hdr_y h = snd c.

(** A built tile store: the navmesh holds a tile at every coordinate of the
    grid, the grid fits the tile budget of its parameters, and the library
    accepts these parameters on a new navmesh. *)
Record built_store (s : NavigationSceneImpl) (nm : dtNavMesh) : Prop :=
  mkBuiltStore {
  bs_navmesh : m_navmesh s = Some nm;
  bs_tiles :
    forall c, In c (row_major (m_num_tiles_x s) (m_num_tiles_z s)) -> tile_ok nm c;
  bs_room :
    0 < m_num_tiles_x s -> 0 < m_num_tiles_z s ->
    m_num_tiles_x s * m_num_tiles_z s <= nmp_maxTiles (dtNavMesh_getParams nm);
  bs_init :
    exists nm0 q0,
      dtAllocNavMesh = Some nm0 /\ dtAllocNavMeshQuery = Some q0 /\
      snd (dtNavMeshQuery_init q0 nm0 2048) = true /\
      snd (dtNavMesh_init nm0 (dtNavMesh_getParams nm)) = true;
}.

(** The polygon and vertex counts of the tile at [(x, z)]. *)
Definition tile_counts (nm : dtNavMesh) (x z : Z) : option (Z * Z) :=
  match dtNavMesh_getTileAt nm x z with
  | Some d => option_map (fun h => (hdr_polyCount h, hdr_vertCount h)) (dtTileHeader d)
  | None => None
  end.

(** What [save] writes for one tile. *)
Definition tile_chunks (nm : dtNavMesh) (c : Z * Z) : list Chunk :=
  match dtNavMesh_getTileAt nm (fst c) (snd c) with
  | Some d => [ChInt (Z.of_nat (List.length d)); ChData d]
  | None => []
  end.

(** The tile loop of [save] over a list of coordinates. *)
Fixpoint save_tiles (nm : dtNavMesh) (coords : list (Z * Z)) : option (list Chunk) :=
  match coords with
  | [] => Some []
  | c :: rest =>
      match dtNavMesh_getTileAt nm (fst c) (snd c) with
      | None => None
      | Some data =>
          match save_tiles nm rest with
          | None => None
          | Some chunks =>
              Some (ChInt (Z.of_nat (List.length data)) :: ChData data :: chunks)
          end
      end
  end.

(** The tile loop of [load] for [n] tiles. *)
Fixpoint load_tiles (n : nat) (nm : dtNavMesh) (file : list Chunk)
  : option (dtNavMesh * list Chunk * bool) :=
  match n with
  | O => Some (nm, file, true)
  | S n' =>
      match file with
      | ChInt data_size :: ChData data :: rest =>
          if data_size =? Z.of_nat (List.length data)
          then
            let '(nm', ok) := dtNavMesh_addTile nm data in
            if negb ok then Some (nm', rest, false) else load_tiles n' nm' rest
          else None
      | _ => None
      end
  end.

(** ** Agent properties: [setAgentRadius], [getAgentRadius],
    [setAgentHeight], [getAgentHeight]

    The component handle of an agent is the index of its entity.
    [m_agents[entity]] is the subscript operator of the engine's hash map,
    which is not among the sources; the subscript of a key that is absent
    is outside the model ([None]). *)

Definition with_radius (a : Agent) (r : float) : Agent :=
  mkAgent (entity a) r (height a) (agent a) (is_finished a).
Definition with_height (a : Agent) (h : float) : Agent :=
  mkAgent (entity a) (radius a) h (agent a) (is_finished a).

Definition setAgentRadius (s : NavigationSceneImpl) (cmp : ComponentHandle)
    (r : float) : option NavigationSceneImpl :=
  match find_agent (m_agents s) cmp with
  | None => None
  | Some a => Some (set_agents s (store_agent (m_agents s) cmp (with_radius a r)))
  end.

Definition getAgentRadius (s : NavigationSceneImpl) (cmp : ComponentHandle)
  : option float :=
  option_map radius (find_agent (m_agents s) cmp).

Definition setAgentHeight (s : NavigationSceneImpl) (cmp : ComponentHandle)
    (h : float) : option NavigationSceneImpl :=
  match find_agent (m_agents s) cmp with
  | None => None
  | Some a => Some (set_agents s (store_agent (m_agents s) cmp (with_height a h)))
  end.

Definition getAgentHeight (s : NavigationSceneImpl) (cmp : ComponentHandle)
  : option float :=
  option_map height (find_agent (m_agents s) cmp).

(** ** [serialize] and [deserialize]

    A blob is the sequence of the values written to it, like a file;
    [serializer.write(x)] appends [x] and [serializer.read(x)] takes the
    next value.  A read that finds no value of the expected type is outside
    the model ([None]). *)
Inductive Item : Type :=
| IInt (n : Z)
| IEntity (e : Entity)
| IFloat (f : float).

Definition agent_items (ka : Entity * Agent) : list Item :=
  [IEntity (fst ka); IFloat (radius (snd ka)); IFloat (height (snd ka))].

Definition serialize (s : NavigationSceneImpl) (serializer : list Item) : list Item :=
  serializer
  ++ IInt (Z.of_nat (List.length (m_agents s))) :: flat_map agent_items (m_agents s).

(** [for (int i = 0; i < count; ++i)] of [deserialize].  [LUMIX_NEW] leaves
    the members of the new [Agent] uninitialised and the loop assigns
    [radius], [height] and [agent] only: [fresh i] is the object the [i]-th
    allocation returns, and its [entity] and [is_finished] stay as they
    are. *)
Fixpoint read_agents (fuel : nat) (fresh : Z -> Agent) (i count : Z)
    (serializer : list Item) (agents : list (Entity * Agent))
  : option (list (Entity * Agent) * list Item) :=
  match fuel with
  | O => Some (agents, serializer)
  | S fuel' =>
      if i <? count
      then
        match serializer with
        | IEntity e :: IFloat r :: IFloat h :: rest =>
            let a := mkAgent (entity (fresh i)) r h (-1) (is_finished (fresh i)) in
            read_agents fuel' fresh (i + 1) count rest (agents ++ [(e, a)])
        | _ => None
        end
      else Some (agents, serializer)
  end.

(** [Version::AGENTS]. *)
Definition VERSION_AGENTS : Z := 0.

(** [deserialize(serializer, version)]: the new scene and the unread rest
    of the blob. *)
Definition deserialize (fresh : Z -> Agent) (s : NavigationSceneImpl)
    (serializer : list Item) (version : Z)
  : option (NavigationSceneImpl * list Item) :=
  let s := set_agents s [] in
  if VERSION_AGENTS <? version
  then
    match serializer with
    | IInt count :: rest =>
        match read_agents (Z.to_nat count) fresh 0 count rest (m_agents s) with
        | None => None
        | Some (agents, rest') => Some (set_agents s agents, rest')
        end
    | _ => None
    end
  else Some (s, serializer).

(** ** Vocabulary for the agent map and the crowd

    The agent map [m_agents] is kept as an association list in the order
    in which the engine's hash map is iterated: an insertion adds at the
    end, erasing removes the entry, and the loops over the map visit the
    entries from the front.  "Map order" below is this order. *)

(** What an agent record holds besides its crowd handle. *)
Definition unhandled (ka : Entity * Agent) : Entity * Agent :=
  (fst ka, with_agent (snd ka) (-1)).

(** The crowd after one [addAgent] per agent of the map, in map order, each
    at the position of the agent's entity. *)
Definition crowd_with (u : Universe) (l : list (Entity * Agent)) (c : dtCrowd)
  : dtCrowd :=
  fold_left
    (fun c ka =>
       fst (dtCrowd_addAgent c (getPosition u (entity (snd ka)))
              (crowd_agent_params (snd ka))))
    l c.

(** The position writes among the effects of a step, in order. *)
Definition position_writes (effects : list Effect) : list (Entity * Vec3) :=
  flat_map
    (fun x => match x with SetPosition e p => [(e, p)] | _ => [] end) effects.

(** The agent [createComponent] makes, before it is handed to the crowd. *)
Definition new_agent (e : Entity) : Agent :=
  mkAgent e (flit 5 10) (float_of_int 2) (-1) true.

(** The agent map [deserialize] rebuilds from the items of [l]: the keys,
    radii and heights of [l], the handle -1, and for the [i]-th agent the
    [entity] and [is_finished] of the [i]-th allocated object. *)
Fixpoint restored (fresh : Z -> Agent) (i : Z) (l : list (Entity * Agent))
  : list (Entity * Agent) :=
  match l with
  | [] => []
  | (k, a) :: rest =>
      (k, mkAgent (entity (fresh i)) (radius a) (height a) (-1)
            (is_finished (fresh i)))
      :: restored fresh (i + 1) rest
  end.

(** What an agent record holds besides its arrived flag. *)
Definition unflagged (ka : Entity * Agent) : Entity * Agent :=
  (fst ka, with_is_finished (snd ka) true).

(** What [save] writes for one tile blob, and what [load] reads for it. *)
Definition blob_chunks (d : blob) : list Chunk :=
  [ChInt (Z.of_nat (List.length d)); ChData d].

(** The header of the blob [d] names the tile coordinate [c]. *)
Definition names_tile (d : blob) (c : Z * Z) : Prop :=
  exists h, dtTileHeader d = Some h /\ (hdr_x h, hdr_y h) = c.

(** ** Vocabulary for runs of simulation steps *)

(** A "path finished" notification, whichever entity it names. *)
Definition is_path_finished (x : Effect) : bool :=
  match x with
  | PathFinished _ _ => true
  | _ => false
  end.

(** The notifications among the effects, in order. *)
Definition path_finished (effects : list Effect) : list Effect :=
  filter is_path_finished effects.

(** The corner count the agent loop of a step reads for agent [a]: the
    count after the crowd was advanced by [time_delta]. *)
Definition seen_corners (s : NavigationSceneImpl) (time_delta : float) (a : Agent)
  : option Z :=
  match m_crowd s with
  | Some c => corners (dtCrowd_update c time_delta) a
  | None => None
  end.

(** What a step emits for one entry of the agent map. *)
Definition step_effects (s : NavigationSceneImpl) (time_delta : float)
    (ka : Entity * Agent) : list Effect :=
  match m_crowd s with
  | Some c => agent_effects (m_script_scene s) (dtCrowd_update c time_delta) ka
  | None => []
  end.

(** The move targets a step resets: the crowd handles of the agents that
    arrive in it. *)
Definition step_resets (s : NavigationSceneImpl) (time_delta : float) : list Z :=
  match m_crowd s with
  | Some c => arrivals (dtCrowd_update c time_delta) (m_agents s)
  | None => []
  end.

(** The scripts of entity [e] that define [onPathFinished], by index. *)
Definition listeners (script_scene : option LuaScriptScene) (e : Entity) : list Z :=
  match script_scene with
  | Some ls =>
      match ls_getComponent ls e with
      | Some cmp =>
          filter (fun i => ls_hasFunction ls cmp i "onPathFinished")
            (zseq 0 (Z.to_nat (ls_getScriptCount ls cmp)))
      | None => []
      end
  | None => []
  end.

(** The crowd library keeps what [addAgent] is given: the agent behind the
    handle it returns, unless that is -1, has the position and the
    parameters that were passed. *)
Definition add_stores : Prop :=
  forall (c c' : dtCrowd) (pos : Vec3) (params : dtCrowdAgentParams) (idx : Z),
    dtCrowd_addAgent c pos params = (c', idx) ->
    0 <= idx ->
    exists d,
      dtCrowd_getAgent c' idx = Some d /\ ca_npos d = pos /\ ca_params d = params.

(** ** Geometry sampling as the specification words it

    The triangles the sampler takes from the geometry provider for a box,
    as lists over the provider's data instead of the loops of the source. *)

(** The mesh instances [rasterizeMeshes] looks at: the renderables in front
    of the first one without a model, where the function returns. *)
Fixpoint candidates (l : list Renderable) : list (Model * Entity) :=
  match l with
  | [] => []
  | r :: rest =>
      match rend_model r with
      | Some model => (model, rend_entity r) :: candidates rest
      | None => []
      end
  end.

(** The instance, taken to world space, overlaps the box. *)
Definition instance_overlaps (u : Universe) (aabb : AABB) (me : Model * Entity)
  : bool :=
  aabb_overlaps (aabb_transform (model_aabb (fst me)) (getMatrix u (snd me))) aabb.

(** The index buffer of a model, read with the width its flag names. *)
Definition model_indices (model : Model) : list Z :=
  if model_is16 model then model_indices16 model else model_indices32 model.

(** A sub-mesh takes part unless its material is flagged [no_navigation]. *)
Definition navigable (mesh : Mesh) : bool :=
  negb (isCustomFlag (mesh_material mesh) no_navigation_flag).

(** The material of the sub-mesh is not flagged [nonwalkable]. *)
Definition walkable_material (mesh : Mesh) : bool :=
  negb (isCustomFlag (mesh_material mesh) nonwalkable_flag).

(** The number of triangles of a sub-mesh: one for every three indices
    begun. *)
Definition triangle_count (mesh : Mesh) : nat :=
  Z.to_nat ((mesh_indices_count mesh + 2) / 3).

(** The triangles of one sub-mesh of an instance, in index order. *)
Definition sub_mesh_triangles (mtx : Matrix) (model : Model) (mesh : Mesh)
  : list Sample :=
  map (fun t =>
         mesh_triangle mtx model (model_indices model) mesh (walkable_material mesh)
           (3 * t))
    (zseq 0 (triangle_count mesh)).

(** Every triangle of every navigable sub-mesh of level of detail 0 of
    every candidate instance that overlaps the box. *)
Definition sampled_mesh_triangles (u : Universe) (aabb : AABB) (l : list Renderable)
  : list Sample :=
  flat_map
    (fun me =>
       flat_map (sub_mesh_triangles (getMatrix u (snd me)) (fst me))
         (filter navigable (lod_meshes (fst me))))
    (filter (instance_overlaps u aabb) (candidates l)).

(** The grid window of a terrain for a box, [(from_x, to_x, from_z, to_z)]:
    the footprint of the box in terrain space in cells, widened by one cell
    and clamped to the resolution of the terrain. *)
Definition terrain_window (u : Universe) (aabb : AABB) (t : Terrain)
  : Z * Z * Z * Z :=
  let ts :=
    getTerrainSpaceAABB (getPosition u (terrain_entity t))
      (getRotation u (terrain_entity t)) aabb in
  let cell (v : float) (d : float -> float -> float) (res : float) : Z :=
    int_of_float
      (math_clamp (d (fdiv v (terrain_scaleXZ t)) (float_of_int 1)) (float_of_int 0)
         (fsub res (float_of_int 1))) in
  (cell (vx (aabb_min ts)) fsub (v2x (terrain_resolution t)),
   cell (vx (aabb_max ts)) fadd (v2x (terrain_resolution t)),
   cell (vz (aabb_min ts)) fsub (v2y (terrain_resolution t)),
   cell (vz (aabb_max ts)) fadd (v2y (terrain_resolution t))).

(** The two triangles of every cell of the window, row by row. *)
Definition terrain_triangles (u : Universe) (aabb : AABB) (t : Terrain)
  : list Sample :=
  let '(from_x, to_x, from_z, to_z) := terrain_window u aabb t in
  flat_map
    (fun j =>
       flat_map
         (fun i =>
            terrain_cell t (getPosition u (terrain_entity t))
              (getRotation u (terrain_entity t)) i j)
         (zseq from_x (Z.to_nat (to_x - from_x))))
    (zseq from_z (Z.to_nat (to_z - from_z))).

Definition sampled_terrain_triangles (u : Universe) (aabb : AABB) (l : list Terrain)
  : list Sample :=
  flat_map (terrain_triangles u aabb) l.

End Scene.

(** ** Debug drawing

    The debug functions hand primitives to the renderer; the model lists
    them in the order of the calls ([addDebugTriangle], [addDebugLine]).
    The last argument of every call, the life time, is 0 and is left out. *)
Inductive DebugDraw : Type :=
| DebugTriangle (a b c : Vec3) (color : Z)
| DebugLine (a b : Vec3) (color : Z)
| DebugCube (mins maxs : Vec3) (color : Z)
| DebugCubeSolid (mins maxs : Vec3) (color : Z).

(** [rcContour]: [nverts] and the vertex array, four integers per vertex. *)
Record rcContour : Type := mkContour {
  ct_nverts : Z;
  ct_verts : list Z;
}.

(** [rcSpan]: the lower and the upper bound of a span; the [next] pointers
    make the spans of a cell a list. *)
Record rcSpan : Type := mkSpan {
  sp_smin : Z;
  sp_smax : Z;
}.

(** [rcCompactCell]: the index of the first span of the cell and the
    number of its spans. *)
Record rcCompactCell : Type := mkCompactCell {
  cc_index : Z;
  cc_count : Z;
}.

(** The fields of the Recast structures that only the debug functions
    read: the cell sizes stored in a polygon mesh; the cell sizes and the
    contours ([conts], with [nconts] their number) of a contour set; the
    size of a heightfield and the span list of each of its cells; the size,
    the cell sizes, the cells and the heights [spans[i].y] of a compact
    heightfield. *)
Class RecastData {R : Recast} : Type := {
  pm_cs : rcPolyMesh -> float;
  pm_ch : rcPolyMesh -> float;
  cset_cs : rcContourSet -> float;
  cset_ch : rcContourSet -> float;
  cset_conts : rcContourSet -> list rcContour;
  hf_width : rcHeightfield -> Z;
  hf_height : rcHeightfield -> Z;
  hf_spans : rcHeightfield -> list (list rcSpan);
  chf_width : rcCompactHeightfield -> Z;
  chf_height : rcCompactHeightfield -> Z;
  chf_cs : rcCompactHeightfield -> float;
  chf_ch : rcCompactHeightfield -> float;
  chf_cells : rcCompactHeightfield -> list rcCompactCell;
  chf_spans : rcCompactHeightfield -> list Z;
}.

Section DebugDraw.

Context {E : Engine} {R : Recast} {D : Detour} {RD : RecastData}.

(** *** [debugDrawContours] *)

Definition COLOR_CONTOUR_ODD : Z := 4294902015.  (* 0xffff00ff *)
Definition COLOR_CONTOUR_EVEN : Z := 4294901760. (* 0xffff0000 *)

(** [orig + Vec3((float)v[0] * cs, (float)v[1] * ch, (float)v[2] * cs)] for
    [v = &verts[base]]. *)
Definition contour_vertex (orig : Vec3) (cs ch : float) (verts : list Z) (base : Z)
  : Vec3 :=
  vadd orig
    (mkVec3 (fmul (float_of_int (index_at verts base)) cs)
            (fmul (float_of_int (index_at verts (base + 1))) ch)
            (fmul (float_of_int (index_at verts (base + 2))) cs)).

(** [for (int j = 1; j < c.nverts; ++j)]: the lines drawn and the last
    value of [prev]. *)
Fixpoint contour_lines (fuel : nat) (orig : Vec3) (cs ch : float) (c : rcContour)
    (color : Z) (j : Z) (prev : Vec3) : list DebugDraw * Vec3 :=
  match fuel with
  | O => ([], prev)
  | S fuel' =>
      if j <? ct_nverts c
      then
        let cur := contour_vertex orig cs ch (ct_verts c) (j * 4) in
        let '(rest, last) := contour_lines fuel' orig cs ch c color (j + 1) cur in
        (DebugLine prev cur color :: rest, last)
      else ([], prev)
  end.

(** The body of the contour loop for the contour with index [i]. *)
Definition draw_contour (orig : Vec3) (cs ch : float) (i : Z) (c : rcContour)
  : list DebugDraw :=
  if ct_nverts c <? 2 then []
  else
    let color :=
      if Z.land i 1 =? 0 then COLOR_CONTOUR_EVEN else COLOR_CONTOUR_ODD in
    let first := contour_vertex orig cs ch (ct_verts c) 0 in
    let '(lines, prev) :=
      contour_lines (Z.to_nat (ct_nverts c)) orig cs ch c color 1 first in
    lines ++ [DebugLine prev first color].

(** [for (int i = 0; i < nconts; ++i)] over [conts]. *)
Fixpoint draw_contours (orig : Vec3) (cs ch : float) (i : Z) (l : list rcContour)
  : list DebugDraw :=
  match l with
  | [] => []
  | c :: rest => draw_contour orig cs ch i c ++ draw_contours orig cs ch (i + 1) rest
  end.

Definition debugDrawContours (w : World) (s : NavigationSceneImpl) : list DebugDraw :=
  match w_render_scene w with
  | None => []
  | Some _ =>
      match m_debug_contours s with
      | None => []
      | Some cset =>
          draw_contours (m_debug_tile_origin s) (cset_cs cset) (cset_ch cset) 0
            (cset_conts cset)
      end
  end.

(** *** [debugDrawNavmesh] *)

Definition RC_MESH_NULL_IDX : Z := 65535.
Definition COLOR_POLY_FILL : Z := 4278233855.    (* 0xff00aaff *)
Definition COLOR_POLY_EDGE : Z := 4278190335.    (* 0xff0000ff *)

(** [for (int j = 0; j < nvp; ++j)]: the vertices of the polygon whose
    indices start at [p], up to the first null index. *)
Fixpoint poly_vertices (fuel : nat) (mesh : rcPolyMesh) (p j : Z) : list Vec3 :=
  match fuel with
  | O => []
  | S fuel' =>
      if j <? pm_nvp mesh
      then
        let pj := index_at (pm_polys mesh) (p + j) in
        if pj =? RC_MESH_NULL_IDX then []
        else
          let v k := index_at (pm_verts mesh) (pj * 3 + k) in
          mkVec3
            (fadd (fmul (float_of_int (v 0)) (pm_cs mesh)) (vx (pm_bmin mesh)))
            (fadd (fmul (float_of_int (v 1 + 1)) (pm_ch mesh)) (vy (pm_bmin mesh)))
            (fadd (fmul (float_of_int (v 2)) (pm_cs mesh)) (vz (pm_bmin mesh)))
          :: poly_vertices fuel' mesh p (j + 1)
      else []
  end.

(** [for (int i = 2; i < n; ++i)]: the triangle fan. *)
Fixpoint poly_fan (fuel : nat) (vertices : list Vec3) (i n : Z) : list DebugDraw :=
  match fuel with
  | O => []
  | S fuel' =>
      if i <? n
      then DebugTriangle (vertex_at vertices 0) (vertex_at vertices (i - 1))
             (vertex_at vertices i) COLOR_POLY_FILL
           :: poly_fan fuel' vertices (i + 1) n
      else []
  end.

(** [for (int i = 1; i < n; ++i)]: the edges between consecutive vertices. *)
Fixpoint poly_edges (fuel : nat) (vertices : list Vec3) (i n : Z) : list DebugDraw :=
  match fuel with
  | O => []
  | S fuel' =>
      if i <? n
      then DebugLine (vertex_at vertices i) (vertex_at vertices (i - 1))
             COLOR_POLY_EDGE
           :: poly_edges fuel' vertices (i + 1) n
      else []
  end.

(** The drawing of one polygon.  [vertices] is a local array of six
    elements: a seventh vertex is written behind it, and with no vertex at
    all the closing edge reads [vertices[-1]]; both are undefined
    ([None]). *)
Definition draw_poly (vertices : list Vec3) : option (list DebugDraw) :=
  let n := Z.of_nat (List.length vertices) in
  if (n =? 0) || (6 <? n) then None
  else
    Some (poly_fan (Z.to_nat n) vertices 2 n
          ++ poly_edges (Z.to_nat n) vertices 1 n
          ++ [DebugLine (vertex_at vertices 0) (vertex_at vertices (n - 1))
                COLOR_POLY_EDGE]).

(** [for (int idx = 0; idx < mesh.npolys; ++idx)]. *)
Fixpoint draw_polys (fuel : nat) (mesh : rcPolyMesh) (idx : Z)
  : option (list DebugDraw) :=
  match fuel with
  | O => Some []
  | S fuel' =>
      if idx <? pm_npolys mesh
      then
        let p := idx * pm_nvp mesh * 2 in
        match draw_poly (poly_vertices (Z.to_nat (pm_nvp mesh)) mesh p 0) with
        | None => None
        | Some prims =>
            match draw_polys fuel' mesh (idx + 1) with
            | None => None
            | Some rest => Some (prims ++ rest)
            end
        end
      else Some []
  end.

Definition debugDrawNavmesh (w : World) (s : NavigationSceneImpl)
  : option (list DebugDraw) :=
  match m_polymesh s with
  | None => Some []
  | Some mesh =>
      match w_render_scene w with
      | None => Some []
      | Some _ => draw_polys (Z.to_nat (pm_npolys mesh)) mesh 0
      end
  end.

(** *** [debugDrawHeightfield] *)

Definition COLOR_SPAN_SOLID : Z := 4294902015. (* 0xffff00ff *)
Definition COLOR_SPAN_WIRE : Z := 4278233855.  (* 0xff00aaff *)

(** The two cubes of one span; the cell height is the literal [0.1f] and
    the cell size the constant [CELL_SIZE], whatever the configuration. *)
Definition span_cubes (orig : Vec3) (fx fz : float) (span : rcSpan) : list DebugDraw :=
  let cell_height := flit 1 10 in
  let mins :=
    mkVec3 fx (fadd (vy orig) (fmul (float_of_int (sp_smin span)) cell_height)) fz in
  let maxs :=
    mkVec3 (fadd fx CELL_SIZE)
      (fadd (vy orig) (fmul (float_of_int (sp_smax span)) cell_height))
      (fadd fz CELL_SIZE) in
  [DebugCubeSolid mins maxs COLOR_SPAN_SOLID; DebugCube mins maxs COLOR_SPAN_WIRE].

(** The body of the two cell loops: [while (span)] over the spans of cell
    [(x, z)]. *)
Definition heightfield_cell (hf : rcHeightfield) (orig : Vec3) (x z : Z)
  : list DebugDraw :=
  let fx := fadd (vx orig) (fmul (float_of_int x) CELL_SIZE) in
  let fz := fadd (vz orig) (fmul (float_of_int z) CELL_SIZE) in
  flat_map (span_cubes orig fx fz)
    (nth (Z.to_nat (x + z * hf_width hf)) (hf_spans hf) []).

(** [for (int x = 0; x < width; ++x)]. *)
Fixpoint heightfield_row (fuel : nat) (hf : rcHeightfield) (orig : Vec3) (z x : Z)
  : list DebugDraw :=
  match fuel with
  | O => []
  | S fuel' =>
      if x <? hf_width hf
      then heightfield_cell hf orig x z ++ heightfield_row fuel' hf orig z (x + 1)
      else []
  end.

(** [for (int z = 0; z < m_debug_heightfield->height; ++z)]. *)
Fixpoint heightfield_rows (fuel : nat) (hf : rcHeightfield) (orig : Vec3) (z : Z)
  : list DebugDraw :=
  match fuel with
  | O => []
  | S fuel' =>
      if z <? hf_height hf
      then heightfield_row (Z.to_nat (hf_width hf)) hf orig z 0
           ++ heightfield_rows fuel' hf orig (z + 1)
      else []
  end.

Definition debugDrawHeightfield (w : World) (s : NavigationSceneImpl)
  : list DebugDraw :=
  match w_render_scene w with
  | None => []
  | Some _ =>
      match m_debug_heightfield s with
      | None => []
      | Some hf =>
          heightfield_rows (Z.to_nat (hf_height hf)) hf (m_debug_tile_origin s) 0
      end
  end.

(** *** [debugDrawCompactHeightfield] *)

Definition MAX_CUBES : Z := 65535.
Definition COLOR_COMPACT : Z := 4294902015.    (* 0xffff00FF *)

(** The two triangles of the span with height [y] in the cell at
    [(px, pz)]. *)
Definition compact_span_triangles (orig : Vec3) (px pz cs ch : float) (y : Z)
  : list DebugDraw :=
  let py := fadd (vy orig) (fmul (float_of_int y) ch) in
  [ DebugTriangle (mkVec3 px py pz) (mkVec3 (fadd px cs) py (fadd pz cs))
      (mkVec3 (fadd px cs) py pz) COLOR_COMPACT;
    DebugTriangle (mkVec3 px py pz) (mkVec3 px py (fadd pz cs))
      (mkVec3 (fadd px cs) py (fadd pz cs)) COLOR_COMPACT ].

(** [for (uint32 i = c.index, ni = c.index + c.count; i < ni; ++i)]: the
    triangles drawn, the counter [rendered_cubes] and whether the function
    returned from inside the loop. *)
Fixpoint compact_cell (fuel : nat) (chf : rcCompactHeightfield) (orig : Vec3)
    (px pz : float) (i ni rendered_cubes : Z) : list DebugDraw * Z * bool :=
  match fuel with
  | O => ([], rendered_cubes, false)
  | S fuel' =>
      if i <? ni
      then
        let tris :=
          compact_span_triangles orig px pz (chf_cs chf) (chf_ch chf)
            (index_at (chf_spans chf) i) in
        let rendered_cubes := rendered_cubes + 1 in
        if MAX_CUBES <? rendered_cubes then (tris, rendered_cubes, true)
        else
          let '(rest, r, stop) :=
            compact_cell fuel' chf orig px pz (i + 1) ni rendered_cubes in
          (tris ++ rest, r, stop)
      else ([], rendered_cubes, false)
  end.

Definition compact_cell_at (chf : rcCompactHeightfield) (x y : Z) : rcCompactCell :=
  nth (Z.to_nat (x + y * chf_width chf)) (chf_cells chf) (mkCompactCell 0 0).

(** [for (int x = 0; x < chf.width; ++x)]. *)
Fixpoint compact_row (fuel : nat) (chf : rcCompactHeightfield) (orig : Vec3)
    (y x rendered_cubes : Z) : list DebugDraw * Z * bool :=
  match fuel with
  | O => ([], rendered_cubes, false)
  | S fuel' =>
      if x <? chf_width chf
      then
        let px := fadd (vx orig) (fmul (float_of_int x) (chf_cs chf)) in
        let pz := fadd (vz orig) (fmul (float_of_int y) (chf_cs chf)) in
        let c := compact_cell_at chf x y in
        let '(prims, r, stop) :=
          compact_cell (Z.to_nat (cc_count c)) chf orig px pz (cc_index c)
            (cc_index c + cc_count c) rendered_cubes in
        if stop then (prims, r, true)
        else
          let '(rest, r', stop') := compact_row fuel' chf orig y (x + 1) r in
          (prims ++ rest, r', stop')
      else ([], rendered_cubes, false)
  end.

(** [for (int y = 0; y < chf.height; ++y)]. *)
Fixpoint compact_rows (fuel : nat) (chf : rcCompactHeightfield) (orig : Vec3)
    (y rendered_cubes : Z) : list DebugDraw * Z * bool :=
  match fuel with
  | O => ([], rendered_cubes, false)
  | S fuel' =>
      if y <? chf_height chf
      then
        let '(prims, r, stop) :=
          compact_row (Z.to_nat (chf_width chf)) chf orig y 0 rendered_cubes in
        if stop then (prims, r, true)
        else
          let '(rest, r', stop') := compact_rows fuel' chf orig (y + 1) r in
          (prims ++ rest, r', stop')
      else ([], rendered_cubes, false)
  end.

Definition debugDrawCompactHeightfield (w : World) (s : NavigationSceneImpl)
  : list DebugDraw :=
  match w_render_scene w with
  | None => []
  | Some _ =>
      match m_debug_compact_heightfield s with
      | None => []
      | Some chf =>
          fst (fst (compact_rows (Z.to_nat (chf_height chf)) chf
                      (m_debug_tile_origin s) 0 0))
      end
  end.

(** *** Vocabulary for the drawings *)

(** The cubes of all spans of a heightfield, cell by cell in row-major
    order. *)
Definition heightfield_cubes (hf : rcHeightfield) (orig : Vec3) : list DebugDraw :=
  flat_map (fun c => heightfield_cell hf orig (fst c) (snd c))
    (row_major (hf_width hf) (hf_height hf)).

(** The triangle pairs of the spans of one cell of a compact heightfield,
    and of all cells in row-major order. *)
Definition compact_cell_spans (chf : rcCompactHeightfield) (orig : Vec3) (c : Z * Z)
  : list (list DebugDraw) :=
  let px := fadd (vx orig) (fmul (float_of_int (fst c)) (chf_cs chf)) in
  let pz := fadd (vz orig) (fmul (float_of_int (snd c)) (chf_cs chf)) in
  map (fun i =>
         compact_span_triangles orig px pz (chf_cs chf) (chf_ch chf)
           (index_at (chf_spans chf) i))
    (zseq (cc_index (compact_cell_at chf (fst c) (snd c)))
       (Z.to_nat (cc_count (compact_cell_at chf (fst c) (snd c))))).

Definition compact_spans (chf : rcCompactHeightfield) (orig : Vec3)
  : list (list DebugDraw) :=
  flat_map (compact_cell_spans chf orig) (row_major (chf_width chf) (chf_height chf)).

(** Drawing span after span while counting: after the span that makes the
    counter exceed [MAX_CUBES] nothing more is drawn. *)
Fixpoint emit (spans : list (list DebugDraw)) (rendered_cubes : Z)
  : list DebugDraw * Z * bool :=
  match spans with
  | [] => ([], rendered_cubes, false)
  | tris :: rest =>
      if MAX_CUBES <? rendered_cubes + 1 then (tris, rendered_cubes + 1, true)
      else
        let '(out, r, stop) := emit rest (rendered_cubes + 1) in
        (tris ++ out, r, stop)
  end.

Definition is_triangle (x : DebugDraw) : bool :=
  match x with DebugTriangle _ _ _ _ => true | _ => false end.
Definition is_line (x : DebugDraw) : bool :=
  match x with DebugLine _ _ _ => true | _ => false end.

(** The lines [l] form a closed chain from [start]: every line begins where
    the one before ended, the first begins at [start] and the last ends
    there. *)
Fixpoint chain (start from : Vec3) (l : list DebugDraw) : Prop :=
  match l with
  | [] => from = start
  | DebugLine a b _ :: rest => a = from /\ chain start b rest
  | _ :: _ => False
  end.

(** The number of vertices of polygon [idx]. *)
Definition poly_size (mesh : rcPolyMesh) (idx : Z) : Z :=
  Z.of_nat (List.length (poly_vertices (Z.to_nat (pm_nvp mesh)) mesh
                           (idx * pm_nvp mesh * 2) 0)).

End DebugDraw.

(** ** A reference implementation of the interfaces

    Small and executable.  It follows the behaviour of the real libraries
    where the scene depends on it: [dtCreateNavMeshData] refuses a mesh
    without vertices or polygons, [dtNavMesh::init] refuses parameters whose
    tile and polygon bits leave fewer than 10 salt bits, [addTile] refuses a
    blob without a header, an occupied location or a full store,
    [requestMoveTarget] refuses a null polygon reference.  [getAgent]
    returns null for a slot that holds no agent. *)
Module RefLib.

Definition feq (a b : float) : bool := SFeqb a b.
Definition fle (a b : float) : bool := SFleb a b.
Definition fmin (a b : float) : float := if flt b a then b else a.
Definition fmax (a b : float) : float := if flt a b then b else a.

Definition vmin (a b : Vec3) : Vec3 :=
  mkVec3 (fmin (vx a) (vx b)) (fmin (vy a) (vy b)) (fmin (vz a) (vz b)).
Definition vmax (a b : Vec3) : Vec3 :=
  mkVec3 (fmax (vx a) (vx b)) (fmax (vy a) (vy b)) (fmax (vz a) (vz b)).
Definition veq (a b : Vec3) : bool :=
  feq (vx a) (vx b) && feq (vy a) (vy b) && feq (vz a) (vz b).

(** Matrices are translations and quaternions are yaw angles. *)
#[export] Instance engine : Engine := {|
  Matrix := Vec3;
  Quat := float;
  quat_toMatrix := fun _ => mkVec3 fzero fzero fzero;
  mtx_setTranslation := fun _ t => t;
  mtx_fastInverse := fun m => vscale m (float_of_int (-1));
  mtx_multiplyPosition := fun m v => vadd v m;
  quat_rotate := fun _ v => v;
  quat_axis_angle := fun _ a => a;
  aabb_transform := fun a m => mkAABB (vadd (aabb_min a) m) (vadd (aabb_max a) m);
  aabb_merge := fun a b =>
    mkAABB (vmin (aabb_min a) (aabb_min b)) (vmax (aabb_max a) (aabb_max b));
  aabb_overlaps := fun a b =>
    fle (vx (aabb_min a)) (vx (aabb_max b)) && fle (vx (aabb_min b)) (vx (aabb_max a))
    && fle (vy (aabb_min a)) (vy (aabb_max b)) && fle (vy (aabb_min b)) (vy (aabb_max a))
    && fle (vz (aabb_min a)) (vz (aabb_max b)) && fle (vz (aabb_min b)) (vz (aabb_max a));
  cosf := fun x =>
    if feq x (float_of_int 45) then flit 7071 10000
    else if feq x (float_of_int 60) then flit 1 2
    else float_of_int 1;
  atan2f := fun x _ => x;
  degreesToRadians := float_of_int;
  math_clamp := fun v lo hi => if flt v lo then lo else if flt hi v then hi else v;
  math_log2 := Z.log2;
  math_nextPow2 := fun n => if n <=? 1 then 1 else 2 ^ Z.log2_up n;
  getCustomFlag := fun name =>
    if String.eqb name "no_navigation" then 1
    else if String.eqb name "nonwalkable" then 2 else 0;
|}.

(** A heightfield is the list of the area tags rasterized into it; the
    later stages keep the walkable ones, one polygon per walkable triangle. *)
Definition empty_polymesh : rcPolyMesh :=
  mkPolyMesh [] [] [] [] 0 0 0 (mkVec3 fzero fzero fzero) (mkVec3 fzero fzero fzero).

#[export] Instance recast : Recast := {|
  rcHeightfield := list Z;
  rcCompactHeightfield := list Z;
  rcContourSet := list Z;
  rcAllocHeightfield := Some [];
  rcCreateHeightfield := fun _ w h _ _ _ _ => ([], (0 <? w) && (0 <? h));
  rcRasterizeTriangle := fun _ _ _ area hf => hf ++ [area];
  rcFilterLowHangingWalkableObstacles := fun _ hf => hf;
  rcFilterLedgeSpans := fun _ _ hf => hf;
  rcFilterWalkableLowHeightSpans := fun _ hf => hf;
  rcAllocCompactHeightfield := Some [];
  rcBuildCompactHeightfield := fun _ _ hf _ =>
    (filter (fun a => negb (a =? 0)) hf, true);
  rcErodeWalkableArea := fun _ chf => (chf, true);
  rcBuildDistanceField := fun chf => (chf, true);
  rcBuildRegions := fun chf _ _ _ => (chf, true);
  rcAllocContourSet := Some [];
  rcBuildContours := fun chf _ _ _ => (chf, true);
  rcAllocPolyMesh := Some empty_polymesh;
  rcBuildPolyMesh := fun cset nvp pm =>
    let n := Z.of_nat (List.length cset) in
    (mkPolyMesh [] [] cset (map (fun _ => 0) cset) (3 * n) n nvp
       (pm_bmin pm) (pm_bmax pm), true);
  rcAllocPolyMeshDetail := Some (mkPolyMeshDetail [] [] [] 0 0);
  rcBuildPolyMeshDetail := fun pm _ _ _ _ =>
    (mkPolyMeshDetail [] [] [] (pm_nverts pm) (pm_npolys pm), true);
  rcCalcGridSize := fun bmin bmax cs =>
    (int_of_float (fadd (fdiv (fsub (vx bmax) (vx bmin)) cs) (flit 1 2)),
     int_of_float (fadd (fdiv (fsub (vz bmax) (vz bmin)) cs) (flit 1 2)));
|}.

(** A tile blob is [x; y; polyCount; vertCount]. *)
Definition header (d : blob) : option dtMeshHeader :=
  match d with
  | [x; y; polys; verts] => Some (mkMeshHeader x y polys verts)
  | _ => None
  end.

Record navmesh : Type := mkNavmesh {
  nm_params : dtNavMeshParams;
  nm_tiles : list blob;
}.

Definition tile_at (x y : Z) (d : blob) : bool :=
  match header d with
  | Some h => (hdr_x h =? x) && (hdr_y h =? y)
  | None => false
  end.

Definition getTileAt (nm : navmesh) (x y : Z) : option blob :=
  find (tile_at x y) (nm_tiles nm).

Fixpoint tile_index (l : list blob) (x y : Z) (k : Z) : Z :=
  match l with
  | [] => 0
  | d :: rest => if tile_at x y d then k else tile_index rest x y (k + 1)
  end.

Fixpoint remove_nth {A : Type} (l : list A) (k : nat) : list A :=
  match l, k with
  | [], _ => []
  | _ :: rest, O => rest
  | x :: rest, S k' => x :: remove_nth rest k'
  end.

Definition tile_count (nm : navmesh) : Z := Z.of_nat (List.length (nm_tiles nm)).

Definition addTile (nm : navmesh) (d : blob) : navmesh * bool :=
  match header d with
  | None => (nm, false)
  | Some h =>
      match getTileAt nm (hdr_x h) (hdr_y h) with
      | Some _ => (nm, false)
      | None =>
          if nmp_maxTiles (nm_params nm) <=? Z.of_nat (List.length (nm_tiles nm))
          then (nm, false)
          else (mkNavmesh (nm_params nm) (nm_tiles nm ++ [d]), true)
      end
  end.

Definition init (nm : navmesh) (p : dtNavMeshParams) : navmesh * bool :=
  let tile_bits := Z.log2_up (nmp_maxTiles p) in
  let poly_bits := Z.log2_up (nmp_maxPolys p) in
  if 32 - tile_bits - poly_bits <? 10 then (nm, false)
  else (mkNavmesh p [], true).

Definition createNavMeshData (p : dtNavMeshCreateParams) : option blob :=
  if (6 <? cp_nvp p) || (65535 <=? cp_vertCount p)
     || (cp_vertCount p =? 0) || (cp_polyCount p =? 0)
  then None
  else Some [cp_tileX p; cp_tileY p; cp_polyCount p; cp_vertCount p].

Record crowd : Type := mkCrowd {
  cr_max : Z;
  cr_agents : list (Z * dtCrowdAgent);
}.

Fixpoint slot (l : list (Z * dtCrowdAgent)) (idx : Z) : option dtCrowdAgent :=
  match l with
  | [] => None
  | (k, a) :: rest => if k =? idx then Some a else slot rest idx
  end.

Fixpoint free_slot (fuel : nat) (l : list (Z * dtCrowdAgent)) (idx max : Z) : Z :=
  match fuel with
  | O => -1
  | S fuel' =>
      if max <=? idx then -1
      else match slot l idx with
           | None => idx
           | Some _ => free_slot fuel' l (idx + 1) max
           end
  end.

Definition on_slot (f : dtCrowdAgent -> dtCrowdAgent) (idx : Z) (c : crowd) : crowd :=
  mkCrowd (cr_max c)
    (map (fun ka => if fst ka =? idx then (fst ka, f (snd ka)) else ka) (cr_agents c)).

(** One simulation step: an agent with a target that is not yet there moves
    onto it and then has one corner left; once it is there it has none. *)
Definition step_agent (a : dtCrowdAgent) : dtCrowdAgent :=
  if ca_targetRef a =? 0 then
    mkCrowdAgent (ca_npos a) (mkVec3 fzero fzero fzero) (ca_ncorners a)
      (ca_params a) (ca_targetRef a) (ca_targetPos a)
  else if veq (ca_npos a) (ca_targetPos a) then
    mkCrowdAgent (ca_npos a) (mkVec3 fzero fzero fzero) 0 (ca_params a)
      (ca_targetRef a) (ca_targetPos a)
  else
    mkCrowdAgent (ca_targetPos a) (vsub (ca_targetPos a) (ca_npos a)) 1
      (ca_params a) (ca_targetRef a) (ca_targetPos a).

(** The implementation, for a given tile encoder. *)
Definition make_detour (encode : dtNavMeshCreateParams -> option blob) : Detour := {|
  dtNavMesh := navmesh;
  dtNavMeshQuery := Z;
  dtCrowd := crowd;
  dtAllocNavMesh :=
    Some (mkNavmesh (mkNavMeshParams (mkVec3 fzero fzero fzero) fzero fzero 0 0) []);
  dtNavMesh_init := init;
  dtNavMesh_addTile := addTile;
  dtNavMesh_removeTile := fun nm ref =>
    if ref =? 0 then nm
    else mkNavmesh (nm_params nm) (remove_nth (nm_tiles nm) (Z.to_nat (ref - 1)));
  dtNavMesh_getTileRefAt := fun nm x y => tile_index (nm_tiles nm) x y 1;
  dtNavMesh_getTileAt := getTileAt;
  dtNavMesh_getParams := nm_params;
  dtCreateNavMeshData := encode;
  dtTileHeader := header;
  dtAllocNavMeshQuery := Some 0;
  dtNavMeshQuery_init := fun _ _ maxNodes => (maxNodes, maxNodes <=? 65535);
  dtNavMeshQuery_findNearestPoly := fun _ center _ =>
    if flt (vx center) fzero || flt (vz center) fzero then 0 else 1;
  dtAllocCrowd := mkCrowd 0 [];
  dtCrowd_init := fun _ maxAgents _ nm =>
    match nm with
    | Some _ => (mkCrowd maxAgents [], true)
    | None => (mkCrowd 0 [], false)
    end;
  dtCrowd_addAgent := fun c pos params =>
    let idx := free_slot (S (List.length (cr_agents c))) (cr_agents c) 0 (cr_max c) in
    if idx <? 0 then (c, -1)
    else (mkCrowd (cr_max c)
            (cr_agents c ++ [(idx, mkCrowdAgent pos (mkVec3 fzero fzero fzero) 0
                                     params 0 pos)]),
          idx);
  dtCrowd_removeAgent := fun c idx =>
    mkCrowd (cr_max c) (filter (fun ka => negb (fst ka =? idx)) (cr_agents c));
  dtCrowd_getAgent := fun c idx => slot (cr_agents c) idx;
  dtCrowd_update := fun c _ =>
    mkCrowd (cr_max c) (map (fun ka => (fst ka, step_agent (snd ka))) (cr_agents c));
  dtCrowd_resetMoveTarget := fun c idx =>
    on_slot (fun a => mkCrowdAgent (ca_npos a) (ca_vel a) (ca_ncorners a)
                        (ca_params a) 0 (mkVec3 fzero fzero fzero)) idx c;
  dtCrowd_updateAgentParameters := fun c idx p =>
    on_slot (fun a => mkCrowdAgent (ca_npos a) (ca_vel a) (ca_ncorners a) p
                        (ca_targetRef a) (ca_targetPos a)) idx c;
  dtCrowd_requestMoveTarget := fun c idx ref pos =>
    if (idx <? 0) || (cr_max c <=? idx) || (ref =? 0) then (c, false)
    else (on_slot (fun a => mkCrowdAgent (ca_npos a) (ca_vel a) (ca_ncorners a)
                              (ca_params a) ref pos) idx c, true);
|}.

#[export] Instance detour : Detour := make_detour createNavMeshData.

(** The same library with an encoder that also accepts a mesh without
    polygons. *)
Definition lenient_detour : Detour :=
  make_detour
    (fun p => Some [cp_tileX p; cp_tileY p; cp_polyCount p; cp_vertCount p]).

(** Cells of 0.3 by 0.1; a contour set holds one triangular contour for
    each of its entries; a heightfield is a single cell with one span for
    each of its entries. *)
#[export] Instance recast_data : RecastData := {|
  pm_cs := fun _ => CELL_SIZE;
  pm_ch := fun _ => flit 1 10;
  cset_cs := fun _ => CELL_SIZE;
  cset_ch := fun _ => flit 1 10;
  cset_conts := fun cset =>
    map (fun _ => mkContour 3 [0; 0; 0; 0; 4; 0; 0; 0; 0; 0; 4; 0]) cset;
  hf_width := fun _ => 1;
  hf_height := fun _ => 1;
  hf_spans := fun hf => [map (fun _ => mkSpan 0 1) hf];
  chf_width := fun _ => 1;
  chf_height := fun _ => 1;
  chf_cs := fun _ => CELL_SIZE;
  chf_ch := fun _ => flit 1 10;
  chf_cells := fun chf => [mkCompactCell 0 (Z.of_nat (List.length chf))];
  chf_spans := fun chf => map (fun _ => 0) chf;
|}.

End RefLib.

(** ** Concrete scenes on the reference implementation *)
Module Demo.
Import RefLib.

Definition v3 (x y z : Z) : Vec3 :=
  mkVec3 (float_of_int x) (float_of_int y) (float_of_int z).

(** A flat triangle in the plane [y = 0], wound so that the normal computed
    by [rasterizeMeshes] points up. *)
Definition floor_model (flags : Z) : Model :=
  mkModel (mkAABB (v3 0 0 0) (v3 1 0 1)) true [0; 1; 2] [0; 1; 2]
    [v3 0 0 0; v3 0 0 1; v3 1 0 0] 12
    [mkMesh (mkMaterial flags) 0 3 0] 0 0.

(** Entity 1 is at the origin, entity 2 is 100 units along x; agents use
    the entities 10 and 11. *)
Definition universe : Universe :=
  mkUniverse
    (fun e => if e =? 2 then v3 100 0 0 else v3 0 0 0)
    (fun _ => fzero)
    (fun e => if e =? 2 then v3 100 0 0 else v3 0 0 0).

Definition no_scripts : LuaScriptScene :=
  mkScriptScene (fun _ => None) (fun _ => 0) (fun _ _ _ => false).

(** Entity 10 carries two scripts; only script 1 defines [onPathFinished]. *)
Definition scripts : LuaScriptScene :=
  mkScriptScene (fun e => if e =? 10 then Some 7 else None) (fun _ => 2)
    (fun _ i _ => i =? 1).

(** One walkable floor triangle in tile (0,0) and nothing else. *)
Definition world1 : World :=
  mkWorld universe (Some (mkRenderScene [mkRenderable (Some (floor_model 0)) 1] []))
    (Some scripts) (fun _ => true).

(** A walkable floor triangle in tile (0,0) and a triangle flagged
    [no_navigation] in tile (1,0): the grid is 2 x 1 and tile (1,0) has no
    walkable triangle. *)
Definition world2 : World :=
  mkWorld universe
    (Some (mkRenderScene [mkRenderable (Some (floor_model 0)) 1;
                          mkRenderable (Some (floor_model 1)) 2] []))
    (Some scripts) (fun _ => true).

(** The same floor flagged [nonwalkable], a vertical wall, a flat terrain
    and a terrain that rises ten units per unit of x. *)
Definition wall_model : Model :=
  mkModel (mkAABB (v3 0 0 0) (v3 1 1 0)) false [0; 1; 2] [0; 1; 2]
    [v3 0 0 0; v3 0 1 0; v3 1 0 0] 12
    [mkMesh (mkMaterial 0) 0 3 0] 0 0.

Definition flat_terrain : Terrain :=
  mkTerrain 1 (mkVec2 (float_of_int 3) (float_of_int 3)) (float_of_int 1)
    (fun _ _ => fzero) (mkAABB (v3 0 0 0) (v3 2 0 2)).

Definition steep_terrain : Terrain :=
  mkTerrain 1 (mkVec2 (float_of_int 3) (float_of_int 3)) (float_of_int 1)
    (fun x _ => fmul (float_of_int 10) x) (mkAABB (v3 0 0 0) (v3 2 20 2)).

Definition world_of (rs : RenderScene) : World :=
  mkWorld universe (Some rs) None (fun _ => true).

Definition sample_box : AABB := mkAABB (v3 (-1) (-1) (-1)) (v3 2 2 2).

(** [world2] after the set-up of [generateNavmesh], before the first tile. *)
Definition scene2 : NavigationSceneImpl :=
  fst (generateNavmesh_setup world2 new_scene).

(** The same with the lenient encoder. *)
Definition scene2_lenient : NavigationSceneImpl (D := lenient_detour) :=
  fst (generateNavmesh_setup (D := lenient_detour) world2
         (new_scene (D := lenient_detour))).

Definition side : float := fmul (float_of_int CELLS_PER_TILE_SIDE) CELL_SIZE.

(** A file whose stored parameters [dtNavMesh::init] refuses: 20 tile bits
    and 20 polygon bits leave no room for the salt. *)
Definition refused_params_file : list Chunk :=
  [ ChAABB (mkAABB (v3 0 0 0) (v3 1 0 1)); ChInt 1; ChInt 1;
    ChParams (mkNavMeshParams (v3 0 0 0) side side (2 ^ 20) (2 ^ 20));
    ChInt 4; ChData [0; 0; 1; 3] ].

(** A 2 x 1 file whose second blob names the location of the first. *)
Definition refused_tile_file : list Chunk :=
  [ ChAABB (mkAABB (v3 0 0 0) (v3 101 0 1)); ChInt 2; ChInt 1;
    ChParams (mkNavMeshParams (v3 0 0 0) side side 2 2097152);
    ChInt 4; ChData [0; 0; 1; 3]; ChInt 4; ChData [0; 0; 1; 3] ].

Definition files : FileSystem :=
  [ ("refused_params.nav"%string, refused_params_file);
    ("refused_tile.nav"%string, refused_tile_file) ].

Definition after_refused_params : NavigationSceneImpl :=
  scene_of (load world1 files new_scene "refused_params.nav") new_scene.

(** A built and started scene with one agent on entity 10, which stands at
    the origin. *)
Definition scene_built : NavigationSceneImpl := fst (generateNavmesh world1 new_scene).
Definition scene_started : NavigationSceneImpl := startGame world1 scene_built.
Definition scene_agent : NavigationSceneImpl := createComponent universe scene_started 10.

Definition crowd_of (s : NavigationSceneImpl) : crowd :=
  match m_crowd s with
  | Some c => c
  | None => mkCrowd 0 []
  end.

Definition agent10 : Agent := mkAgent 10 (flit 5 10) (float_of_int 2) 0 true.

(** The crowd agent of slot 0 right after it was added at the origin. *)
Definition fresh10 : dtCrowdAgent :=
  mkCrowdAgent (v3 0 0 0) (v3 0 0 0) 0 (crowd_agent_params agent10) 0 (v3 0 0 0).

(** Entity 10 moved five units along x, and a tenth of a unit along x. *)
Definition universe_far : Universe :=
  mkUniverse (fun e => if e =? 10 then v3 5 0 0 else getPosition universe e)
    (getRotation universe) (getMatrix universe).
Definition universe_near : Universe :=
  mkUniverse
    (fun e => if e =? 10 then mkVec3 (flit 1 10) fzero fzero
              else getPosition universe e)
    (getRotation universe) (getMatrix universe).

(** The agent of entity 10 is sent to a reachable point five units away,
    and the simulation is stepped three times. *)
Definition dest_far : Vec3 := v3 5 0 0.
Definition speed3 : float := float_of_int 3.
Definition tick : float := flit 1 60.

Definition nav_ok : option (NavigationSceneImpl * bool) :=
  navigate scene_agent 10 dest_far speed3.
Definition scene_nav : NavigationSceneImpl := scene_of nav_ok new_scene.

Definition run1 : option (NavigationSceneImpl * list Effect) :=
  update scene_nav tick false.
Definition scene_1 : NavigationSceneImpl := scene_of run1 new_scene.
Definition effects_1 : list Effect := value_of run1 [].

Definition run2 : option (NavigationSceneImpl * list Effect) :=
  update scene_1 tick false.
Definition scene_2 : NavigationSceneImpl := scene_of run2 new_scene.
Definition effects_2 : list Effect := value_of run2 [].

Definition run3 : option (NavigationSceneImpl * list Effect) :=
  update scene_2 tick true.
Definition scene_3 : NavigationSceneImpl := scene_of run3 new_scene.
Definition effects_3 : list Effect := value_of run3 [].

(** The same agent sent to a point where the query finds no polygon. *)
Definition dest_off : Vec3 := v3 (-5) 0 0.
Definition query_handle : dtNavMeshQuery := 2048.
Definition nav_off : option (NavigationSceneImpl * bool) :=
  navigate scene_agent 10 dest_off speed3.

(** The max speed, the target and the arrived flag of the agent of entity
    10, whose crowd handle is 0. *)
Definition max_speed_of (s : NavigationSceneImpl) : option float :=
  option_map (fun d => ap_maxSpeed (ca_params d)) (dtCrowd_getAgent (crowd_of s) 0).
Definition target_of (s : NavigationSceneImpl) : option dtPolyRef :=
  option_map ca_targetRef (dtCrowd_getAgent (crowd_of s) 0).
Definition arrived_flag_of (s : NavigationSceneImpl) : option bool :=
  option_map is_finished (find_agent (m_agents s) 10).

Definition navmesh_of (s : NavigationSceneImpl) : navmesh :=
  match m_navmesh s with
  | Some nm => nm
  | None => mkNavmesh (mkNavMeshParams (v3 0 0 0) fzero fzero 0 0) []
  end.

(** What an allocation holds before the members are assigned. *)
Definition stale : Z -> Agent := fun _ => mkAgent 99 fzero fzero 7 false.

(** The agent of [scene_agent] with the radius 1, serialized, followed by an
    unrelated value; the blob read back into the started scene. *)
Definition scene_wide : NavigationSceneImpl :=
  match setAgentRadius scene_agent 10 (float_of_int 1) with
  | Some s => s
  | None => new_scene
  end.
Definition agents_blob : list Item := serialize scene_wide [] ++ [IInt 5].
Definition reread : option (NavigationSceneImpl * list Item) :=
  deserialize stale scene_started agents_blob 1.
Definition scene_reread : NavigationSceneImpl := scene_of reread new_scene.

(** A scene whose crowd has no slot at all. *)
Definition scene_full : NavigationSceneImpl :=
  set_crowd new_scene (Some (mkCrowd 0 [])).

(** A 2 x 1 file with its two tiles in row-major order, followed by an
    unrelated value, and the scene loaded from it. *)
Definition level_tiles : list blob := [[0; 0; 1; 3]; [1; 0; 2; 6]].
Definition level_box : AABB := mkAABB (v3 0 0 0) (v3 101 0 1).
Definition level_params : dtNavMeshParams :=
  mkNavMeshParams (v3 0 0 0) side side 2 2097152.
Definition level_fs : FileSystem :=
  [ ("level.nav"%string,
     ChAABB level_box :: ChInt 2 :: ChInt 1 :: ChParams level_params
     :: flat_map blob_chunks level_tiles ++ [ChInt 7]) ].
Definition loaded : option (NavigationSceneImpl * bool) :=
  load world1 level_fs scene_agent "level.nav".
Definition scene_loaded : NavigationSceneImpl := scene_of loaded new_scene.

Definition reread_rest : list Item := value_of reread [].

(** Tile (0,0) of [world2] built with [keep_data]. *)
Definition scene2_kept : NavigationSceneImpl :=
  fst (generateTile world2 scene2 0 0 true).

(** A renderable without a model between two floors. *)
Definition no_model : Renderable := mkRenderable None 3.

(** [world2] after the set-up, with the tile under the origin rebuilt. *)
Definition scene2_at : NavigationSceneImpl :=
  fst (generateTileAt world2 scene2 (v3 0 5 0) false).

Definition polymesh_of (s : NavigationSceneImpl) : rcPolyMesh :=
  match m_polymesh s with
  | Some pm => pm
  | None => empty_polymesh
  end.

Definition floors : RenderScene :=
  mkRenderScene [mkRenderable (Some (floor_model 0)) 1;
                 mkRenderable (Some (floor_model 1)) 2] [].

(** A fourth step of the same run, and the run as a sequence: the scene
    before step [j], the effects of step [j] and its [paused] argument. *)
Definition run4 : option (NavigationSceneImpl * list Effect) :=
  update scene_3 tick false.
Definition scene_4 : NavigationSceneImpl := scene_of run4 new_scene.
Definition effects_4 : list Effect := value_of run4 [].

Definition scene_at (j : nat) : NavigationSceneImpl :=
  match j with
  | 0%nat => scene_nav
  | 1%nat => scene_1
  | 2%nat => scene_2
  | 3%nat => scene_3
  | _ => scene_4
  end.
Definition effects_at (j : nat) : list Effect :=
  match j with
  | 0%nat => effects_1
  | 1%nat => effects_2
  | 2%nat => effects_3
  | _ => effects_4
  end.
Definition paused_at (j : nat) : bool :=
  match j with
  | 2%nat => true
  | _ => false
  end.
Definition tick_at (j : nat) : float := tick.

(** The built scene with the agents of [agents_blob] read back before the
    game starts, and then started: the agent of entity 10 is live, and its
    member [entity] is what the allocation held, 99. *)
Definition restored_built : NavigationSceneImpl :=
  scene_of (deserialize stale scene_built agents_blob 1) new_scene.
Definition scene_restored : NavigationSceneImpl := startGame world1 restored_built.

(** Entity 10 moved five units along x while entity 99 stands seven units
    along z. *)
Definition universe_moved : Universe :=
  mkUniverse
    (fun e => if e =? 10 then v3 5 0 0
              else if e =? 99 then v3 0 0 7 else getPosition universe e)
    (getRotation universe) (getMatrix universe).

(** The simulated position of the crowd agent of the agent stored under
    entity [e]. *)
Definition simulated_position (s : NavigationSceneImpl) (e : Entity) : option Vec3 :=
  match find_agent (m_agents s) e with
  | Some a => option_map ca_npos (dtCrowd_getAgent (crowd_of s) (agent a))
  | None => None
  end.

(** A walkable floor, the same floor flagged [nonwalkable], a wall and a
    floor flagged [no_navigation], all on entity 1, and a flat terrain. *)
Definition mixed : RenderScene :=
  mkRenderScene
    [mkRenderable (Some (floor_model 0)) 1; mkRenderable (Some (floor_model 2)) 1;
     mkRenderable (Some wall_model) 1; mkRenderable (Some (floor_model 1)) 1]
    [flat_terrain].

(** The started scene with its agent, stopped again: a navmesh, no crowd,
    and the agent of entity 10 with the handle -1. *)
Definition scene_stopped : NavigationSceneImpl := stopGame scene_agent.

(** [world2] built with the lenient encoder: both tiles of the 2 x 1 grid
    are built, the first with one polygon and the last with none. *)
Definition scene2_built_lenient : NavigationSceneImpl (D := lenient_detour) :=
  fst (generateNavmesh (D := lenient_detour) world2
         (new_scene (D := lenient_detour))).

End Demo.

(** * Properties *)

Section Properties.

Context {E : Engine} {R : Recast} {D : Detour}.

(** ** What [generateTile] leaves alone *)

Ltac split_match :=
  match goal with
  | |- context [match ?x with _ => _ end] =>
      lazymatch x with
      | context [match _ with _ => _ end] => fail
      | negb ?b => destruct b eqn:?
      | _ =>
          lazymatch type of x with
          | option _ => destruct x eqn:?
          | bool => destruct x eqn:?
          | prod _ _ => destruct x as [? ?] eqn:?
          | list _ => destruct x eqn:?
          | Chunk => destruct x eqn:?
          end
      end
  end.

Ltac run_tile := unfold generateTile; repeat (split_match; simpl; auto).

Lemma generateTile_num_tiles_x (w : World) (s : NavigationSceneImpl) (x z : Z)
    (keep_data : bool) :
  m_num_tiles_x (fst (generateTile w s x z keep_data)) = m_num_tiles_x s.
Proof. destruct keep_data; run_tile. Qed.

Lemma generateTile_num_tiles_z (w : World) (s : NavigationSceneImpl) (x z : Z)
    (keep_data : bool) :
  m_num_tiles_z (fst (generateTile w s x z keep_data)) = m_num_tiles_z s.
Proof. destruct keep_data; run_tile. Qed.

Lemma generateTile_keeps_navmesh (w : World) (s : NavigationSceneImpl) (x z : Z)
    (keep_data : bool) :
  isNavmeshReady (fst (generateTile w s x z keep_data)) = isNavmeshReady s.
Proof.
  unfold isNavmeshReady, generateTile.
  destruct (m_navmesh s) eqn:Hnm; simpl; [ | rewrite Hnm; reflexivity ].
  destruct keep_data; repeat (split_match; simpl; auto).
Qed.

(** ** The tile loops of [generateNavmesh] *)

Lemma build_tiles_num_tiles (w : World) (l : list (Z * Z)) :
  forall s,
    m_num_tiles_x (fst (build_tiles w l s)) = m_num_tiles_x s /\
    m_num_tiles_z (fst (build_tiles w l s)) = m_num_tiles_z s.
Proof.
  induction l as [ | [i j] l IH ]; intro s; simpl; [ split; reflexivity | ].
  pose proof (generateTile_num_tiles_x w s i j false) as Hx.
  pose proof (generateTile_num_tiles_z w s i j false) as Hz.
  destruct (generateTile w s i j false) as [s' [ | ]]; simpl in *.
  - destruct (IH s') as [IHx IHz]. rewrite IHx, IHz. split; assumption.
  - split; assumption.
Qed.

Lemma build_tiles_keeps_navmesh (w : World) (l : list (Z * Z)) :
  forall s, isNavmeshReady (fst (build_tiles w l s)) = isNavmeshReady s.
Proof.
  induction l as [ | [i j] l IH ]; intro s; simpl; [ reflexivity | ].
  pose proof (generateTile_keeps_navmesh w s i j false) as Hn.
  destruct (generateTile w s i j false) as [s' [ | ]]; simpl in *.
  - rewrite IH. assumption.
  - assumption.
Qed.

Lemma build_tiles_app (w : World) (l1 l2 : list (Z * Z)) :
  forall s,
    build_tiles w (l1 ++ l2) s =
    let '(s', ok) := build_tiles w l1 s in
    if negb ok then (s', false) else build_tiles w l2 s'.
Proof.
  induction l1 as [ | [i j] l1 IH ]; intro s; simpl; [ reflexivity | ].
  destruct (generateTile w s i j false) as [s' [ | ]]; simpl.
  - apply IH.
  - reflexivity.
Qed.

(** A failed run stops at the first failing coordinate: the coordinates
    before it were built, the ones after it were not attempted. *)
Lemma build_tiles_abort (w : World) (l : list (Z * Z)) :
  forall s s',
    build_tiles w l s = (s', false) ->
    exists done c rest s_mid,
      l = done ++ c :: rest /\
      build_tiles w done s = (s_mid, true) /\
      generateTile w s_mid (fst c) (snd c) false = (s', false).
Proof.
  induction l as [ | [i j] l IH ]; intros s s' H; simpl in H; [ discriminate | ].
  destruct (generateTile w s i j false) as [s1 [ | ]] eqn:Ht; simpl in H.
  - destruct (IH _ _ H) as (done & c & rest & s_mid & Hl & Hd & Hc).
    exists ((i, j) :: done), c, rest, s_mid. simpl.
    rewrite Ht. simpl. subst l. auto.
  - injection H as <-. exists [], (i, j), l, s. simpl. auto.
Qed.

Lemma generate_row_build (w : World) (j : Z) :
  forall fuel s i,
    m_num_tiles_x s - i <= Z.of_nat fuel ->
    generate_row fuel w s i j =
    build_tiles w (map (fun i => (i, j)) (zseq i (Z.to_nat (m_num_tiles_x s - i)))) s.
Proof.
  induction fuel as [ | fuel IH ]; intros s i Hfuel.
  - replace (Z.to_nat (m_num_tiles_x s - i)) with O by lia. reflexivity.
  - cbn [generate_row]. destruct (i <? m_num_tiles_x s) eqn:Hi.
    + apply Z.ltb_lt in Hi.
      replace (Z.to_nat (m_num_tiles_x s - i))
        with (S (Z.to_nat (m_num_tiles_x s - (i + 1)))) by lia.
      cbn [zseq map build_tiles].
      pose proof (generateTile_num_tiles_x w s i j false) as Hx.
      destruct (generateTile w s i j false) as [s' [ | ]]; simpl in *;
        [ | reflexivity ].
      rewrite IH by lia. rewrite Hx. reflexivity.
    + apply Z.ltb_ge in Hi.
      replace (Z.to_nat (m_num_tiles_x s - i)) with O by lia. reflexivity.
Qed.

Lemma generate_rows_build (w : World) :
  forall fuel s j,
    m_num_tiles_z s - j <= Z.of_nat fuel ->
    generate_rows fuel w s j =
    build_tiles w
      (flat_map (fun j => map (fun i => (i, j)) (zseq 0 (Z.to_nat (m_num_tiles_x s))))
         (zseq j (Z.to_nat (m_num_tiles_z s - j)))) s.
Proof.
  induction fuel as [ | fuel IH ]; intros s j Hfuel.
  - replace (Z.to_nat (m_num_tiles_z s - j)) with O by lia. reflexivity.
  - cbn [generate_rows]. destruct (j <? m_num_tiles_z s) eqn:Hj.
    + apply Z.ltb_lt in Hj.
      replace (Z.to_nat (m_num_tiles_z s - j))
        with (S (Z.to_nat (m_num_tiles_z s - (j + 1)))) by lia.
      cbn [zseq flat_map]. rewrite build_tiles_app.
      rewrite generate_row_build by lia. rewrite Z.sub_0_r.
      destruct (build_tiles_num_tiles w
                  (map (fun i => (i, j)) (zseq 0 (Z.to_nat (m_num_tiles_x s)))) s)
        as [Hx Hz].
      destruct (build_tiles w _ s) as [s' [ | ]]; simpl in *; [ | reflexivity ].
      rewrite IH by lia. rewrite Hx, Hz. reflexivity.
    + apply Z.ltb_ge in Hj.
      replace (Z.to_nat (m_num_tiles_z s - j)) with O by lia. reflexivity.
Qed.

Lemma setup_ready (w : World) (s : NavigationSceneImpl) :
  snd (generateNavmesh_setup w s) = true ->
  isNavmeshReady (fst (generateNavmesh_setup w s)) = true.
Proof.
  unfold generateNavmesh_setup.
  destruct (initNavmesh (clear s)) as [s1 [ | ]]; simpl; [ | discriminate ].
  destruct (rcCalcGridSize _ _ _) as [gw gh]. simpl.
  destruct (m_navmesh _); simpl; [ | discriminate ].
  destruct (dtNavMesh_init _ _) as [nm ok]. simpl. reflexivity.
Qed.

Lemma ready_not_cleared (s : NavigationSceneImpl) :
  isNavmeshReady s = true -> is_cleared s = false.
Proof.
  unfold isNavmeshReady, is_cleared.
  destruct (m_polymesh s), (m_navmesh s); congruence.
Qed.

(** After a successful set-up [generateNavmesh] is the list traversal of
    the grid in row-major order. *)
Lemma generateNavmesh_loops (w : World) (s : NavigationSceneImpl) :
  snd (generateNavmesh_setup w s) = true ->
  generateNavmesh w s
  = build_tiles w
      (row_major (m_num_tiles_x (fst (generateNavmesh_setup w s)))
         (m_num_tiles_z (fst (generateNavmesh_setup w s))))
      (fst (generateNavmesh_setup w s)).
Proof.
  intros Hsetup. unfold generateNavmesh.
  destruct (generateNavmesh_setup w s) as [s1 ok]. simpl in *. subst ok. simpl.
  rewrite generate_rows_build by lia. rewrite Z.sub_0_r. reflexivity.
Qed.

(** C1, as amended: after a successful set-up, [generateNavmesh] builds the
    tile coordinates of the grid in row-major order (z outer, x inner) and
    stops at the first tile whose build fails, returning failure; the tiles
    after it are not attempted.  On such a failure the navmesh is not
    cleared: the scene is the one the failing [generateTile] call left, the
    navmesh object is still there and holds the tiles built before. *)
Theorem generateNavmesh_row_major_abort (w : World) (s : NavigationSceneImpl) :
  snd (generateNavmesh_setup w s) = true ->
  let s0 := fst (generateNavmesh_setup w s) in
  let order := row_major (m_num_tiles_x s0) (m_num_tiles_z s0) in
  generateNavmesh w s = build_tiles w order s0 /\
  (snd (generateNavmesh w s) = false ->
   isNavmeshReady (fst (generateNavmesh w s)) = true /\
   is_cleared (fst (generateNavmesh w s)) = false /\
   exists done c rest s_mid,
     order = done ++ c :: rest /\
     build_tiles w done s0 = (s_mid, true) /\
     generateTile w s_mid (fst c) (snd c) false = (fst (generateNavmesh w s), false)).
Proof.
  intros Hsetup s0 order.
  pose proof (generateNavmesh_loops w s Hsetup) as Hrun. fold s0 order in Hrun.
  split; [ exact Hrun | ].
  rewrite Hrun. intros Hfail.
  assert (Hready : isNavmeshReady (fst (build_tiles w order s0)) = true).
  { rewrite build_tiles_keeps_navmesh. apply setup_ready. exact Hsetup. }
  split; [ exact Hready | ].
  split; [ apply ready_not_cleared; exact Hready | ].
  apply build_tiles_abort.
  destruct (build_tiles w order s0) as [s' ok]. simpl in *. subst ok. reflexivity.
Qed.

(** ** [generateTile] against the tile pipeline *)

(** C5, as amended: [generateTile] has no separate path for a tile without
    walkable triangles.  For every tile coordinate it returns true exactly
    when the navmesh exists, every stage of the pipeline (heightfield,
    compaction, erosion, distance field, regions, contours, polygon mesh,
    detail mesh, encoding) reports success and [addTile] accepts the encoded
    tile; the tile inserted is then the encoding of the polygon mesh that was
    built, whose polygon count [getPolygonCount] reports.  When a stage
    refuses the empty input, [generateTile] returns failure. *)
Theorem generateTile_follows_pipeline (w : World) (s : NavigationSceneImpl)
    (x z : Z) (keep_data : bool) :
  snd (generateTile w s x z keep_data) = true <->
  exists nm pm dm data,
    m_navmesh s = Some nm /\
    tile_pipeline w s x z = Some (pm, dm, data) /\
    snd (dtNavMesh_addTile (evict nm x z) data) = true /\
    m_navmesh (fst (generateTile w s x z keep_data))
      = Some (fst (dtNavMesh_addTile (evict nm x z) data)) /\
    m_polymesh (fst (generateTile w s x z keep_data)) = Some pm /\
    getPolygonCount (fst (generateTile w s x z keep_data)) = pm_npolys pm.
Proof.
  unfold generateTile, tile_pipeline, evict, getPolygonCount, bind, stage.
  destruct (m_navmesh s) as [nm | ] eqn:Hnm; simpl;
    [ | split; [ discriminate | intros (? & ? & ? & ? & H & _); discriminate ] ].
  remember (dtNavMesh_removeTile nm (dtNavMesh_getTileRefAt nm x z)) as nm1
    eqn:Hnm1.
  change (tile_bmin (set_navmesh s (Some nm1)) x z) with (tile_bmin s x z).
  remember (tile_bmin s x z) as bmin eqn:Hbmin.
  change (tile_bmax (set_navmesh s (Some nm1)) bmin) with (tile_bmax s bmin).
  remember (tile_bmax s bmin) as bmax eqn:Hbmax.
  destruct keep_data; simpl; repeat (split_match; simpl);
    (split;
     [ intro H; try discriminate H;
       do 4 eexists; repeat split; try reflexivity; subst nm1;
       match goal with
       | Ha : dtNavMesh_addTile _ _ = _ |- _ => rewrite Ha; simpl; auto
       end
     | intros (nm0 & pm0 & dm0 & data0 & Hn & Hp & Ha & _);
       try discriminate Hp;
       injection Hn as <-; injection Hp as <- <- <-; subst nm1;
       match goal with
       | Hb : dtNavMesh_addTile _ _ = _ |- _ => rewrite Hb in Ha; exact Ha
       end ]).
Qed.

(** ** [load] *)

Lemma defined_result {B : Type} (r : option (NavigationSceneImpl * B))
    (d : NavigationSceneImpl) (v : B) :
  defined r = true -> r = Some (scene_of r d, value_of r v).
Proof. destruct r as [ [s b] | ]; simpl; [ reflexivity | discriminate ]. Qed.

(** A defined call returns its scene and its flag. *)
Lemma scene_of_result (r : option (NavigationSceneImpl * bool))
    (d : NavigationSceneImpl) (b : bool) :
  option_map snd r = Some b -> r = Some (scene_of r d, b).
Proof.
  destruct r as [ [s ok] | ]; simpl; intros H; [ | discriminate ].
  injection H as ->. reflexivity.
Qed.

Lemma clear_is_cleared (s : NavigationSceneImpl) : is_cleared (clear s) = true.
Proof. reflexivity. Qed.

(** C6, as amended: [load] first clears the scene, so the build products of
    the old navmesh are gone whatever the outcome.  When it returns failure,
    the scene is in the cleared state only if the file could not be opened or
    the navmesh object could not be allocated; on every other failure (the
    query could not be set up, the stored parameters are refused by
    [dtNavMesh::init], a tile is refused by [addTile], the crowd could not be
    initialised) the navmesh object allocated by [load] stays in place, with
    the tiles inserted before the failure, and [isNavmeshReady] holds.  A
    stream that ends early is outside this statement. *)
Theorem load_failure_state (w : World) (fs : FileSystem)
    (s : NavigationSceneImpl) (path : string) (s' : NavigationSceneImpl)
    (ok : bool) :
  load w fs s path = Some (s', ok) ->
  (m_polymesh s' = None /\ m_detail_mesh s' = None /\
   m_debug_heightfield s' = None /\ m_debug_compact_heightfield s' = None /\
   m_debug_contours s' = None) /\
  (ok = false ->
   ((fs_lookup fs path = None \/ dtAllocNavMesh = None) /\ s' = clear s) \/
   (isNavmeshReady s' = true /\ is_cleared s' = false)).
Proof.
  unfold load, initNavmesh, initCrowd.
  assert (Hleft : forall P : Prop,
            fs_lookup fs path = None \/ dtAllocNavMesh = None ->
            ((fs_lookup fs path = None \/ dtAllocNavMesh = None) /\
             clear s = clear s) \/ P) by (intros P Hc; left; auto).
  destruct (fs_lookup fs path) as [file | ] eqn:Hfile.
  2:{ intros H. injection H as <- <-. simpl. repeat split. auto. }
  destruct dtAllocNavMesh as [nm | ] eqn:Halloc; simpl.
  2:{ intros H. injection H as <- <-. simpl. repeat split. auto. }
  clear Hleft.
  destruct dtAllocNavMeshQuery as [q | ]; simpl.
  2:{ intros H. injection H as <- <-. simpl. repeat split. auto. }
  destruct (dtNavMeshQuery_init q nm 2048) as [q' [ | ]]; simpl.
  2:{ intros H. injection H as <- <-. simpl. repeat split. auto. }
  destruct file as [ | [ aabb | | | ] [ | [ | nx | | ] [ | [ | nz | | ]
                     [ | [ | | params | ] tiles ] ] ] ];
    simpl; try discriminate.
  destruct (dtNavMesh_init nm params) as [nm1 [ | ]]; simpl.
  2:{ intros H. injection H as <- <-. simpl. repeat split. auto. }
  destruct (load_rows (Z.to_nat nz) nm1 tiles nx nz 0)
    as [ [ [nm2 rest] [ | ] ] | ]; simpl; try discriminate.
  2:{ intros H. injection H as <- <-. simpl. repeat split. auto. }
  destruct (dtCrowd_init _ _ _ _) as [c [ | ]]; simpl.
  2:{ intros H. injection H as <- <-. simpl. repeat split. auto. }
  destruct (add_all_agents (w_universe w) c (m_agents s)) as [c' agents].
  intros H. injection H as <- <-. simpl. repeat split. discriminate.
Qed.

(** When [dtNavMesh::init] refuses the stored parameters, [load] returns
    failure and leaves the refused navmesh object and the query in the
    scene, together with the box and the grid size read from the file. *)
Lemma load_init_refused (w : World) (fs : FileSystem) (s : NavigationSceneImpl)
    (path : string) (aabb : AABB) (nx nz : Z) (params : dtNavMeshParams)
    (tiles : list Chunk) (nm nm' : dtNavMesh) (q q' : dtNavMeshQuery) :
  fs_lookup fs path
    = Some (ChAABB aabb :: ChInt nx :: ChInt nz :: ChParams params :: tiles) ->
  dtAllocNavMesh = Some nm ->
  dtAllocNavMeshQuery = Some q ->
  dtNavMeshQuery_init q nm 2048 = (q', true) ->
  dtNavMesh_init nm params = (nm', false) ->
  load w fs s path
    = Some (set_navmesh
              (set_num_tiles
                 (set_aabb (set_navquery (set_navmesh (clear s) (Some nm)) (Some q'))
                    aabb) nx nz)
              (Some nm'), false).
Proof.
  intros Hfile Hnm Hq Hqi Hinit. unfold load, initNavmesh.
  rewrite Hfile, Hnm, Hq, Hqi. simpl. rewrite Hinit. reflexivity.
Qed.

(** ** [update] and the [paused] argument *)

(** C10: [update] never reads [paused]: the outcome (the new scene, the
    transform writes and the notifications) is the same for both values.
    Without a crowd the call changes nothing, and with a crowd the step is
    taken, that is the crowd is advanced by [time_delta] and the agent loop
    runs, whatever [paused] is. *)
Theorem update_ignores_paused (s : NavigationSceneImpl) (time_delta : float)
    (paused1 paused2 : bool) :
  update s time_delta paused1 = update s time_delta paused2 /\
  (m_crowd s = None -> update s time_delta paused1 = Some (s, [])) /\
  (forall c,
     m_crowd s = Some c ->
     update s time_delta paused1
     = match update_agents (m_script_scene s) (dtCrowd_update c time_delta)
               (m_agents s) with
       | None => None
       | Some (c', agents, effects) =>
           Some (set_agents (set_crowd s (Some c')) agents, effects)
       end).
Proof.
  split; [ reflexivity | ].
  split.
  - intros Hc. unfold update. rewrite Hc. reflexivity.
  - intros c Hc. unfold update. rewrite Hc. reflexivity.
Qed.

(** ** [onEntityMoved] *)

Lemma find_store_agent (l : list (Entity * Agent)) (e : Entity) (a a' : Agent) :
  find_agent l e = Some a -> find_agent (store_agent l e a') e = Some a'.
Proof.
  induction l as [ | [k b] l IH ]; simpl; [ discriminate | ].
  destruct (k =? e) eqn:Hk; simpl; rewrite Hk; auto.
Qed.

Lemma fsub_diag (x : float) : fsub x x = S754_zero false \/ fsub x x = S754_nan.
Proof.
  destruct x as [ sg | sg | | sg m e ].
  - destruct sg; left; reflexivity.
  - destruct sg; right; reflexivity.
  - right. reflexivity.
  - left. unfold fsub, SFsub, shl_align. rewrite Z.min_id, Z.sub_diag.
    cbn [fst]. reflexivity.
Qed.

Lemma squared_distance_diag (p : Vec3) :
  fgt (squaredLength (vsub p p)) RESYNC_TOLERANCE = false.
Proof.
  unfold vsub, squaredLength. cbn [vx vy vz].
  destruct (fsub_diag (vx p)) as [ -> | -> ], (fsub_diag (vy p)) as [ -> | -> ],
    (fsub_diag (vz p)) as [ -> | -> ]; vm_compute; reflexivity.
Qed.

(** An entity that stands at the simulated position of its agent is never
    resynchronised: the handler leaves the scene as it is. *)
Lemma onEntityMoved_at_simulated_position (u : Universe)
    (s : NavigationSceneImpl) (e : Entity) (a : Agent) (c : dtCrowd)
    (dt_agent : dtCrowdAgent) :
  find_agent (m_agents s) e = Some a ->
  m_crowd s = Some c ->
  dtCrowd_getAgent c (agent a) = Some dt_agent ->
  getPosition u e = ca_npos dt_agent ->
  onEntityMoved u s e = Some s.
Proof.
  intros Hfind Hc Hget Hpos. unfold onEntityMoved.
  rewrite Hfind, Hc, Hget, Hpos, squared_distance_diag. reflexivity.
Qed.

(** ** Geometry sampling *)

Lemma mesh_area_walkable (a b c : Vec3) (is_walkable : bool) :
  (mesh_area a b c is_walkable = RC_WALKABLE_AREA <->
   fgt (vy (normalized (crossProduct (vsub a b) (vsub a c))))
       mesh_walkable_threshold = true /\ is_walkable = true) /\
  (mesh_area a b c is_walkable = RC_WALKABLE_AREA \/ mesh_area a b c is_walkable = 0).
Proof.
  unfold mesh_area, RC_WALKABLE_AREA.
  destruct (fgt _ mesh_walkable_threshold), is_walkable; simpl;
    (split; [ split; [ intros H; try discriminate H; auto
                     | intros [H1 H2]; try discriminate; reflexivity ]
            | auto ]).
Qed.

Lemma terrain_area_walkable (n : Vec3) :
  (terrain_area n = RC_WALKABLE_AREA <->
   fgt (vy n) terrain_walkable_threshold = true) /\
  (terrain_area n = RC_WALKABLE_AREA \/ terrain_area n = 0).
Proof.
  unfold terrain_area, RC_WALKABLE_AREA.
  destruct (fgt _ terrain_walkable_threshold);
    (split; [ split; [ intros H; try discriminate H; auto
                     | intros H; try discriminate; reflexivity ]
            | auto ]).
Qed.

Lemma terrain_cell_area (t : Terrain) (pos : Vec3) (rot : Quat) (i j : Z)
    (smp : Sample) :
  In smp (terrain_cell t pos rot i j) ->
  s_area smp = terrain_area (terrain_normal smp).
Proof.
  unfold terrain_cell. intros [ <- | [ <- | [] ] ]; reflexivity.
Qed.

Lemma rasterize_app (l1 l2 : list Sample) (solid : rcHeightfield) :
  rasterize (l1 ++ l2) solid = rasterize l2 (rasterize l1 solid).
Proof. unfold rasterize. apply fold_left_app. Qed.

(** ** The agent loop of [update] *)

Lemma with_is_finished_same (a : Agent) :
  with_is_finished a (is_finished a) = a.
Proof. destruct a; reflexivity. Qed.

Lemma update_agent_spec (sc : option LuaScriptScene) (c_cur c : dtCrowd)
    (k : Entity) (a : Agent) (c' : dtCrowd) (a' : Agent) (effs : list Effect) :
  motion (dtCrowd_getAgent c_cur (agent a)) = motion (dtCrowd_getAgent c (agent a)) ->
  update_agent sc c_cur a = Some (c', a', effs) ->
  c' = (if arriving c a then dtCrowd_resetMoveTarget c_cur (agent a) else c_cur) /\
  (k, a') = settle c (k, a) /\
  effs = agent_effects sc c (k, a).
Proof.
  unfold update_agent, arriving, settle, agent_effects, arriving, corners, motion.
  cbn [fst snd].
  destruct (dtCrowd_getAgent c_cur (agent a)) as [d1 | ] eqn:H1; [ | discriminate ].
  destruct (dtCrowd_getAgent c (agent a)) as [d2 | ] eqn:H2; cbn [option_map];
    [ | discriminate ].
  intros Hm. injection Hm as Hp Hv Hn.
  assert (Hw : transform_writes a d1 = transform_writes a d2)
    by (unfold transform_writes; rewrite Hp, Hv; reflexivity).
  rewrite Hw, Hn.
  destruct (ca_ncorners d2 =? 0); cbn [andb].
  - destruct (is_finished a) eqn:Hf; cbn [negb]; intros H; injection H as <- <- <-.
    + assert (Ha : with_is_finished a true = a)
        by (rewrite <- Hf; apply with_is_finished_same).
      rewrite Ha, app_nil_r. auto.
    + auto.
  - intros H; injection H as <- <- <-. rewrite app_nil_r. auto.
Qed.

Lemma arrivals_cons (c : dtCrowd) (ka : Entity * Agent) (l : list (Entity * Agent)) :
  arrivals c (ka :: l)
  = if arriving c (snd ka) then agent (snd ka) :: arrivals c l else arrivals c l.
Proof. unfold arrivals. simpl. destruct (arriving c (snd ka)); reflexivity. Qed.

Lemma update_agents_spec (sc : option LuaScriptScene) (c : dtCrowd) :
  reset_keeps_motion ->
  forall l c_cur c' l' effs,
    (forall j, motion (dtCrowd_getAgent c_cur j) = motion (dtCrowd_getAgent c j)) ->
    update_agents sc c_cur l = Some (c', l', effs) ->
    c' = fold_left dtCrowd_resetMoveTarget (arrivals c l) c_cur /\
    l' = map (settle c) l /\
    effs = flat_map (agent_effects sc c) l.
Proof.
  intros Hlaw. induction l as [ | [k a] l IH ]; intros c_cur c' l' effs Hinv H.
  - simpl in H. injection H as <- <- <-. auto.
  - cbn [update_agents] in H.
    destruct (update_agent sc c_cur a) as [ [ [c1 a1] e1 ] | ] eqn:Ha;
      [ | discriminate ].
    destruct (update_agents sc c1 l) as [ [ [c2 l2] e2 ] | ] eqn:Hl;
      [ | discriminate ].
    injection H as <- <- <-.
    destruct (update_agent_spec sc c_cur c k a c1 a1 e1 (Hinv (agent a)) Ha)
      as (Hc1 & Ha1 & He1).
    assert (Hinv1 : forall j,
               motion (dtCrowd_getAgent c1 j) = motion (dtCrowd_getAgent c j)).
    { intros j. subst c1. destruct (arriving c a); [ | apply Hinv ].
      rewrite Hlaw. apply Hinv. }
    destruct (IH c1 c2 l2 e2 Hinv1 Hl) as (Hc2 & Hl2 & He2).
    rewrite arrivals_cons. cbn [snd map flat_map].
    rewrite Ha1, <- He1, <- Hl2, <- He2. repeat split.
    subst c1. destruct (arriving c a); exact Hc2.
Qed.

(** Under the frame law, one step of [update]: the crowd is advanced, the
    move targets of the arriving agents are reset, every agent record is
    settled and the effects are those of the agents in iteration order. *)
Lemma update_spec (s s' : NavigationSceneImpl) (c0 : dtCrowd) (time_delta : float)
    (paused : bool) (effs : list Effect) :
  reset_keeps_motion ->
  m_crowd s = Some c0 ->
  update s time_delta paused = Some (s', effs) ->
  m_crowd s'
    = Some (fold_left dtCrowd_resetMoveTarget
              (arrivals (dtCrowd_update c0 time_delta) (m_agents s))
              (dtCrowd_update c0 time_delta)) /\
  m_agents s' = map (settle (dtCrowd_update c0 time_delta)) (m_agents s) /\
  effs = flat_map (agent_effects (m_script_scene s) (dtCrowd_update c0 time_delta))
           (m_agents s) /\
  m_script_scene s' = m_script_scene s.
Proof.
  intros Hlaw Hc H. unfold update in H. rewrite Hc in H.
  destruct (update_agents _ _ _) as [ [ [c' l'] e' ] | ] eqn:Hl; [ | discriminate ].
  injection H as <- <-.
  destruct (update_agents_spec _ _ Hlaw _ _ _ _ _ (fun j => eq_refl) Hl)
    as (-> & -> & ->).
  simpl. auto.
Qed.

Lemma find_agent_absent (l : list (Entity * Agent)) (e : Entity) :
  ~ In e (map fst l) -> find_agent l e = None.
Proof.
  induction l as [ | [k a] l IH ]; simpl; intros H; [ reflexivity | ].
  destruct (k =? e) eqn:Hk.
  - apply Z.eqb_eq in Hk. tauto.
  - apply IH. tauto.
Qed.

Lemma arrivals_in (c : dtCrowd) (l : list (Entity * Agent)) (e : Entity) (a : Agent) :
  In (e, a) l -> arriving c a = true -> In (agent a) (arrivals c l).
Proof.
  intros Hin Harr. unfold arrivals.
  apply (in_map (fun ka => agent (snd ka)) _ (e, a)).
  apply filter_In. auto.
Qed.

(** ** [navigate] *)

(** C3, as amended: [navigate] returns failure and leaves the scene, and
    with it the crowd, untouched when the navmesh query is missing, the
    simulator is not running, the entity is invalid or has no agent.
    Otherwise, for a live agent, it writes the requested speed into the
    agent's parameters, then issues the move-target request with the polygon
    reference the nearest-polygon query returned (null when no polygon was
    found) and returns whether the request was accepted: the max speed is
    updated before, and whether or not, the request succeeds.  With a crowd
    library that refuses a null polygon reference without touching the
    crowd, a call that finds no polygon returns failure and changes the
    agent's parameters only. *)
Theorem navigate_outcome (s : NavigationSceneImpl) (e : Entity) (dest : Vec3)
    (speed : float) :
  (m_navquery s = None \/ m_crowd s = None \/ e = INVALID_ENTITY \/
   find_agent (m_agents s) e = None ->
   navigate s e dest speed = Some (s, false)) /\
  (forall q c a dt_agent,
     m_navquery s = Some q -> m_crowd s = Some c -> e <> INVALID_ENTITY ->
     find_agent (m_agents s) e = Some a ->
     dtCrowd_getAgent c (agent a) = Some dt_agent ->
     navigate s e dest speed
     = Some (set_crowd s
               (Some (fst (dtCrowd_requestMoveTarget
                             (dtCrowd_updateAgentParameters c (agent a)
                                (with_maxSpeed (ca_params dt_agent) speed))
                             (agent a)
                             (dtNavMeshQuery_findNearestPoly q dest navigate_ext)
                             dest))),
             snd (dtCrowd_requestMoveTarget
                    (dtCrowd_updateAgentParameters c (agent a)
                       (with_maxSpeed (ca_params dt_agent) speed))
                    (agent a)
                    (dtNavMeshQuery_findNearestPoly q dest navigate_ext)
                    dest))) /\
  (forall q c a dt_agent,
     m_navquery s = Some q -> m_crowd s = Some c -> e <> INVALID_ENTITY ->
     find_agent (m_agents s) e = Some a ->
     dtCrowd_getAgent c (agent a) = Some dt_agent ->
     dtNavMeshQuery_findNearestPoly q dest navigate_ext = 0 ->
     (forall c' i pos, dtCrowd_requestMoveTarget c' i 0 pos = (c', false)) ->
     navigate s e dest speed
     = Some (set_crowd s
               (Some (dtCrowd_updateAgentParameters c (agent a)
                        (with_maxSpeed (ca_params dt_agent) speed))),
             false)).
Proof.
  unfold navigate. split; [ | split ].
  - intros H.
    destruct (m_navquery s); [ | reflexivity ].
    destruct (m_crowd s); [ | reflexivity ].
    destruct (e =? INVALID_ENTITY) eqn:He; [ reflexivity | ].
    destruct (find_agent (m_agents s) e); [ | reflexivity ].
    apply Z.eqb_neq in He.
    destruct H as [ H | [ H | [ H | H ] ] ]; congruence.
  - intros q c a dt_agent Hq Hc He Hfind Hget.
    apply Z.eqb_neq in He. rewrite Hq, Hc, He, Hfind, Hget.
    destruct (dtCrowd_requestMoveTarget _ _ _ _) as [c2 ok]. reflexivity.
  - intros q c a dt_agent Hq Hc He Hfind Hget Hnone Hrefuse.
    apply Z.eqb_neq in He. rewrite Hq, Hc, He, Hfind, Hget, Hnone, Hrefuse.
    reflexivity.
Qed.

Lemma navigate_keeps_agents (s s' : NavigationSceneImpl) (e : Entity)
    (dest : Vec3) (speed : float) (ok : bool) :
  navigate s e dest speed = Some (s', ok) -> m_agents s' = m_agents s.
Proof.
  unfold navigate. repeat (split_match; simpl);
    intros H; try discriminate H; injection H as <- <-; reflexivity.
Qed.

(** ** The grid *)

Lemma zseq_length (n : nat) : forall a, List.length (zseq a n) = n.
Proof. induction n as [ | n IH ]; intro a; simpl; [ reflexivity | rewrite IH; reflexivity ]. Qed.

Lemma in_zseq (n : nat) :
  forall a x, In x (zseq a n) <-> a <= x < a + Z.of_nat n.
Proof.
  induction n as [ | n IH ]; intros a x; cbn [zseq In].
  - split; [ contradiction | lia ].
  - rewrite IH. lia.
Qed.

Lemma NoDup_zseq (n : nat) : forall a, NoDup (zseq a n).
Proof.
  induction n as [ | n IH ]; intro a; cbn [zseq]; constructor.
  - rewrite in_zseq. lia.
  - apply IH.
Qed.

Lemma in_row_major (nx nz i j : Z) :
  In (i, j) (row_major nx nz) <-> 0 <= i < nx /\ 0 <= j < nz.
Proof.
  unfold row_major. rewrite in_flat_map. split.
  - intros (j' & Hj & Hin). apply in_map_iff in Hin.
    destruct Hin as (i' & Heq & Hi). injection Heq as -> ->.
    apply in_zseq in Hj. apply in_zseq in Hi. lia.
  - intros [Hi Hj]. exists j. split.
    + apply in_zseq. lia.
    + apply in_map_iff. exists i. split; [ reflexivity | apply in_zseq; lia ].
Qed.

Lemma NoDup_rows (xs : list Z) :
  NoDup xs ->
  forall js : list Z, NoDup js ->
    NoDup (flat_map (fun j => map (fun i => (i, j)) xs) js).
Proof.
  intros Hxs. induction js as [ | j js IH ]; intros Hjs; cbn [flat_map];
    [ constructor | ].
  inversion Hjs as [ | j' js' Hnotin Hjs' ]; subst.
  apply NoDup_app.
  - clear - Hxs. induction Hxs as [ | x xs Hx _ IHx ]; cbn [map]; constructor;
      [ | exact IHx ].
    intros Hin. apply in_map_iff in Hin. destruct Hin as (x' & Heq & Hx').
    injection Heq as ->. contradiction.
  - apply IH. exact Hjs'.
  - intros [i k] Hin1 Hin2.
    apply in_map_iff in Hin1. destruct Hin1 as (i' & Heq & _).
    injection Heq as -> ->.
    apply in_flat_map in Hin2. destruct Hin2 as (j' & Hj' & Hin2).
    apply in_map_iff in Hin2. destruct Hin2 as (i'' & Heq & _).
    injection Heq as -> ->. contradiction.
Qed.

Lemma NoDup_row_major (nx nz : Z) : NoDup (row_major nx nz).
Proof. unfold row_major. apply NoDup_rows; apply NoDup_zseq. Qed.

Lemma row_major_length (nx nz : Z) :
  List.length (row_major nx nz) = (Z.to_nat nz * Z.to_nat nx)%nat.
Proof.
  unfold row_major. generalize 0 at 2. generalize (Z.to_nat nz) as n.
  induction n as [ | n IH ]; intro a; cbn [zseq flat_map]; [ reflexivity | ].
  rewrite length_app, length_map, zseq_length, IH. reflexivity.
Qed.

(** ** The tile loops of [save] and [load] as list traversals *)

Lemma save_tiles_app (nm : dtNavMesh) (l1 l2 : list (Z * Z)) :
  save_tiles nm (l1 ++ l2)
  = match save_tiles nm l1 with
    | None => None
    | Some a =>
        match save_tiles nm l2 with
        | None => None
        | Some b => Some (a ++ b)
        end
    end.
Proof.
  induction l1 as [ | c l1 IH ]; cbn [app save_tiles].
  - destruct (save_tiles nm l2); reflexivity.
  - destruct (dtNavMesh_getTileAt nm (fst c) (snd c)); [ | reflexivity ].
    rewrite IH. destruct (save_tiles nm l1); [ | reflexivity ].
    destruct (save_tiles nm l2); reflexivity.
Qed.

Lemma save_row_list (nm : dtNavMesh) (nx j : Z) :
  forall fuel i,
    nx - i <= Z.of_nat fuel ->
    save_row fuel nm nx i j
    = save_tiles nm (map (fun i => (i, j)) (zseq i (Z.to_nat (nx - i)))).
Proof.
  induction fuel as [ | fuel IH ]; intros i Hfuel.
  - replace (Z.to_nat (nx - i)) with O by lia. reflexivity.
  - cbn [save_row]. destruct (i <? nx) eqn:Hi.
    + apply Z.ltb_lt in Hi.
      replace (Z.to_nat (nx - i)) with (S (Z.to_nat (nx - (i + 1)))) by lia.
      cbn [zseq map save_tiles fst snd].
      destruct (dtNavMesh_getTileAt nm i j); [ | reflexivity ].
      rewrite IH by lia. reflexivity.
    + apply Z.ltb_ge in Hi.
      replace (Z.to_nat (nx - i)) with O by lia. reflexivity.
Qed.

Lemma save_rows_list (nm : dtNavMesh) (nx nz : Z) :
  forall fuel j,
    nz - j <= Z.of_nat fuel ->
    save_rows fuel nm nx nz j
    = save_tiles nm
        (flat_map (fun j => map (fun i => (i, j)) (zseq 0 (Z.to_nat nx)))
           (zseq j (Z.to_nat (nz - j)))).
Proof.
  induction fuel as [ | fuel IH ]; intros j Hfuel.
  - replace (Z.to_nat (nz - j)) with O by lia. reflexivity.
  - cbn [save_rows]. destruct (j <? nz) eqn:Hj.
    + apply Z.ltb_lt in Hj.
      replace (Z.to_nat (nz - j)) with (S (Z.to_nat (nz - (j + 1)))) by lia.
      cbn [zseq flat_map]. rewrite save_tiles_app.
      rewrite save_row_list by lia. rewrite Z.sub_0_r.
      destruct (save_tiles nm _); [ | reflexivity ].
      rewrite IH by lia. reflexivity.
    + apply Z.ltb_ge in Hj.
      replace (Z.to_nat (nz - j)) with O by lia. reflexivity.
Qed.

Lemma save_tiles_present (nm : dtNavMesh) (coords : list (Z * Z)) :
  (forall c, In c coords -> tile_ok nm c) ->
  save_tiles nm coords = Some (flat_map (tile_chunks nm) coords).
Proof.
  induction coords as [ | c coords IH ]; intros Hok; [ reflexivity | ].
  cbn [save_tiles flat_map]. unfold tile_chunks at 1.
  destruct (Hok c (or_introl eq_refl)) as (d & h & Hd & _).
  rewrite Hd, IH by (intros c' Hc'; apply Hok; right; exact Hc').
  reflexivity.
Qed.

Lemma load_tiles_add (a b : nat) :
  forall nm file,
    load_tiles (a + b) nm file
    = match load_tiles a nm file with
      | Some (nm', rest, true) => load_tiles b nm' rest
      | r => r
      end.
Proof.
  induction a as [ | a IH ]; intros nm file; cbn [Nat.add load_tiles];
    [ reflexivity | ].
  destruct file as [ | [ | n | | ] [ | [ | | | d ] rest ] ]; try reflexivity.
  destruct (n =? Z.of_nat (List.length d)); [ | reflexivity ].
  destruct (dtNavMesh_addTile nm d) as [nm' [ | ]]; cbn [negb]; [ apply IH | reflexivity ].
Qed.

Lemma load_row_list (nx : Z) :
  forall fuel nm file i,
    nx - i <= Z.of_nat fuel ->
    load_row fuel nm file nx i = load_tiles (Z.to_nat (nx - i)) nm file.
Proof.
  induction fuel as [ | fuel IH ]; intros nm file i Hfuel.
  - replace (Z.to_nat (nx - i)) with O by lia. reflexivity.
  - cbn [load_row]. destruct (i <? nx) eqn:Hi.
    + apply Z.ltb_lt in Hi.
      replace (Z.to_nat (nx - i)) with (S (Z.to_nat (nx - (i + 1)))) by lia.
      cbn [load_tiles].
      destruct file as [ | [ | n | | ] [ | [ | | | d ] rest ] ]; try reflexivity.
      destruct (n =? Z.of_nat (List.length d)); [ | reflexivity ].
      destruct (dtNavMesh_addTile nm d) as [nm' [ | ]]; cbn [negb];
        [ apply IH; lia | reflexivity ].
    + apply Z.ltb_ge in Hi.
      replace (Z.to_nat (nx - i)) with O by lia. reflexivity.
Qed.

Lemma load_rows_list (nx nz : Z) :
  forall fuel nm file j,
    nz - j <= Z.of_nat fuel ->
    load_rows fuel nm file nx nz j
    = load_tiles (Z.to_nat (nz - j) * Z.to_nat nx) nm file.
Proof.
  induction fuel as [ | fuel IH ]; intros nm file j Hfuel.
  - replace (Z.to_nat (nz - j)) with O by lia. reflexivity.
  - cbn [load_rows]. destruct (j <? nz) eqn:Hj.
    + apply Z.ltb_lt in Hj.
      replace (Z.to_nat (nz - j)) with (S (Z.to_nat (nz - (j + 1)))) by lia.
      cbn [Nat.mul]. rewrite load_tiles_add.
      rewrite load_row_list by lia. rewrite Z.sub_0_r.
      destruct (load_tiles (Z.to_nat nx) nm file) as [ [ [nm' rest] [ | ] ] | ];
        cbn [negb]; [ apply IH; lia | reflexivity | reflexivity ].
    + apply Z.ltb_ge in Hj.
      replace (Z.to_nat (nz - j)) with O by lia. reflexivity.
Qed.

(** ** Reading back what [save] wrote *)

Section RoundTrip.

Variable count : dtNavMesh -> Z.
Hypothesis laws : tile_store_laws count.

(** Loading the chunks of the tiles [todo] of an original navmesh into a
    navmesh that so far holds the tiles [done] of the original and nothing
    else: every [addTile] succeeds and the result holds the tiles
    [done ++ todo] of the original and nothing else. *)
Lemma load_tiles_roundtrip (orig : dtNavMesh) (params : dtNavMeshParams)
    (rest : list Chunk) :
  forall todo done nm_cur,
    NoDup (done ++ todo) ->
    (forall c, In c todo -> tile_ok orig c) ->
    (todo <> [] -> Z.of_nat (List.length (done ++ todo)) <= nmp_maxTiles params) ->
    dtNavMesh_getParams nm_cur = params ->
    count nm_cur = Z.of_nat (List.length done) ->
    (forall c, In c done ->
               dtNavMesh_getTileAt nm_cur (fst c) (snd c)
               = dtNavMesh_getTileAt orig (fst c) (snd c)) ->
    (forall c, ~ In c done -> dtNavMesh_getTileAt nm_cur (fst c) (snd c) = None) ->
    exists nm_fin,
      load_tiles (List.length todo) nm_cur (flat_map (tile_chunks orig) todo ++ rest)
      = Some (nm_fin, rest, true) /\
      dtNavMesh_getParams nm_fin = params /\
      (forall c, In c (done ++ todo) ->
                 dtNavMesh_getTileAt nm_fin (fst c) (snd c)
                 = dtNavMesh_getTileAt orig (fst c) (snd c)).
Proof.
  induction todo as [ | c todo IH ];
    intros done nm_cur Hnd Hok Hroom Hparams Hcount Hdone Hfree.
  - exists nm_cur. rewrite app_nil_r. cbn. auto.
  - destruct (Hok c (or_introl eq_refl)) as (d & h & Hd & Hh & Hx & Hy).
    cbn [List.length load_tiles flat_map]. unfold tile_chunks at 1.
    rewrite Hd. cbn [app]. rewrite Z.eqb_refl.
    assert (Hc : ~ In c done).
    { intros Hin. apply NoDup_remove_2 in Hnd. apply Hnd.
      apply in_or_app. left. exact Hin. }
    assert (Hacc : snd (dtNavMesh_addTile nm_cur d) = true).
    { apply (add_accepts count laws nm_cur d h Hh).
      - rewrite Hx, Hy. apply Hfree. exact Hc.
      - rewrite Hparams, Hcount.
        assert (Hr : Z.of_nat (List.length (done ++ c :: todo))
                     <= nmp_maxTiles params) by (apply Hroom; discriminate).
        rewrite length_app in Hr. cbn [List.length] in Hr. lia. }
    destruct (dtNavMesh_addTile nm_cur d) as [nm' ok] eqn:Hadd.
    cbn [snd] in Hacc. subst ok. cbn [negb].
    destruct (add_result count laws nm_cur d nm' Hadd)
      as (h' & Hh' & Hat & Hother & Hcount' & Hparams').
    rewrite Hh in Hh'. injection Hh' as <-. rewrite Hx, Hy in Hat, Hother.
    assert (Hne : forall c', c' <> c -> (fst c', snd c') <> (fst c, snd c)).
    { intros [x' y'] Hc'. destruct c as [x y]. exact Hc'. }
    destruct (IH (done ++ [c]) nm') as (nm_fin & Hload & Hpf & Htiles).
    + rewrite <- app_assoc. exact Hnd.
    + intros c' Hc'. apply Hok. right. exact Hc'.
    + intros _. rewrite <- app_assoc. apply Hroom. discriminate.
    + rewrite Hparams'. exact Hparams.
    + rewrite Hcount', Hcount, length_app. cbn [List.length]. lia.
    + intros c' Hc'. apply in_app_or in Hc'. destruct Hc' as [Hc' | [ <- | [] ]].
      * rewrite Hother; [ apply Hdone; exact Hc' | ].
        apply Hne. intros ->. contradiction.
      * rewrite Hat, Hd. reflexivity.
    + intros c' Hc'. rewrite Hother.
      * apply Hfree. intros Hin. apply Hc'. apply in_or_app. left. exact Hin.
      * apply Hne. intros ->. apply Hc'. apply in_or_app. right. left. reflexivity.
    + exists nm_fin. split; [ exact Hload | ]. split; [ exact Hpf | ].
      intros c' Hc'. apply Htiles. rewrite <- app_assoc. exact Hc'.
Qed.

(** Saving a built store and loading the file into any scene succeeds and
    gives back the box, the grid size, the parameters and every tile. *)
Lemma save_load_built (w w' : World) (fs : FileSystem)
    (s s_other : NavigationSceneImpl) (nm : dtNavMesh) (path : string) :
  built_store s nm ->
  w_can_create w path = true ->
  (forall nm', snd (dtCrowd_init dtAllocCrowd 1000 (float_of_int 4) (Some nm')) = true) ->
  exists fs' s' nm',
    save w fs s path = Some (fs', true) /\
    load w' fs' s_other path = Some (s', true) /\
    m_aabb s' = m_aabb s /\
    m_num_tiles_x s' = m_num_tiles_x s /\
    m_num_tiles_z s' = m_num_tiles_z s /\
    m_navmesh s' = Some nm' /\
    dtNavMesh_getParams nm' = dtNavMesh_getParams nm /\
    forall i j,
      0 <= i < m_num_tiles_x s -> 0 <= j < m_num_tiles_z s ->
      dtNavMesh_getTileAt nm' i j = dtNavMesh_getTileAt nm i j /\
      tile_counts nm' i j = tile_counts nm i j.
Proof.
  intros [Hnm Htiles Hroom (nm0 & q0 & Halloc & Hqalloc & Hqinit & Hinit)]
    Hcreate Hcrowd.
  remember (float_of_int 4) as four eqn:Hfour.
  set (nx := m_num_tiles_x s) in *. set (nz := m_num_tiles_z s) in *.
  set (tiles := flat_map (tile_chunks nm) (row_major nx nz)).
  assert (Hsave : save_rows (Z.to_nat nz) nm nx nz 0 = Some tiles).
  { rewrite save_rows_list by lia. rewrite Z.sub_0_r.
    apply save_tiles_present. exact Htiles. }
  destruct (dtNavMeshQuery_init q0 nm0 2048) as [q1 qok] eqn:Hq.
  cbn [snd] in Hqinit. subst qok.
  destruct (dtNavMesh_init nm0 (dtNavMesh_getParams nm)) as [nm1 iok] eqn:Hi.
  cbn [snd] in Hinit. subst iok.
  destruct (init_fresh count laws _ _ _ Hi) as (Hp1 & Hc1 & Hfree1).
  destruct (load_tiles_roundtrip nm (dtNavMesh_getParams nm) [] (row_major nx nz)
              [] nm1) as (nm2 & Hload & Hp2 & Hsame).
  { apply NoDup_row_major. }
  { exact Htiles. }
  { intros Hne. cbn [app]. rewrite row_major_length.
    assert (Hlen : List.length (row_major nx nz) <> O)
      by (destruct (row_major nx nz); [ congruence | discriminate ]).
    rewrite row_major_length in Hlen.
    assert (Hx : 0 < nx) by nia. assert (Hz : 0 < nz) by nia.
    specialize (Hroom Hx Hz). rewrite Nat2Z.inj_mul, !Z2Nat.id by lia. lia. }
  { exact Hp1. }
  { exact Hc1. }
  { intros c []. }
  { intros c _. apply Hfree1. }
  rewrite app_nil_r in Hload. fold tiles in Hload.
  specialize (Hcrowd nm2).
  destruct (dtCrowd_init dtAllocCrowd 1000 four (Some nm2)) as [c cok] eqn:Hc.
  cbn [snd] in Hcrowd. subst cok.
  destruct (add_all_agents (w_universe w') c (m_agents s_other))
    as [c' agents] eqn:Hadd.
  eexists. eexists. exists nm2.
  split.
  { unfold save. rewrite Hnm, Hcreate. cbn [negb]. fold nx nz.
    rewrite Hsave. reflexivity. }
  split.
  { unfold load, initNavmesh, initCrowd. rewrite <- Hfour. cbn [fs_lookup].
    rewrite String.eqb_refl, Halloc, Hqalloc, Hq. cbn.
    rewrite Hi. cbn.
    rewrite load_rows_list by lia. rewrite Z.sub_0_r.
    rewrite <- row_major_length, Hload. cbn.
    rewrite Hc. cbn. rewrite Hadd. reflexivity. }
  cbn. repeat (split; [ reflexivity || exact Hp2 | ]).
  intros i j Hi' Hj'.
  assert (Ht : dtNavMesh_getTileAt nm2 i j = dtNavMesh_getTileAt nm i j).
  { apply (Hsame (i, j)). cbn [app]. apply in_row_major. auto. }
  split; [ exact Ht | ]. unfold tile_counts. rewrite Ht. reflexivity.
Qed.

(** ** What a successful build leaves in the store *)

(** A successful [generateTile] inserted, after evicting the old tile, a
    blob the encoder produced for the tile coordinate. *)
Lemma generateTile_inserted (w : World) (s s' : NavigationSceneImpl) (x z : Z)
    (keep_data : bool) (nm : dtNavMesh) :
  generateTile w s x z keep_data = (s', true) ->
  m_navmesh s = Some nm ->
  exists p data nm',
    dtCreateNavMeshData p = Some data /\ cp_tileX p = x /\ cp_tileY p = z /\
    dtNavMesh_addTile (evict nm x z) data = (nm', true) /\
    m_navmesh s' = Some nm'.
Proof.
  intros H Hnm. unfold generateTile in H. rewrite Hnm in H. unfold evict.
  remember (dtNavMesh_removeTile nm (dtNavMesh_getTileRefAt nm x z)) as nm1
    eqn:Hnm1.
  revert H. destruct keep_data; simpl;
    repeat (split_match; simpl; try discriminate);
    intros H; injection H as <- ->;
    (do 3 eexists; split; [ eassumption | ];
     split; [ reflexivity | ]; split; [ reflexivity | ];
     split; [ eassumption | reflexivity ]).
Qed.

Lemma generateTile_tile (w : World) (s s' : NavigationSceneImpl) (x z : Z)
    (keep_data : bool) (nm : dtNavMesh) :
  generateTile w s x z keep_data = (s', true) ->
  m_navmesh s = Some nm ->
  exists nm',
    m_navmesh s' = Some nm' /\
    tile_ok nm' (x, z) /\
    dtNavMesh_getParams nm' = dtNavMesh_getParams nm /\
    forall c, c <> (x, z) ->
              dtNavMesh_getTileAt nm' (fst c) (snd c)
              = dtNavMesh_getTileAt nm (fst c) (snd c).
Proof.
  intros Hgen Hnm.
  destruct (generateTile_inserted w s s' x z keep_data nm Hgen Hnm)
    as (p & data & nm' & Henc & Hpx & Hpz & Ha & Hnew).
  destruct (encode_header count laws p data Henc) as (h & Hh & Hx & Hy).
  destruct (add_result count laws _ _ _ Ha) as (h' & Hh' & Hat & Hother & _ & Hp').
  rewrite Hh in Hh'. injection Hh' as <-.
  assert (Hhx : hdr_x h = x) by congruence.
  assert (Hhy : hdr_y h = z) by congruence.
  rewrite Hhx, Hhy in Hat, Hother.
  destruct (remove_other count laws nm x z) as (Hrp & Hro).
  exists nm'. split; [ exact Hnew | ]. split.
  - exists data, h. cbn [fst snd]. auto.
  - split; [ rewrite Hp'; exact Hrp | ].
    intros [x' z'] Hc. cbn [fst snd]. rewrite Hother by exact Hc.
    apply Hro. exact Hc.
Qed.

Lemma build_tiles_tiles (w : World) :
  forall coords s s' nm,
    build_tiles w coords s = (s', true) ->
    m_navmesh s = Some nm ->
    exists nm',
      m_navmesh s' = Some nm' /\
      dtNavMesh_getParams nm' = dtNavMesh_getParams nm /\
      forall c, tile_ok nm c \/ In c coords -> tile_ok nm' c.
Proof.
  induction coords as [ | [i j] coords IH ]; intros s s' nm Hrun Hnm.
  - cbn in Hrun. injection Hrun as <-. exists nm. repeat split; auto.
    intros c [Hc | []]. exact Hc.
  - cbn [build_tiles] in Hrun.
    destruct (generateTile w s i j false) as [s1 [ | ]] eqn:Hgen;
      cbn [negb] in Hrun; [ | discriminate ].
    destruct (generateTile_tile w s s1 i j false nm Hgen Hnm)
      as (nm1 & Hnm1 & Hok1 & Hp1 & Hother1).
    destruct (IH s1 s' nm1 Hrun Hnm1) as (nm' & Hnm' & Hp' & Hok').
    exists nm'. split; [ exact Hnm' | ]. split; [ congruence | ].
    intros c Hc. apply Hok'.
    assert (Hdec : c = (i, j) \/ c <> (i, j)).
    { destruct c as [x y]. destruct (Z.eq_dec x i), (Z.eq_dec y j);
        subst; auto; right; congruence. }
    destruct Hdec as [ -> | Hne ]; [ left; exact Hok1 | ].
    destruct Hc as [ (d & h & Hd & Hrest) | [ Heq | Hin ] ].
    + left. exists d, h. rewrite (Hother1 c Hne). auto.
    + congruence.
    + right. exact Hin.
Qed.

Lemma computeAABB_navmesh (w : World) (s : NavigationSceneImpl) :
  m_navmesh (computeAABB w s) = m_navmesh s.
Proof. unfold computeAABB. destruct (w_render_scene w); reflexivity. Qed.

Lemma setup_success (w : World) (s s1 : NavigationSceneImpl) :
  generateNavmesh_setup w s = (s1, true) ->
  exists nm0 q0 nm1,
    dtAllocNavMesh = Some nm0 /\ dtAllocNavMeshQuery = Some q0 /\
    snd (dtNavMeshQuery_init q0 nm0 2048) = true /\
    dtNavMesh_init nm0
      (navmesh_params (m_aabb s1) (m_num_tiles_x s1) (m_num_tiles_z s1))
    = (nm1, true) /\
    m_navmesh s1 = Some nm1.
Proof.
  unfold generateNavmesh_setup, initNavmesh.
  destruct dtAllocNavMesh as [nm0 | ]; cbn; [ | discriminate ].
  destruct dtAllocNavMeshQuery as [q0 | ]; cbn; [ | discriminate ].
  destruct (dtNavMeshQuery_init q0 nm0 2048) as [q1 [ | ]] eqn:Hq; cbn;
    [ | discriminate ].
  destruct (rcCalcGridSize _ _ _) as [gw gh]. cbn.
  rewrite computeAABB_navmesh. cbn.
  destruct (dtNavMesh_init nm0 _) as [nm1 ok] eqn:Hi.
  intros H. injection H as <- ->. cbn.
  exists nm0, q0, nm1. rewrite Hq. auto.
Qed.

(** A scene that [generateNavmesh] built successfully is a built store. *)
Lemma generateNavmesh_built (w : World) (s0 s : NavigationSceneImpl) :
  generateNavmesh w s0 = (s, true) -> exists nm, built_store s nm.
Proof.
  intros Hgen.
  assert (Hsetup : snd (generateNavmesh_setup w s0) = true).
  { unfold generateNavmesh in Hgen.
    destruct (generateNavmesh_setup w s0) as [s1 [ | ]]; [ reflexivity | ].
    cbn in Hgen. discriminate. }
  pose proof (generateNavmesh_loops w s0 Hsetup) as Hrun.
  destruct (generateNavmesh_setup w s0) as [s1 ok] eqn:Hs. cbn [fst snd] in *.
  subst ok. rewrite Hgen in Hrun. symmetry in Hrun.
  destruct (setup_success w s0 s1 Hs)
    as (nm0 & q0 & nm1 & Halloc & Hqalloc & Hq & Hinit & Hnm1).
  destruct (build_tiles_tiles w _ _ _ _ Hrun Hnm1) as (nm & Hnm & Hp & Hok).
  destruct (build_tiles_num_tiles w
              (row_major (m_num_tiles_x s1) (m_num_tiles_z s1)) s1) as [Hx Hz].
  rewrite Hrun in Hx, Hz. cbn [fst] in Hx, Hz.
  destruct (init_fresh count laws _ _ _ Hinit) as (Hp1 & _).
  exists nm. split.
  - exact Hnm.
  - intros c Hc. apply Hok. right. rewrite <- Hx, <- Hz. exact Hc.
  - intros _ _. rewrite Hp, Hp1, Hx, Hz. cbn. lia.
  - exists nm0, q0. repeat split; auto.
    rewrite Hp, Hp1, Hinit. reflexivity.
Qed.

(** C2: for every scene that [generateNavmesh] built successfully, [save]
    to a path that can be created followed by [load] of that path (into any
    scene) succeeds, and the loaded scene has the same world box, the same
    grid width and height, the same navmesh parameters and, at every tile
    coordinate of the grid, the same tile blob and with it the same polygon
    and vertex counts.  The tile store is assumed to keep its contract
    ([tile_store_laws]) and the crowd to initialise on the loaded navmesh. *)
Theorem save_load_roundtrip (w0 w w' : World) (fs : FileSystem)
    (s0 s s_other : NavigationSceneImpl) (path : string) :
  generateNavmesh w0 s0 = (s, true) ->
  w_can_create w path = true ->
  (forall nm', snd (dtCrowd_init dtAllocCrowd 1000 (float_of_int 4) (Some nm')) = true) ->
  exists fs' s' nm nm',
    save w fs s path = Some (fs', true) /\
    load w' fs' s_other path = Some (s', true) /\
    m_aabb s' = m_aabb s /\
    m_num_tiles_x s' = m_num_tiles_x s /\
    m_num_tiles_z s' = m_num_tiles_z s /\
    m_navmesh s = Some nm /\
    m_navmesh s' = Some nm' /\
    dtNavMesh_getParams nm' = dtNavMesh_getParams nm /\
    forall i j,
      0 <= i < m_num_tiles_x s -> 0 <= j < m_num_tiles_z s ->
      dtNavMesh_getTileAt nm' i j = dtNavMesh_getTileAt nm i j /\
      tile_counts nm' i j = tile_counts nm i j.
Proof.
  intros Hgen Hcreate Hcrowd.
  destruct (generateNavmesh_built w0 s0 s Hgen) as (nm & Hbuilt).
  destruct (save_load_built w w' fs s s_other nm path Hbuilt Hcreate Hcrowd)
    as (fs' & s' & nm' & Hsave & Hload & Ha & Hx & Hz & Hnm' & Hp & Ht).
  exists fs', s', nm, nm'. repeat (split; [ assumption | ]).
  split; [ apply (bs_navmesh s nm Hbuilt) | ]. auto.
Qed.

End RoundTrip.

End Properties.

(** * Further properties of the scene *)

Section Coverage.

Context {E : Engine} {R : Recast} {D : Detour}.

(** ** The agent map *)

Lemma find_agent_app (l l' : list (Entity * Agent)) (e : Entity) :
  find_agent (l ++ l') e
  = match find_agent l e with
    | Some a => Some a
    | None => find_agent l' e
    end.
Proof.
  induction l as [ | [k a] l IH ]; simpl; [ reflexivity | ].
  destruct (k =? e); [ reflexivity | exact IH ].
Qed.

Lemma find_agent_none_keys (l : list (Entity * Agent)) (e : Entity) :
  find_agent l e = None -> ~ In e (map fst l).
Proof.
  induction l as [ | [k a] l IH ]; simpl; [ tauto | ].
  destruct (k =? e) eqn:Hk; [ discriminate | ].
  intros Hnone [Heq | Hin]; [ | exact (IH Hnone Hin) ].
  apply Z.eqb_neq in Hk. contradiction.
Qed.

Lemma find_store_other (l : list (Entity * Agent)) (e e' : Entity) (a : Agent) :
  e' <> e -> find_agent (store_agent l e a) e' = find_agent l e'.
Proof.
  intros Hne. induction l as [ | [k b] l IH ]; simpl; [ reflexivity | ].
  destruct (k =? e) eqn:Hk; simpl.
  - apply Z.eqb_eq in Hk. subst k.
    destruct (e =? e') eqn:He; [ | reflexivity ].
    apply Z.eqb_eq in He. congruence.
  - destruct (k =? e'); [ reflexivity | exact IH ].
Qed.

Lemma store_agent_keys (l : list (Entity * Agent)) (e : Entity) (a : Agent) :
  map fst (store_agent l e a) = map fst l.
Proof.
  induction l as [ | [k b] l IH ]; simpl; [ reflexivity | ].
  destruct (k =? e); simpl; [ reflexivity | now rewrite IH ].
Qed.

Lemma erase_agent_app_new (l : list (Entity * Agent)) (e : Entity) (a : Agent) :
  find_agent l e = None -> erase_agent (l ++ [(e, a)]) e = l.
Proof.
  induction l as [ | [k b] l IH ]; simpl.
  - now rewrite Z.eqb_refl.
  - destruct (k =? e); [ discriminate | ]. intros Hnone. now rewrite IH.
Qed.

Lemma find_erase_other (l : list (Entity * Agent)) (e e' : Entity) :
  e' <> e -> find_agent (erase_agent l e) e' = find_agent l e'.
Proof.
  intros Hne. induction l as [ | [k b] l IH ]; simpl; [ reflexivity | ].
  destruct (k =? e) eqn:Hk; simpl.
  - apply Z.eqb_eq in Hk. subst k.
    destruct (e =? e') eqn:He; [ | reflexivity ].
    apply Z.eqb_eq in He. congruence.
  - destruct (k =? e'); [ reflexivity | exact IH ].
Qed.

Lemma find_erase_same (l : list (Entity * Agent)) (e : Entity) :
  NoDup (map fst l) -> find_agent (erase_agent l e) e = None.
Proof.
  induction l as [ | [k b] l IH ]; simpl; [ reflexivity | ].
  intros Hnd. inversion Hnd as [ | ? ? Hnotin Hrest ]; subst.
  destruct (k =? e) eqn:Hk; simpl.
  - apply Z.eqb_eq in Hk. subst k. apply find_agent_absent. exact Hnotin.
  - rewrite Hk. apply IH. exact Hrest.
Qed.

Lemma erase_agent_length (l : list (Entity * Agent)) (e : Entity) (a : Agent) :
  find_agent l e = Some a ->
  S (List.length (erase_agent l e)) = List.length l.
Proof.
  induction l as [ | [k b] l IH ]; simpl; [ discriminate | ].
  destruct (k =? e); simpl; [ reflexivity | ].
  intros Hfind. now rewrite IH.
Qed.

Lemma set_agents_same (s : NavigationSceneImpl) : set_agents s (m_agents s) = s.
Proof. destruct s; reflexivity. Qed.

(** ** Agent components *)

Lemma agents_wf_app_new (l : list (Entity * Agent)) (e : Entity) (a : Agent) :
  find_agent l e = None -> entity a = e -> agents_wf l -> agents_wf (l ++ [(e, a)]).
Proof.
  intros Hnone Hent [Hnd Hall]. split.
  - rewrite map_app. cbn.
    apply NoDup_app.
    + exact Hnd.
    + repeat constructor. simpl. tauto.
    + intros x Hin [Hx | []]. subst x.
      exact (find_agent_none_keys l e Hnone Hin).
  - apply Forall_app. split; [ exact Hall | ].
    constructor; [ exact Hent | constructor ].
Qed.

(** [createComponent] for an entity without an agent: the entity then has
    an agent with radius 0.5, height 2 and the arrived flag set; without a
    crowd its handle is -1 and no crowd appears, with a crowd it was added
    at the entity's position and carries the handle the crowd returned.
    The agents of the other entities are as before and the map keeps one
    agent per entity. *)
Theorem createComponent_agent (u : Universe) (s : NavigationSceneImpl) (e : Entity) :
  find_agent (m_agents s) e = None ->
  (exists a,
     find_agent (m_agents (createComponent u s e)) e = Some a /\
     entity a = e /\ radius a = flit 5 10 /\ height a = float_of_int 2 /\
     is_finished a = true /\
     match m_crowd s with
     | None => agent a = -1 /\ m_crowd (createComponent u s e) = None
     | Some c =>
         agent a
         = snd (dtCrowd_addAgent c (getPosition u e)
                  (crowd_agent_params (new_agent e))) /\
         m_crowd (createComponent u s e)
         = Some (fst (dtCrowd_addAgent c (getPosition u e)
                        (crowd_agent_params (new_agent e))))
     end) /\
  (forall e', e' <> e ->
     find_agent (m_agents (createComponent u s e)) e' = find_agent (m_agents s) e') /\
  (agents_wf (m_agents s) -> agents_wf (m_agents (createComponent u s e))).
Proof.
  intros Hnone. unfold createComponent, addCrowdAgent. fold (new_agent e).
  cbn [entity new_agent].
  assert (Hother : forall (a : Agent) e', e' <> e ->
            find_agent (m_agents s ++ [(e, a)]) e' = find_agent (m_agents s) e').
  { intros a e' Hne. rewrite find_agent_app. cbn.
    destruct (e =? e') eqn:He; [ apply Z.eqb_eq in He; congruence | ].
    destruct (find_agent (m_agents s) e'); reflexivity. }
  assert (Hnew : forall a : Agent,
            find_agent (m_agents s ++ [(e, a)]) e = Some a).
  { intros a. rewrite find_agent_app, Hnone. cbn. now rewrite Z.eqb_refl. }
  destruct (m_crowd s) as [c | ] eqn:Hc.
  - destruct (dtCrowd_addAgent c (getPosition u e) (crowd_agent_params (new_agent e)))
      as [c' idx] eqn:Hadd.
    cbn. split; [ | split ].
    + eexists. split; [ apply Hnew | ]. cbn. repeat split; reflexivity.
    + intros e' Hne. apply Hother. exact Hne.
    + apply agents_wf_app_new; [ exact Hnone | reflexivity ].
  - cbn. split; [ | split ].
    + eexists. split; [ apply Hnew | ]. cbn. rewrite Hc. repeat split; reflexivity.
    + intros e' Hne. apply Hother. exact Hne.
    + apply agents_wf_app_new; [ exact Hnone | reflexivity ].
Qed.

Lemma set_crowd_same (s : NavigationSceneImpl) : set_crowd s (m_crowd s) = s.
Proof. destruct s; reflexivity. Qed.

(** Creating the component of an entity without an agent and destroying it
    again gives back the agent map.  Without a crowd the scene is exactly
    as before; with a crowd the agent was added to it and, when it got a
    slot (a handle that is not negative), removed from it again. *)
Theorem create_destroy_component (u : Universe) (s : NavigationSceneImpl)
    (e : Entity) :
  find_agent (m_agents s) e = None ->
  destroyComponent (createComponent u s e) e
  = Some match m_crowd s with
         | None => s
         | Some c =>
             let r := dtCrowd_addAgent c (getPosition u e)
                        (crowd_agent_params (new_agent e)) in
             set_crowd s
               (Some (if 0 <=? snd r then dtCrowd_removeAgent (fst r) (snd r)
                      else fst r))
         end.
Proof.
  intros Hnone. unfold destroyComponent, createComponent, addCrowdAgent.
  fold (new_agent e). cbn [entity new_agent].
  destruct (m_crowd s) as [c | ] eqn:Hc.
  - destruct (dtCrowd_addAgent c (getPosition u e) (crowd_agent_params (new_agent e)))
      as [c' idx] eqn:Hadd.
    cbn. rewrite find_agent_app, Hnone. cbn. rewrite Z.eqb_refl. cbn.
    destruct (0 <=? idx); cbn; rewrite erase_agent_app_new by exact Hnone;
      destruct s; reflexivity.
  - cbn. rewrite find_agent_app, Hnone. cbn. rewrite Z.eqb_refl, Hc. cbn.
    rewrite erase_agent_app_new by exact Hnone. destruct s; reflexivity.
Qed.

(** [destroyComponent] of an entity that has an agent removes this agent
    and no other: the other entities keep their agents, the map is one
    entry shorter and, when it held one agent per entity, the entity has no
    agent any more.  The agent is removed from the crowd only when there is
    a crowd and the handle is not negative. *)
Theorem destroyComponent_removes (s : NavigationSceneImpl) (e : Entity) (a : Agent) :
  find_agent (m_agents s) e = Some a ->
  exists s',
    destroyComponent s e = Some s' /\
    (forall e', e' <> e -> find_agent (m_agents s') e' = find_agent (m_agents s) e') /\
    (NoDup (map fst (m_agents s)) -> find_agent (m_agents s') e = None) /\
    S (List.length (m_agents s')) = List.length (m_agents s) /\
    m_crowd s'
    = match m_crowd s with
      | Some c => Some (if 0 <=? agent a then dtCrowd_removeAgent c (agent a) else c)
      | None => None
      end.
Proof.
  intros Hfind. unfold destroyComponent. rewrite Hfind.
  eexists. split; [ reflexivity | ].
  assert (Hagents :
    m_agents
      match m_crowd s with
      | Some c =>
          if 0 <=? agent a
          then set_crowd s (Some (dtCrowd_removeAgent c (agent a)))
          else s
      | None => s
      end = m_agents s).
  { destruct (m_crowd s); [ destruct (0 <=? agent a) | ]; reflexivity. }
  cbn [m_agents set_agents]. rewrite Hagents.
  split; [ | split; [ | split ] ].
  - intros e' Hne. apply find_erase_other. exact Hne.
  - intros Hnd. apply find_erase_same. exact Hnd.
  - apply erase_agent_length with (a := a). exact Hfind.
  - cbn [m_crowd set_agents].
    destruct (m_crowd s) as [c | ] eqn:Hc;
      [ destruct (0 <=? agent a) | ]; cbn; try rewrite Hc; reflexivity.
Qed.

(** ** Agent properties *)

(** Setting the radius (or the height) of an agent and reading it back
    gives the value set; the other property of the agent, the properties of
    the other agents, the keys of the map and the crowd are untouched: a
    running crowd keeps simulating the agent with its old parameters. *)
Theorem agent_property_set_get (s : NavigationSceneImpl) (e : Entity) (a : Agent)
    (v : float) :
  find_agent (m_agents s) e = Some a ->
  (exists s',
     setAgentRadius s e v = Some s' /\
     getAgentRadius s' e = Some v /\
     getAgentHeight s' e = Some (height a) /\
     (forall e', e' <> e ->
        getAgentRadius s' e' = getAgentRadius s e' /\
        getAgentHeight s' e' = getAgentHeight s e') /\
     map fst (m_agents s') = map fst (m_agents s) /\
     m_crowd s' = m_crowd s) /\
  (exists s',
     setAgentHeight s e v = Some s' /\
     getAgentHeight s' e = Some v /\
     getAgentRadius s' e = Some (radius a) /\
     (forall e', e' <> e ->
        getAgentRadius s' e' = getAgentRadius s e' /\
        getAgentHeight s' e' = getAgentHeight s e') /\
     map fst (m_agents s') = map fst (m_agents s) /\
     m_crowd s' = m_crowd s).
Proof.
  intros Hfind.
  unfold setAgentRadius, setAgentHeight, getAgentRadius, getAgentHeight.
  rewrite Hfind.
  split; eexists; (split; [ reflexivity | ]); cbn [m_agents set_agents m_crowd];
    rewrite (find_store_agent _ _ _ _ Hfind); cbn;
    (repeat split;
     [ intros; rewrite find_store_other by assumption; reflexivity ..
     | apply store_agent_keys ]).
Qed.

(** ** Serialization of the agents *)

Lemma read_agents_items (fresh : Z -> Agent) (tail : list Item) :
  forall l fuel i acc,
    (List.length l <= fuel)%nat ->
    read_agents fuel fresh i (i + Z.of_nat (List.length l))
      (flat_map agent_items l ++ tail) acc
    = Some (acc ++ restored fresh i l, tail).
Proof.
  induction l as [ | [k a] l IH ]; intros fuel i acc Hfuel.
  - cbn. rewrite Z.add_0_r, app_nil_r.
    destruct fuel; cbn; [ reflexivity | ].
    rewrite Z.ltb_irrefl. reflexivity.
  - destruct fuel as [ | fuel ]; [ cbn in Hfuel; lia | ].
    cbn [read_agents flat_map agent_items app fst snd restored].
    assert (Hlt : (i <? i + Z.of_nat (List.length ((k, a) :: l))) = true)
      by (apply Z.ltb_lt; cbn [List.length]; lia).
    rewrite Hlt.
    replace (i + Z.of_nat (List.length ((k, a) :: l)))
      with (i + 1 + Z.of_nat (List.length l)) by (cbn [List.length]; lia).
    rewrite IH by (cbn in Hfuel; lia).
    rewrite <- app_assoc. reflexivity.
Qed.

Lemma restored_keys (fresh : Z -> Agent) :
  forall l i, map fst (restored fresh i l) = map fst l.
Proof.
  induction l as [ | [k a] l IH ]; intros i; cbn; [ reflexivity | ].
  now rewrite IH.
Qed.

Lemma find_restored (fresh : Z -> Agent) (e : Entity) :
  forall l i,
    option_map radius (find_agent (restored fresh i l) e)
    = option_map radius (find_agent l e) /\
    option_map height (find_agent (restored fresh i l) e)
    = option_map height (find_agent l e) /\
    forall a,
      find_agent (restored fresh i l) e = Some a ->
      agent a = -1 /\
      exists n, i <= n /\ entity a = entity (fresh n) /\
                is_finished a = is_finished (fresh n).
Proof.
  induction l as [ | [k a] l IH ]; intros i; cbn.
  - repeat split; discriminate.
  - destruct (k =? e).
    + cbn. split; [ reflexivity | split; [ reflexivity | ] ].
      intros b Hb. injection Hb as <-. cbn.
      split; [ reflexivity | ].
      exists i. split; [ lia | split; reflexivity ].
    + destruct (IH (i + 1)) as (Hr & Hh & Hrest).
      split; [ exact Hr | split; [ exact Hh | ] ].
      intros b Hb. destruct (Hrest b Hb) as (Hagent & n & Hn & Hrest').
      split; [ exact Hagent | ].
      exists n. split; [ lia | exact Hrest' ].
Qed.

(** Round trip of the agents: what [serialize] writes, [deserialize] (of a
    version after [AGENTS]) reads back completely, leaving what follows in
    the blob.  The entities that have an agent, in map order, and the
    radius and height of every agent are restored.  Every handle is -1 and
    the crowd is not touched; the [entity] member and the arrived flag of a
    restored agent are never assigned and hold what the allocation left
    there. *)
Theorem serialize_deserialize (fresh : Z -> Agent) (s s' : NavigationSceneImpl)
    (tail : list Item) (version : Z) :
  VERSION_AGENTS < version ->
  exists s2,
    deserialize fresh s' (serialize s [] ++ tail) version = Some (s2, tail) /\
    m_agents s2 = restored fresh 0 (m_agents s) /\
    map fst (m_agents s2) = map fst (m_agents s) /\
    (forall e,
       getAgentRadius s2 e = getAgentRadius s e /\
       getAgentHeight s2 e = getAgentHeight s e) /\
    (forall e a,
       find_agent (m_agents s2) e = Some a ->
       agent a = -1 /\
       exists n, 0 <= n /\ entity a = entity (fresh n) /\
                 is_finished a = is_finished (fresh n)) /\
    m_crowd s2 = m_crowd s'.
Proof.
  intros Hv. apply Z.ltb_lt in Hv.
  exists (set_agents (set_agents s' []) (restored fresh 0 (m_agents s))).
  split.
  - unfold deserialize, serialize. rewrite Hv. cbn [app m_agents set_agents].
    rewrite Nat2Z.id.
    pose proof (read_agents_items fresh tail (m_agents s)
                  (List.length (m_agents s)) 0 [] (le_n _)) as Hread.
    rewrite Z.add_0_l in Hread. rewrite Hread. reflexivity.
  - cbn [m_agents set_agents m_crowd].
    split; [ reflexivity | ].
    split; [ apply restored_keys | ].
    split; [ | split; [ | reflexivity ] ].
    + intros e. unfold getAgentRadius, getAgentHeight. cbn [m_agents set_agents].
      destruct (find_restored fresh e (m_agents s) 0) as (Hr & Hh & _).
      split; assumption.
    + intros e a Hfind.
      destruct (find_restored fresh e (m_agents s) 0) as (_ & _ & Hrest).
      exact (Hrest a Hfind).
Qed.

Lemma read_agents_shape (fresh : Z -> Agent) :
  forall fuel i count input acc agents rest,
    count - i <= Z.of_nat fuel ->
    read_agents fuel fresh i count input acc = Some (agents, rest) ->
    exists added,
      agents = acc ++ added /\
      Forall (fun ka => agent (snd ka) = -1) added /\
      List.length added = Z.to_nat (count - i) /\
      List.length input = (List.length rest + 3 * List.length added)%nat.
Proof.
  induction fuel as [ | fuel IH ]; intros i count input acc agents rest Hfuel Hread.
  - cbn in Hread. injection Hread as <- <-. exists [].
    rewrite app_nil_r. repeat split; [ constructor | cbn; lia | cbn; lia ].
  - cbn in Hread. destruct (i <? count) eqn:Hlt.
    + apply Z.ltb_lt in Hlt.
      destruct input as [ | [ n | e | f ] [ | [ n1 | e1 | r ] [ | [ n2 | e2 | h ] rest0 ] ] ];
        try discriminate.
      apply IH in Hread; [ | lia ].
      destruct Hread as (added & Hagents & Hall & Hlen & Hin).
      exists ((e, mkAgent (entity (fresh i)) r h (-1) (is_finished (fresh i)))
              :: added).
      rewrite <- app_assoc in Hagents. cbn in Hagents.
      repeat split.
      * exact Hagents.
      * constructor; [ reflexivity | exact Hall ].
      * cbn [List.length]. rewrite Hlen.
        replace (count - i) with (Z.succ (count - (i + 1))) by lia.
        rewrite Z2Nat.inj_succ by lia. reflexivity.
      * cbn [List.length]. lia.
    + apply Z.ltb_ge in Hlt. injection Hread as <- <-. exists [].
      rewrite app_nil_r. repeat split; [ constructor | cbn; lia | cbn; lia ].
Qed.

(** [deserialize] of any blob: a version up to [AGENTS] drops all agents
    and reads nothing; a later version reads the count and then three
    values for each agent.  In both cases every agent of the new map has
    the handle -1 and the crowd is the one from before: the agents are not
    added to a crowd that is running. *)
Theorem deserialize_shape (fresh : Z -> Agent) (s s2 : NavigationSceneImpl)
    (input rest : list Item) (version : Z) :
  deserialize fresh s input version = Some (s2, rest) ->
  Forall (fun ka => agent (snd ka) = -1) (m_agents s2) /\
  m_crowd s2 = m_crowd s /\
  (version <= VERSION_AGENTS -> m_agents s2 = [] /\ rest = input) /\
  (VERSION_AGENTS < version ->
   exists count,
     nth_error input 0 = Some (IInt count) /\
     List.length (m_agents s2) = Z.to_nat count /\
     List.length input = (List.length rest + 1 + 3 * Z.to_nat count)%nat).
Proof.
  unfold deserialize. intros Hde.
  destruct (VERSION_AGENTS <? version) eqn:Hv.
  - apply Z.ltb_lt in Hv.
    destruct input as [ | [ count | e | f ] input ]; try discriminate.
    cbn [m_agents set_agents] in Hde.
    destruct (read_agents (Z.to_nat count) fresh 0 count input [])
      as [ [agents rest'] | ] eqn:Hread; [ | discriminate ].
    injection Hde as <- <-.
    apply read_agents_shape in Hread; [ | lia ].
    destruct Hread as (added & Hagents & Hall & Hlen & Hin).
    cbn in Hagents. subst agents. cbn [m_agents set_agents m_crowd].
    rewrite Z.sub_0_r in Hlen.
    repeat split.
    + exact Hall.
    + lia.
    + lia.
    + exists count. repeat split; [ exact Hlen | cbn [List.length]; lia ].
  - apply Z.ltb_ge in Hv. injection Hde as <- <-. cbn.
    repeat split; [ constructor | lia ].
Qed.

(** ** The crowd over the life of a game *)

Lemma remove_all_agents_map (l : list (Entity * Agent)) :
  forall c, snd (remove_all_agents c l) = map unhandled l.
Proof.
  induction l as [ | [k a] l IH ]; intros c; cbn; [ reflexivity | ].
  specialize (IH (dtCrowd_removeAgent c (agent a))).
  destruct (remove_all_agents (dtCrowd_removeAgent c (agent a)) l) as [c2 rest].
  cbn in IH |- *. now rewrite IH.
Qed.

Lemma add_all_agents_spec (u : Universe) (l : list (Entity * Agent)) :
  forall c,
    fst (add_all_agents u c l) = crowd_with u l c /\
    map unhandled (snd (add_all_agents u c l)) = map unhandled l.
Proof.
  induction l as [ | [k a] l IH ]; intros c; cbn; [ split; reflexivity | ].
  unfold addCrowdAgent.
  destruct (dtCrowd_addAgent c (getPosition u (entity a)) (crowd_agent_params a))
    as [c1 idx].
  specialize (IH c1).
  destruct (add_all_agents u c1 l) as [c2 rest].
  cbn in IH |- *. destruct IH as [Hc Hl]. split; [ exact Hc | ].
  now rewrite Hl.
Qed.

Lemma crowd_with_unhandled (u : Universe) (l : list (Entity * Agent)) :
  forall c, crowd_with u (map unhandled l) c = crowd_with u l c.
Proof.
  unfold crowd_with.
  induction l as [ | [k a] l IH ]; intros c; cbn; [ reflexivity | ].
  apply IH.
Qed.

Lemma unhandled_twice (l : list (Entity * Agent)) :
  map unhandled (map unhandled l) = map unhandled l.
Proof. rewrite map_map. apply map_ext. intros [k a]. reflexivity. Qed.

Lemma stopGame_crowd (s : NavigationSceneImpl) : m_crowd (stopGame s) = None.
Proof.
  unfold stopGame. destruct (m_crowd s) as [c | ] eqn:Hc; [ | exact Hc ].
  destruct (remove_all_agents c (m_agents s)). reflexivity.
Qed.

Lemma stopGame_agents (s : NavigationSceneImpl) :
  m_agents (stopGame s)
  = match m_crowd s with
    | Some _ => map unhandled (m_agents s)
    | None => m_agents s
    end.
Proof.
  unfold stopGame. destruct (m_crowd s) as [c | ]; [ | reflexivity ].
  pose proof (remove_all_agents_map (m_agents s) c) as Hmap.
  destruct (remove_all_agents c (m_agents s)) as [c' agents]. exact Hmap.
Qed.

Lemma stopGame_navmesh (s : NavigationSceneImpl) :
  m_navmesh (stopGame s) = m_navmesh s /\ m_navquery (stopGame s) = m_navquery s.
Proof.
  unfold stopGame. destruct (m_crowd s) as [c | ]; [ | split; reflexivity ].
  destruct (remove_all_agents c (m_agents s)). split; reflexivity.
Qed.

(** [stopGame] leaves no crowd.  When there was one, every agent keeps its
    entity, radius, height and arrived flag and gets the handle -1; when
    there was none, the scene is unchanged.  The navmesh and the query stay,
    and stopping twice is the same as stopping once. *)
Theorem stopGame_unregisters (s : NavigationSceneImpl) :
  m_crowd (stopGame s) = None /\
  m_agents (stopGame s)
  = match m_crowd s with
    | Some _ => map unhandled (m_agents s)
    | None => m_agents s
    end /\
  (m_crowd s = None -> stopGame s = s) /\
  m_navmesh (stopGame s) = m_navmesh s /\
  m_navquery (stopGame s) = m_navquery s /\
  stopGame (stopGame s) = stopGame s.
Proof.
  split; [ apply stopGame_crowd | ].
  split; [ apply stopGame_agents | ].
  split; [ intros Hc; unfold stopGame; now rewrite Hc | ].
  split; [ apply stopGame_navmesh | ].
  split; [ apply stopGame_navmesh | ].
  unfold stopGame at 1. now rewrite stopGame_crowd.
Qed.

Lemma startGame_idle (w : World) (s : NavigationSceneImpl) :
  m_navmesh s = None \/ m_crowd s <> None ->
  startGame w s = set_script_scene s (w_script_scene w).
Proof.
  unfold startGame. cbn [m_navmesh m_crowd set_script_scene].
  destruct (m_navmesh s) as [nm | ]; destruct (m_crowd s) as [c | ];
    intros [Hn | Hn]; congruence.
Qed.

Lemma startGame_started (w : World) (s : NavigationSceneImpl) (nm : dtNavMesh)
    (c0 : dtCrowd) (ok : bool) :
  m_navmesh s = Some nm -> m_crowd s = None ->
  dtCrowd_init dtAllocCrowd 1000 (float_of_int 4) (Some nm) = (c0, ok) ->
  m_crowd (startGame w s)
  = (if ok then Some (crowd_with (w_universe w) (m_agents s) c0) else None) /\
  map unhandled (m_agents (startGame w s)) = map unhandled (m_agents s) /\
  (ok = false -> m_agents (startGame w s) = m_agents s) /\
  m_script_scene (startGame w s) = w_script_scene w /\
  m_navmesh (startGame w s) = Some nm.
Proof.
  intros Hnm Hc Hinit. unfold startGame, initCrowd.
  cbn [m_navmesh m_crowd m_agents set_script_scene]. rewrite Hnm, Hc, Hinit.
  destruct (add_all_agents_spec (w_universe w) (m_agents s) c0) as [Hcrowd Hmap].
  destruct ok; cbn.
  - destruct (add_all_agents (w_universe w) c0 (m_agents s)) as [c1 agents].
    cbn in Hcrowd, Hmap |- *. rewrite Hcrowd.
    repeat split; try assumption. discriminate.
  - repeat split; assumption.
Qed.

(** [startGame] takes the script scene of the universe and starts a crowd
    only when there is a navmesh and no crowd yet.  The new crowd holds one
    agent per entry of the agent map, added in map order at the positions
    of the entities; the agents keep everything but their handles.  When
    the crowd cannot be initialised the scene is left without a crowd and
    with the agents as they were. *)
Theorem startGame_crowd (w : World) (s : NavigationSceneImpl) :
  m_script_scene (startGame w s) = w_script_scene w /\
  m_navmesh (startGame w s) = m_navmesh s /\
  map unhandled (m_agents (startGame w s)) = map unhandled (m_agents s) /\
  (m_navmesh s = None \/ m_crowd s <> None ->
   startGame w s = set_script_scene s (w_script_scene w)) /\
  (forall nm,
     m_navmesh s = Some nm -> m_crowd s = None ->
     m_crowd (startGame w s)
     = (let r := dtCrowd_init dtAllocCrowd 1000 (float_of_int 4) (Some nm) in
        if snd r then Some (crowd_with (w_universe w) (m_agents s) (fst r))
        else None) /\
     (snd (dtCrowd_init dtAllocCrowd 1000 (float_of_int 4) (Some nm)) = false ->
      m_agents (startGame w s) = m_agents s)).
Proof.
  assert (Hcases :
    (m_navmesh s = None \/ m_crowd s <> None) \/
    exists nm, m_navmesh s = Some nm /\ m_crowd s = None).
  { destruct (m_navmesh s) as [nm | ]; [ | left; left; reflexivity ].
    destruct (m_crowd s) as [c | ]; [ left; right; discriminate | ].
    right. exists nm. split; reflexivity. }
  destruct Hcases as [Hidle | (nm & Hnm & Hc)].
  - rewrite (startGame_idle w s Hidle).
    cbn [m_script_scene m_navmesh m_agents set_script_scene].
    do 4 (split; [ reflexivity | ]).
    intros nm Hnm Hc. exfalso. destruct Hidle; congruence.
  - destruct (dtCrowd_init dtAllocCrowd 1000 (float_of_int 4) (Some nm))
      as [c0 ok] eqn:Hinit.
    destruct (startGame_started w s nm c0 ok Hnm Hc Hinit)
      as (Hcrowd & Hmap & Hfail & Hscript & Hnav).
    split; [ exact Hscript | ].
    split; [ now rewrite Hnav, Hnm | ].
    split; [ exact Hmap | ].
    split; [ intros [Hn | Hn]; congruence | ].
    intros nm' Hnm'. rewrite Hnm in Hnm'. injection Hnm' as <-. intros _.
    rewrite Hinit. cbn. split; assumption.
Qed.

(** Stopping and starting the game again on a scene with a navmesh builds
    the crowd from scratch: whatever crowd there was, the new one is a
    newly initialised crowd to which every agent of the map was added, and
    the agents keep their entities, radii, heights and arrived flags. *)
Theorem restart_rebuilds_crowd (w : World) (s : NavigationSceneImpl)
    (nm : dtNavMesh) (c0 : dtCrowd) :
  m_navmesh s = Some nm ->
  dtCrowd_init dtAllocCrowd 1000 (float_of_int 4) (Some nm) = (c0, true) ->
  m_crowd (startGame w (stopGame s))
  = Some (crowd_with (w_universe w) (m_agents s) c0) /\
  map unhandled (m_agents (startGame w (stopGame s))) = map unhandled (m_agents s).
Proof.
  intros Hnm Hinit.
  pose proof (stopGame_crowd s) as Hc.
  pose proof (stopGame_agents s) as Hagents.
  destruct (stopGame_navmesh s) as [Hnav _]. rewrite Hnm in Hnav.
  destruct (startGame_started w (stopGame s) nm c0 true Hnav Hc Hinit)
    as (Hcrowd & Hmap & _).
  split.
  - rewrite Hcrowd, Hagents.
    destruct (m_crowd s); [ now rewrite crowd_with_unhandled | reflexivity ].
  - rewrite Hmap, Hagents.
    destruct (m_crowd s); [ apply unhandled_twice | reflexivity ].
Qed.

(** ** What building and loading do to the crowd *)

Ltac split_match :=
  match goal with
  | |- context [match ?x with _ => _ end] =>
      lazymatch x with
      | context [match _ with _ => _ end] => fail
      | negb ?b => destruct b eqn:?
      | _ =>
          lazymatch type of x with
          | option _ => destruct x eqn:?
          | bool => destruct x eqn:?
          | prod _ _ => destruct x as [? ?] eqn:?
          | list _ => destruct x eqn:?
          | Chunk => destruct x eqn:?
          end
      end
  end.

Lemma generateTile_keeps_crowd (w : World) (s : NavigationSceneImpl) (x z : Z)
    (keep_data : bool) :
  m_crowd (fst (generateTile w s x z keep_data)) = m_crowd s.
Proof.
  destruct keep_data; unfold generateTile; repeat (split_match; simpl; auto).
Qed.

Lemma generateTile_keeps_agents (w : World) (s : NavigationSceneImpl) (x z : Z)
    (keep_data : bool) :
  m_agents (fst (generateTile w s x z keep_data)) = m_agents s.
Proof.
  destruct keep_data; unfold generateTile; repeat (split_match; simpl; auto).
Qed.

Lemma generateTile_keeps_scripts (w : World) (s : NavigationSceneImpl) (x z : Z)
    (keep_data : bool) :
  m_script_scene (fst (generateTile w s x z keep_data)) = m_script_scene s.
Proof.
  destruct keep_data; unfold generateTile; repeat (split_match; simpl; auto).
Qed.

Lemma build_tiles_keeps_crowd (w : World) (l : list (Z * Z)) :
  forall s,
    m_crowd (fst (build_tiles w l s)) = m_crowd s /\
    m_agents (fst (build_tiles w l s)) = m_agents s /\
    m_script_scene (fst (build_tiles w l s)) = m_script_scene s.
Proof.
  induction l as [ | [i j] l IH ]; intros s; cbn; [ repeat split | ].
  pose proof (generateTile_keeps_crowd w s i j false) as Hc.
  pose proof (generateTile_keeps_agents w s i j false) as Ha.
  pose proof (generateTile_keeps_scripts w s i j false) as Hs.
  destruct (generateTile w s i j false) as [s' ok]. cbn in Hc, Ha, Hs.
  destruct ok; cbn.
  - destruct (IH s') as (Hc' & Ha' & Hs').
    rewrite Hc', Ha', Hs'. repeat split; assumption.
  - repeat split; assumption.
Qed.

Lemma setup_keeps_agents (w : World) (s : NavigationSceneImpl) :
  m_crowd (fst (generateNavmesh_setup w s)) = None /\
  m_agents (fst (generateNavmesh_setup w s)) = m_agents s /\
  m_script_scene (fst (generateNavmesh_setup w s)) = m_script_scene s.
Proof.
  assert (Hbox : forall s0, exists a, computeAABB w s0 = set_aabb s0 a).
  { intros s0. unfold computeAABB. destruct (w_render_scene w); eexists; reflexivity. }
  unfold generateNavmesh_setup, initNavmesh.
  destruct dtAllocNavMesh as [nm | ]; simpl; [ | repeat split ].
  destruct dtAllocNavMeshQuery as [q | ]; simpl; [ | repeat split ].
  destruct (dtNavMeshQuery_init q nm 2048) as [q' [ | ]]; simpl; [ | repeat split ].
  destruct (Hbox (set_navquery (set_navmesh (clear s) (Some nm)) (Some q')))
    as [a ->].
  cbn [m_aabb set_aabb].
  destruct (rcCalcGridSize (aabb_min a) (aabb_max a) CELL_SIZE) as [gw gh].
  cbn [m_navmesh set_num_tiles set_aabb set_navquery set_navmesh m_num_tiles_x
       m_num_tiles_z m_aabb].
  destruct (dtNavMesh_init nm _) as [nm1 ok]. repeat split.
Qed.

Lemma generateNavmesh_keeps_agents (w : World) (s : NavigationSceneImpl) :
  m_crowd (fst (generateNavmesh w s)) = None /\
  m_agents (fst (generateNavmesh w s)) = m_agents s /\
  m_script_scene (fst (generateNavmesh w s)) = m_script_scene s.
Proof.
  destruct (snd (generateNavmesh_setup w s)) eqn:Hok.
  - rewrite (generateNavmesh_loops w s Hok).
    destruct (build_tiles_keeps_crowd w
                (row_major (m_num_tiles_x (fst (generateNavmesh_setup w s)))
                   (m_num_tiles_z (fst (generateNavmesh_setup w s))))
                (fst (generateNavmesh_setup w s))) as (Hc & Ha & Hs).
    destruct (setup_keeps_agents w s) as (Hc0 & Ha0 & Hs0).
    rewrite Hc, Ha, Hs. repeat split; assumption.
  - unfold generateNavmesh.
    pose proof (setup_keeps_agents w s) as Hsetup.
    destruct (generateNavmesh_setup w s) as [s0 ok]. cbn in Hok. subst ok.
    cbn. exact Hsetup.
Qed.

(** [generateNavmesh] never starts a crowd: whether it succeeds or fails,
    the scene it leaves has no crowd, while the agent map (with the handles
    into the crowd that [clear] freed) and the script scene are as before.
    A game that was running is thereby halted: [update] changes nothing and
    [navigate] fails for every entity. *)
Theorem generateNavmesh_drops_crowd (w : World) (s : NavigationSceneImpl)
    (time_delta : float) (paused : bool) :
  m_crowd (fst (generateNavmesh w s)) = None /\
  m_agents (fst (generateNavmesh w s)) = m_agents s /\
  m_script_scene (fst (generateNavmesh w s)) = m_script_scene s /\
  update (fst (generateNavmesh w s)) time_delta paused
  = Some (fst (generateNavmesh w s), []) /\
  (forall e dest speed,
     navigate (fst (generateNavmesh w s)) e dest speed
     = Some (fst (generateNavmesh w s), false)).
Proof.
  destruct (generateNavmesh_keeps_agents w s) as (Hc & Ha & Hs).
  split; [ exact Hc | ]. split; [ exact Ha | ]. split; [ exact Hs | ].
  split.
  - unfold update. now rewrite Hc.
  - intros e dest speed. unfold navigate. rewrite Hc.
    destruct (m_navquery (fst (generateNavmesh w s))); reflexivity.
Qed.

(** A [load] that succeeds always ends by starting a crowd on the loaded
    navmesh: the scene then has a navmesh, a query and a newly initialised
    crowd to which every agent of the map was added in map order; the
    agents keep everything but their handles. *)
Theorem load_starts_crowd (w : World) (fs : FileSystem) (s s' : NavigationSceneImpl)
    (path : string) :
  load w fs s path = Some (s', true) ->
  exists nm c0,
    m_navmesh s' = Some nm /\
    m_navquery s' <> None /\
    dtCrowd_init dtAllocCrowd 1000 (float_of_int 4) (Some nm) = (c0, true) /\
    m_crowd s' = Some (crowd_with (w_universe w) (m_agents s) c0) /\
    map unhandled (m_agents s') = map unhandled (m_agents s).
Proof.
  unfold load, initNavmesh, initCrowd.
  remember (float_of_int 4) as four eqn:Hfour.
  destruct (fs_lookup fs path) as [file | ]; [ | discriminate ].
  destruct dtAllocNavMesh as [nm | ]; simpl; [ | discriminate ].
  destruct dtAllocNavMeshQuery as [q | ]; simpl; [ | discriminate ].
  destruct (dtNavMeshQuery_init q nm 2048) as [q' [ | ]]; simpl; [ | discriminate ].
  destruct file as [ | [ aabb | | | ] [ | [ | nx | | ] [ | [ | nz | | ]
                     [ | [ | | params | ] tiles ] ] ] ];
    simpl; try discriminate.
  destruct (dtNavMesh_init nm params) as [nm1 [ | ]]; simpl; [ | discriminate ].
  destruct (load_rows (Z.to_nat nz) nm1 tiles nx nz 0)
    as [ [ [nm2 rest] [ | ] ] | ]; simpl; try discriminate.
  destruct (dtCrowd_init dtAllocCrowd 1000 four (Some nm2)) as [c [ | ]] eqn:Hinit;
    simpl; [ | discriminate ].
  destruct (add_all_agents_spec (w_universe w) (m_agents s) c) as [Hcrowd Hmap].
  destruct (add_all_agents (w_universe w) c (m_agents s)) as [c' agents].
  cbn in Hcrowd, Hmap.
  intros H. injection H as <-. simpl.
  exists nm2, c. rewrite Hcrowd.
  repeat split; try assumption; try reflexivity. discriminate.
Qed.

(** ** Moving entities and stepping without a registered agent *)

Lemma find_unhandled (l : list (Entity * Agent)) (e : Entity) :
  find_agent (map unhandled l) e
  = option_map (fun a => with_agent a (-1)) (find_agent l e).
Proof.
  induction l as [ | [k a] l IH ]; cbn; [ reflexivity | ].
  destruct (k =? e); [ reflexivity | exact IH ].
Qed.

Lemma onEntityMoved_no_crowd (u : Universe) (s : NavigationSceneImpl)
    (e : Entity) (a : Agent) :
  m_crowd s = None -> find_agent (m_agents s) e = Some a ->
  onEntityMoved u s e = None.
Proof. intros Hc Hfind. unfold onEntityMoved. now rewrite Hfind, Hc. Qed.

(** The handler of the universe's transform signal reads the crowd without
    a null check.  It is therefore undefined for an entity that has an
    agent whenever the scene has no crowd: for a component created before
    the game is started, after [stopGame], and after [generateNavmesh]. *)
Theorem onEntityMoved_needs_crowd (u u' : Universe) (w : World)
    (s : NavigationSceneImpl) (e : Entity) :
  (m_crowd s = None -> onEntityMoved u' (createComponent u s e) e = None) /\
  (forall a,
     find_agent (m_agents s) e = Some a ->
     onEntityMoved u (stopGame s) e = None /\
     onEntityMoved u (fst (generateNavmesh w s)) e = None).
Proof.
  split.
  - intros Hc.
    assert (Hfind : exists a,
              find_agent (m_agents (createComponent u s e)) e = Some a).
    { unfold createComponent. rewrite Hc. cbn. rewrite find_agent_app. cbn.
      rewrite Z.eqb_refl. destruct (find_agent (m_agents s) e); eexists; reflexivity. }
    destruct Hfind as [a Hfind].
    apply onEntityMoved_no_crowd with (a := a); [ | exact Hfind ].
    unfold createComponent. rewrite Hc. exact Hc.
  - intros a Hfind. split.
    + destruct (m_crowd s) as [c | ] eqn:Hc.
      * apply onEntityMoved_no_crowd with (a := with_agent a (-1)).
        -- apply stopGame_crowd.
        -- rewrite stopGame_agents, Hc, find_unhandled, Hfind. reflexivity.
      * apply onEntityMoved_no_crowd with (a := a).
        -- apply stopGame_crowd.
        -- rewrite stopGame_agents, Hc. exact Hfind.
    + destruct (generateNavmesh_keeps_agents w s) as (Hc & Ha & _).
      apply onEntityMoved_no_crowd with (a := a); [ exact Hc | ].
      rewrite Ha. exact Hfind.
Qed.

Lemma motion_defined (c1 c2 : dtCrowd) (i : Z) :
  motion (dtCrowd_getAgent c1 i) = motion (dtCrowd_getAgent c2 i) ->
  dtCrowd_getAgent c2 i = None -> dtCrowd_getAgent c1 i = None.
Proof.
  intros Hm Hnone. rewrite Hnone in Hm.
  destruct (dtCrowd_getAgent c1 i); [ discriminate | reflexivity ].
Qed.

Lemma update_agent_crowd (sc : option LuaScriptScene) (c c' : dtCrowd)
    (a a' : Agent) (effs : list Effect) :
  update_agent sc c a = Some (c', a', effs) ->
  c' = c \/ c' = dtCrowd_resetMoveTarget c (agent a).
Proof.
  unfold update_agent. destruct (dtCrowd_getAgent c (agent a)); [ | discriminate ].
  destruct (ca_ncorners d =? 0); [ destruct (negb (is_finished a)) | ];
    intros H; injection H as <- <- <-; auto.
Qed.

Lemma update_agents_unregistered (sc : option LuaScriptScene) (c : dtCrowd) :
  reset_keeps_motion ->
  dtCrowd_getAgent c (-1) = None ->
  forall l c_cur,
    (forall j, motion (dtCrowd_getAgent c_cur j) = motion (dtCrowd_getAgent c j)) ->
    (exists ka, In ka l /\ agent (snd ka) = -1) ->
    update_agents sc c_cur l = None.
Proof.
  intros Hreset Hnone.
  induction l as [ | [k a] l IH ]; intros c_cur Hsame (ka & Hin & Hka).
  - destruct Hin.
  - cbn. destruct (update_agent sc c_cur a) as [ [ [c1 a1] e1 ] | ] eqn:Hstep;
      [ | reflexivity ].
    assert (Hrest : exists ka', In ka' l /\ agent (snd ka') = -1).
    { destruct Hin as [<- | Hin]; [ | exists ka; split; assumption ].
      exfalso. cbn in Hka. unfold update_agent in Hstep. rewrite Hka in Hstep.
      rewrite (motion_defined c_cur c (-1) (Hsame (-1)) Hnone) in Hstep.
      discriminate. }
    rewrite IH; [ reflexivity | | exact Hrest ].
    intros j. destruct (update_agent_crowd sc c_cur c1 a a1 e1 Hstep) as [-> | ->].
    + apply Hsame.
    + rewrite Hreset. apply Hsame.
Qed.

(** When the crowd has no free slot, [addAgent] returns -1 and
    [createComponent] stores this handle.  The next [update] asks the crowd
    for the agent -1, gets null and dereferences it: the step is
    undefined.  (For a crowd library whose [resetMoveTarget] moves no agent
    and whose [getAgent] returns null for the index -1.) *)
Theorem update_after_full_crowd (u : Universe) (s : NavigationSceneImpl)
    (e : Entity) (c c' : dtCrowd) (time_delta : float) (paused : bool) :
  reset_keeps_motion ->
  m_crowd s = Some c ->
  dtCrowd_addAgent c (getPosition u e) (crowd_agent_params (new_agent e)) = (c', -1) ->
  dtCrowd_getAgent (dtCrowd_update c' time_delta) (-1) = None ->
  update (createComponent u s e) time_delta paused = None.
Proof.
  intros Hreset Hc Hadd Hnone.
  unfold update, createComponent, addCrowdAgent. rewrite Hc.
  fold (new_agent e). cbn [entity new_agent]. fold (new_agent e). rewrite Hadd.
  cbn [m_crowd m_agents m_script_scene set_agents set_crowd].
  rewrite (update_agents_unregistered (m_script_scene s)
             (dtCrowd_update c' time_delta) Hreset Hnone); [ reflexivity | | ].
  - intros j. reflexivity.
  - exists (e, with_agent (new_agent e) (-1)). split; [ | reflexivity ].
    apply in_or_app. right. left. reflexivity.
Qed.

(** [deserialize] while a crowd is running leaves agents that the crowd
    does not know: when at least one agent was read, the next [update] is
    undefined.  (For a crowd library as above.) *)
Theorem update_after_deserialize (fresh : Z -> Agent) (s s2 : NavigationSceneImpl)
    (input rest : list Item) (version : Z) (c : dtCrowd) (time_delta : float)
    (paused : bool) :
  reset_keeps_motion ->
  m_crowd s = Some c ->
  dtCrowd_getAgent (dtCrowd_update c time_delta) (-1) = None ->
  deserialize fresh s input version = Some (s2, rest) ->
  m_agents s2 <> [] ->
  update s2 time_delta paused = None.
Proof.
  intros Hreset Hc Hnone Hde Hagents.
  assert (Hshape :
    Forall (fun ka => agent (snd ka) = -1) (m_agents s2) /\ m_crowd s2 = m_crowd s).
  { unfold deserialize in Hde.
    destruct (VERSION_AGENTS <? version).
    - destruct input as [ | [ count | e0 | f ] input ]; try discriminate.
      cbn [m_agents set_agents] in Hde.
      destruct (read_agents (Z.to_nat count) fresh 0 count input [])
        as [ [agents rest'] | ] eqn:Hread; [ | discriminate ].
      injection Hde as <- <-.
      apply read_agents_shape in Hread; [ | lia ].
      destruct Hread as (added & -> & Hall & _). cbn. split; [ exact Hall | reflexivity ].
    - injection Hde as <- <-. cbn. split; [ constructor | reflexivity ]. }
  destruct Hshape as [Hall Hcrowd].
  unfold update. rewrite Hcrowd, Hc.
  rewrite (update_agents_unregistered (m_script_scene s2)
             (dtCrowd_update c time_delta) Hreset Hnone); [ reflexivity | | ].
  - intros j. reflexivity.
  - destruct (m_agents s2) as [ | ka l ]; [ congruence | ].
    exists ka. split; [ left; reflexivity | ].
    inversion Hall; assumption.
Qed.

(** ** What a step changes and what it writes *)

Lemma update_agent_unflagged (sc : option LuaScriptScene) (c c' : dtCrowd)
    (k : Entity) (a a' : Agent) (effs : list Effect) :
  update_agent sc c a = Some (c', a', effs) ->
  unflagged (k, a') = unflagged (k, a).
Proof.
  unfold update_agent. destruct (dtCrowd_getAgent c (agent a)); [ | discriminate ].
  destruct (ca_ncorners d =? 0); [ destruct (negb (is_finished a)) | ];
    intros H; injection H as <- <- <-; reflexivity.
Qed.

Lemma update_agents_unflagged (sc : option LuaScriptScene) :
  forall l c c' l' effs,
    update_agents sc c l = Some (c', l', effs) ->
    map unflagged l' = map unflagged l.
Proof.
  induction l as [ | [k a] l IH ]; intros c c' l' effs Hrun.
  - cbn in Hrun. injection Hrun as <- <- <-. reflexivity.
  - cbn in Hrun.
    destruct (update_agent sc c a) as [ [ [c1 a1] e1 ] | ] eqn:Hstep;
      [ | discriminate ].
    destruct (update_agents sc c1 l) as [ [ [c2 rest] e2 ] | ] eqn:Hrest;
      [ | discriminate ].
    injection Hrun as <- <- <-. cbn [map].
    rewrite (IH _ _ _ _ Hrest).
    now rewrite (update_agent_unflagged sc c c1 k a a1 e1 Hstep).
Qed.


Lemma position_writes_app (x y : list Effect) :
  position_writes (x ++ y) = position_writes x ++ position_writes y.
Proof. unfold position_writes. apply flat_map_app. Qed.

Lemma position_writes_transform (a : Agent) (d : dtCrowdAgent) :
  position_writes (transform_writes a d) = [(entity a, ca_npos d)].
Proof.
  unfold transform_writes, position_writes.
  destruct (fgt (vlength (ca_vel d)) (float_of_int 0)); reflexivity.
Qed.

Lemma update_agent_position (sc : option LuaScriptScene) (c_cur c c' : dtCrowd)
    (a a' : Agent) (effs : list Effect) :
  motion (dtCrowd_getAgent c_cur (agent a)) = motion (dtCrowd_getAgent c (agent a)) ->
  update_agent sc c_cur a = Some (c', a', effs) ->
  map Some (position_writes effs)
  = [option_map (fun d => (entity a, ca_npos d)) (dtCrowd_getAgent c (agent a))].
Proof.
  intros Hm Hstep.
  destruct (update_agent_spec sc c_cur c (entity a) a c' a' effs Hm Hstep)
    as (_ & _ & ->).
  assert (Hdef : dtCrowd_getAgent c (agent a) <> None).
  { intros Hnone. unfold update_agent in Hstep.
    rewrite (motion_defined c_cur c (agent a) Hm Hnone) in Hstep. discriminate. }
  unfold agent_effects. cbn [snd].
  destruct (dtCrowd_getAgent c (agent a)) as [d | ]; [ | congruence ].
  rewrite position_writes_app, position_writes_transform.
  destruct (arriving c a); reflexivity.
Qed.

Lemma update_agents_positions (sc : option LuaScriptScene) (c : dtCrowd) :
  reset_keeps_motion ->
  forall l c_cur c' l' effs,
    (forall j, motion (dtCrowd_getAgent c_cur j) = motion (dtCrowd_getAgent c j)) ->
    update_agents sc c_cur l = Some (c', l', effs) ->
    map Some (position_writes effs)
    = map (fun ka =>
             option_map (fun d => (entity (snd ka), ca_npos d))
               (dtCrowd_getAgent c (agent (snd ka)))) l.
Proof.
  intros Hreset.
  induction l as [ | [k a] l IH ]; intros c_cur c' l' effs Hsame Hrun.
  - cbn in Hrun. injection Hrun as <- <- <-. reflexivity.
  - cbn in Hrun.
    destruct (update_agent sc c_cur a) as [ [ [c1 a1] e1 ] | ] eqn:Hstep;
      [ | discriminate ].
    destruct (update_agents sc c1 l) as [ [ [c2 rest] e2 ] | ] eqn:Hrest;
      [ | discriminate ].
    injection Hrun as <- <- <-.
    rewrite position_writes_app, map_app.
    rewrite (update_agent_position sc c_cur c c1 a a1 e1 (Hsame _) Hstep).
    cbn [map app fst snd]. f_equal.
    apply (IH c1 c2 rest e2); [ | exact Hrest ].
    intros j. destruct (update_agent_crowd sc c_cur c1 a a1 e1 Hstep) as [-> | ->].
    + apply Hsame.
    + rewrite Hreset. apply Hsame.
Qed.


(** ** [onPathFinished] *)

Lemma script_calls_filter (ls : LuaScriptScene) (cmp : ComponentHandle) (c : Z) :
  forall fuel i,
    c - i <= Z.of_nat fuel ->
    script_calls fuel ls cmp i c
    = filter (fun k => ls_hasFunction ls cmp k "onPathFinished")
        (zseq i (Z.to_nat (c - i))).
Proof.
  induction fuel as [ | fuel IH ]; intros i Hfuel.
  - cbn. replace (Z.to_nat (c - i)) with 0%nat by lia. reflexivity.
  - cbn. destruct (i <? c) eqn:Hlt.
    + apply Z.ltb_lt in Hlt.
      replace (Z.to_nat (c - i)) with (S (Z.to_nat (c - (i + 1)))) by lia.
      cbn. rewrite IH by lia.
      destruct (ls_hasFunction ls cmp i "onPathFinished"); reflexivity.
    + apply Z.ltb_ge in Hlt.
      replace (Z.to_nat (c - i)) with 0%nat by lia. reflexivity.
Qed.

(** [onPathFinished] calls the function [onPathFinished] of exactly those
    scripts of the agent's entity that define it, each once and in the
    order of their indices; nothing is called when the scene has no script
    scene or the entity has no script component. *)
Theorem onPathFinished_calls (script_scene : option LuaScriptScene) (a : Agent) :
  (forall k,
     In k (onPathFinished script_scene a) <->
     exists ls cmp,
       script_scene = Some ls /\
       ls_getComponent ls (entity a) = Some cmp /\
       0 <= k < ls_getScriptCount ls cmp /\
       ls_hasFunction ls cmp k "onPathFinished" = true) /\
  NoDup (onPathFinished script_scene a) /\
  (forall ls cmp,
     script_scene = Some ls -> ls_getComponent ls (entity a) = Some cmp ->
     onPathFinished script_scene a
     = filter (fun k => ls_hasFunction ls cmp k "onPathFinished")
         (zseq 0 (Z.to_nat (ls_getScriptCount ls cmp)))).
Proof.
  unfold onPathFinished.
  destruct script_scene as [ls | ].
  2:{ split; [ | split; [ constructor | discriminate ] ].
      intros k. split; [ intros [] | intros (ls & cmp & H & _); discriminate ]. }
  destruct (ls_getComponent ls (entity a)) as [cmp | ] eqn:Hcmp.
  2:{ split; [ | split; [ constructor | ] ].
      - intros k. split; [ intros [] | ].
        intros (ls' & cmp & H & Hc & _). injection H as <-. congruence.
      - intros ls' cmp H. injection H as <-. congruence. }
  rewrite script_calls_filter by lia. rewrite Z.sub_0_r.
  split; [ | split ].
  - intros k. rewrite filter_In, in_zseq. split.
    + intros [Hk Hf]. exists ls, cmp. repeat split; try assumption; lia.
    + intros (ls' & cmp' & H & Hc & Hk & Hf). injection H as <-.
      rewrite Hcmp in Hc. injection Hc as <-. split; [ lia | exact Hf ].
  - apply NoDup_filter. apply NoDup_zseq.
  - intros ls' cmp' H Hc. injection H as <-. rewrite Hcmp in Hc.
    injection Hc as <-. reflexivity.
Qed.

(** ** The polygon flags of a tile *)

Lemma set_nth_length (l : list Z) (v : Z) :
  forall i, List.length (set_nth l i v) = List.length l.
Proof.
  induction l as [ | x l IH ]; intros [ | i ]; cbn; try reflexivity.
  now rewrite IH.
Qed.

Lemma nth_set_nth (l : list Z) (v : Z) :
  forall i k,
    nth k (set_nth l i v) 0
    = if (k =? i)%nat && (i <? List.length l)%nat then v else nth k l 0.
Proof.
  induction l as [ | x l IH ]; intros i k.
  - destruct i; cbn; rewrite Bool.andb_false_r; reflexivity.
  - destruct i as [ | i ], k as [ | k ]; cbn; try reflexivity.
    rewrite IH. reflexivity.
Qed.

Lemma index_set_nth (l : list Z) (v i k : Z) :
  0 <= i -> 0 <= k ->
  index_at (set_nth l (Z.to_nat i) v) k
  = if (k =? i) && (i <? Z.of_nat (List.length l)) then v else index_at l k.
Proof.
  intros Hi Hk. unfold index_at. rewrite nth_set_nth.
  destruct (Z.eq_dec k i) as [-> | Hne].
  - rewrite Nat.eqb_refl, Z.eqb_refl. cbn [andb].
    destruct (i <? Z.of_nat (List.length l)) eqn:Hin.
    + replace (Z.to_nat i <? List.length l)%nat with true
        by (symmetry; apply Nat.ltb_lt; lia).
      reflexivity.
    + replace (Z.to_nat i <? List.length l)%nat with false
        by (symmetry; apply Nat.ltb_ge; lia).
      reflexivity.
  - replace (Z.to_nat k =? Z.to_nat i)%nat with false
      by (symmetry; apply Nat.eqb_neq; lia).
    replace (k =? i) with false by lia. reflexivity.
Qed.

Lemma mark_flags_spec (npolys : Z) (areas : list Z) :
  forall fuel i flags,
    0 <= i -> npolys - i <= Z.of_nat fuel ->
    List.length (mark_flags fuel i npolys areas flags) = List.length flags /\
    forall k,
      0 <= k ->
      index_at (mark_flags fuel i npolys areas flags) k
      = if (i <=? k) && (k <? npolys) && (k <? Z.of_nat (List.length flags))
        then (if index_at areas k =? RC_WALKABLE_AREA then 1 else 0)
        else index_at flags k.
Proof.
  induction fuel as [ | fuel IH ]; intros i flags Hi Hfuel.
  - cbn. split; [ reflexivity | ]. intros k Hk.
    destruct (i <=? k) eqn:H1; [ | reflexivity ].
    destruct (k <? npolys) eqn:H2; [ | reflexivity ]. lia.
  - cbn [mark_flags]. destruct (i <? npolys) eqn:Hlt.
    + apply Z.ltb_lt in Hlt.
      destruct (IH (i + 1)
                  (set_nth flags (Z.to_nat i)
                     (if index_at areas i =? RC_WALKABLE_AREA then 1 else 0)))
        as [Hlen Hget]; [ lia | lia | ].
      rewrite set_nth_length in Hlen, Hget.
      split; [ exact Hlen | ]. intros k Hk. rewrite (Hget k Hk).
      rewrite index_set_nth by lia.
      destruct (k =? i) eqn:H0; destruct (k <? npolys) eqn:H2;
        destruct (k <? Z.of_nat (List.length flags)) eqn:H3;
        destruct (i <? Z.of_nat (List.length flags)) eqn:H6;
        destruct (i + 1 <=? k) eqn:H4; destruct (i <=? k) eqn:H5;
        cbn [andb]; try reflexivity; try lia.
      all: assert (k = i) by lia; subst k; reflexivity.
    + apply Z.ltb_ge in Hlt. split; [ reflexivity | ]. intros k Hk.
      destruct (i <=? k) eqn:H1; [ | reflexivity ].
      destruct (k <? npolys) eqn:H2; [ | reflexivity ]. lia.
Qed.

(** The flag loop of [generateTile]: afterwards a polygon has flag 1
    exactly when its area is the walkable area, and flag 0 otherwise.  The
    flags behind the polygon count and every other field of the polygon
    mesh are as before. *)
Theorem flag_polys_marks_walkable (pm : rcPolyMesh) (k : Z) :
  0 <= k < Z.of_nat (List.length (pm_flags pm)) ->
  index_at (pm_flags (flag_polys pm)) k
  = (if k <? pm_npolys pm
     then (if index_at (pm_areas pm) k =? RC_WALKABLE_AREA then 1 else 0)
     else index_at (pm_flags pm) k) /\
  List.length (pm_flags (flag_polys pm)) = List.length (pm_flags pm) /\
  flag_polys pm = with_flags pm (pm_flags (flag_polys pm)).
Proof.
  intros Hk. unfold flag_polys. cbn [pm_flags with_flags].
  destruct (mark_flags_spec (pm_npolys pm) (pm_areas pm)
              (Z.to_nat (pm_npolys pm)) 0 (pm_flags pm)) as [Hlen Hget];
    [ lia | lia | ].
  split; [ | split; [ exact Hlen | reflexivity ] ].
  rewrite Hget by lia.
  replace (0 <=? k) with true by lia.
  replace (k <? Z.of_nat (List.length (pm_flags pm))) with true by lia.
  rewrite Bool.andb_true_r. reflexivity.
Qed.

(** ** Geometry without a model *)

Lemma renderable_samples_cut (u : Universe) (box : AABB) (r0 : Renderable)
    (post : list Renderable) :
  rend_model r0 = None ->
  forall pre,
    renderable_samples u box (pre ++ r0 :: post) = renderable_samples u box pre.
Proof.
  intros Hnone. induction pre as [ | r pre IH ]; cbn.
  - now rewrite Hnone.
  - destruct (rend_model r) as [model | ]; [ | reflexivity ].
    rewrite IH. reflexivity.
Qed.

(** A renderable without a model is treated in two ways.  The bounding box
    of the navmesh skips it and goes on with the renderables after it; the
    rasterization of meshes stops at it, so that the renderables after it
    are never sampled although they count for the bounding box. *)
Theorem renderable_without_model (u : Universe) (pre post : list Renderable)
    (r0 : Renderable) (terrains : list Terrain)
    (scripts : option LuaScriptScene) (can_create : string -> bool)
    (box : AABB) (s : NavigationSceneImpl) :
  rend_model r0 = None ->
  let world l := mkWorld u (Some (mkRenderScene l terrains)) scripts can_create in
  meshes_samples (world (pre ++ r0 :: post)) box = meshes_samples (world pre) box /\
  computeAABB (world (pre ++ r0 :: post)) s = computeAABB (world (pre ++ post)) s.
Proof.
  intros Hnone world. split.
  - unfold meshes_samples, world. cbn.
    apply renderable_samples_cut. exact Hnone.
  - unfold computeAABB, world. cbn [w_render_scene w_universe rs_renderables rs_terrains].
    rewrite !fold_left_app. cbn [fold_left]. rewrite Hnone. reflexivity.
Qed.

(** ** What a built tile leaves in the scene *)

Lemma generateTile_built (w : World) (s s' : NavigationSceneImpl) (x z : Z)
    (keep_data : bool) :
  generateTile w s x z keep_data = (s', true) ->
  (exists pm dm data,
     tile_pipeline w s x z = Some (pm, dm, data) /\
     m_polymesh s' = Some pm /\ m_detail_mesh s' = Some dm) /\
  m_config s'
  = with_bounds (m_config s) (tile_bmin s x z) (tile_bmax s (tile_bmin s x z)) /\
  (if keep_data
   then m_debug_heightfield s' <> None /\ m_debug_compact_heightfield s' <> None /\
        m_debug_contours s' <> None /\ m_debug_tile_origin s' = tile_bmin s x z
   else m_debug_heightfield s' = None /\ m_debug_compact_heightfield s' = None /\
        m_debug_contours s' = None /\ m_debug_tile_origin s' = m_debug_tile_origin s).
Proof.
  unfold generateTile, tile_pipeline, bind, stage.
  destruct (m_navmesh s) as [nm | ] eqn:Hnm; [ | discriminate ].
  remember (dtNavMesh_removeTile nm (dtNavMesh_getTileRefAt nm x z)) as nm1
    eqn:Hnm1.
  change (tile_bmin (set_navmesh s (Some nm1)) x z) with (tile_bmin s x z).
  remember (tile_bmin s x z) as bmin eqn:Hbmin.
  change (tile_bmax (set_navmesh s (Some nm1)) bmin) with (tile_bmax s bmin).
  remember (tile_bmax s bmin) as bmax eqn:Hbmax.
  destruct keep_data; simpl;
    repeat (split_match; simpl; try discriminate);
    intros H; injection H as <-; simpl;
    (split; [ do 3 eexists; repeat split; reflexivity | ]);
    (split; [ reflexivity | ]);
    repeat split; discriminate || reflexivity.
Qed.

(** After a [generateTile] that succeeds the scene holds the polygon mesh
    and the detail mesh of this tile, and the bounds of the configuration
    are the expanded bounds of this tile.  The three debug buffers are kept
    exactly when [keep_data] was set, together with the tile origin; a call
    without [keep_data] resets them to null and leaves the origin. *)
Theorem generateTile_keeps_data (w : World) (s s' : NavigationSceneImpl) (x z : Z)
    (keep_data : bool) :
  generateTile w s x z keep_data = (s', true) ->
  m_polymesh s' <> None /\ m_detail_mesh s' <> None /\
  cfg_bmin (m_config s') = tile_bmin s x z /\
  cfg_bmax (m_config s') = tile_bmax s (tile_bmin s x z) /\
  (keep_data = true ->
   m_debug_heightfield s' <> None /\ m_debug_compact_heightfield s' <> None /\
   m_debug_contours s' <> None /\ m_debug_tile_origin s' = tile_bmin s x z) /\
  (keep_data = false ->
   m_debug_heightfield s' = None /\ m_debug_compact_heightfield s' = None /\
   m_debug_contours s' = None /\ m_debug_tile_origin s' = m_debug_tile_origin s).
Proof.
  intros Hgen.
  destruct (generateTile_built w s s' x z keep_data Hgen)
    as ((pm & dm & data & _ & Hpm & Hdm) & Hcfg & Hdebug).
  rewrite Hpm, Hdm, Hcfg. cbn [cfg_bmin cfg_bmax with_bounds].
  split; [ discriminate | ]. split; [ discriminate | ].
  split; [ reflexivity | ]. split; [ reflexivity | ].
  destruct keep_data; split; intros H; try discriminate H; exact Hdebug.
Qed.

(** [getPolygonCount] after a [generateNavmesh] that succeeds is the
    polygon count of the tile that was built last, the last one in
    row-major order, not the number of polygons of the navmesh; on an empty
    grid it is 0. *)
Theorem getPolygonCount_after_generateNavmesh (w : World)
    (s s' : NavigationSceneImpl) :
  generateNavmesh w s = (s', true) ->
  let s0 := fst (generateNavmesh_setup w s) in
  let order := row_major (m_num_tiles_x s0) (m_num_tiles_z s0) in
  (order = [] -> getPolygonCount s' = 0) /\
  (forall done x z,
     order = done ++ [(x, z)] ->
     exists s_prev pm dm data,
       build_tiles w done s0 = (s_prev, true) /\
       tile_pipeline w s_prev x z = Some (pm, dm, data) /\
       getPolygonCount s' = pm_npolys pm).
Proof.
  intros Hgen s0 order.
  assert (Hsetup : snd (generateNavmesh_setup w s) = true).
  { unfold generateNavmesh in Hgen.
    destruct (generateNavmesh_setup w s) as [s1 [ | ]]; [ reflexivity | ].
    cbn in Hgen. discriminate. }
  pose proof (generateNavmesh_loops w s Hsetup) as Hrun.
  fold s0 in Hrun. fold order in Hrun. rewrite Hgen in Hrun.
  split.
  - intros Hempty. rewrite Hempty in Hrun. cbn in Hrun. injection Hrun as ->.
    unfold getPolygonCount, s0, generateNavmesh_setup, initNavmesh.
    destruct dtAllocNavMesh as [nm | ]; simpl; [ | reflexivity ].
    destruct dtAllocNavMeshQuery as [q | ]; simpl; [ | reflexivity ].
    destruct (dtNavMeshQuery_init q nm 2048) as [q' [ | ]]; simpl; [ | reflexivity ].
    unfold computeAABB. destruct (w_render_scene w); cbn [m_aabb set_aabb];
      destruct (rcCalcGridSize _ _ _) as [gw gh]; simpl;
      destruct (dtNavMesh_init nm _) as [nm1 ok]; reflexivity.
  - intros done x z Horder. rewrite Horder in Hrun.
    rewrite build_tiles_app in Hrun.
    destruct (build_tiles w done s0) as [s_prev [ | ]] eqn:Hdone; cbn in Hrun;
      [ | discriminate ].
    destruct (generateTile w s_prev x z false) as [s2 [ | ]] eqn:Htile;
      cbn in Hrun; [ | discriminate ].
    injection Hrun as Heq. subst s'.
    destruct (generateTile_built w s_prev s2 x z false Htile)
      as ((pm & dm & data & Hpipe & Hpm & _) & _).
    exists s_prev, pm, dm, data.
    split; [ reflexivity | ]. split; [ exact Hpipe | ].
    unfold getPolygonCount. now rewrite Hpm.
Qed.

(** ** A scene without a navmesh *)

(** After [clear] the scene has no navmesh and keeps its agents, and every
    operation that needs the navmesh or the crowd gives up without
    changing anything: building a tile, saving, navigating and stepping;
    the polygon count is 0, and stopping or starting the game starts no
    crowd. *)
Remark cleared_scene_is_idle (w : World) (fs : FileSystem)
    (s : NavigationSceneImpl) (x z : Z) (keep_data : bool) (pos dest : Vec3)
    (path : string) (e : Entity) (speed time_delta : float) (paused : bool) :
  isNavmeshReady (clear s) = false /\
  m_agents (clear s) = m_agents s /\
  getPolygonCount (clear s) = 0 /\
  generateTile w (clear s) x z keep_data = (clear s, false) /\
  generateTileAt w (clear s) pos keep_data = (clear s, false) /\
  save w fs (clear s) path = Some (fs, false) /\
  navigate (clear s) e dest speed = Some (clear s, false) /\
  update (clear s) time_delta paused = Some (clear s, []) /\
  stopGame (clear s) = clear s /\
  m_crowd (startGame w (clear s)) = None /\
  clear (clear s) = clear s.
Proof. repeat split. Qed.

(** ** The triangles of a sub-mesh *)

Lemma mesh_triangles_length (mtx : Matrix) (model : Model) (indices : list Z)
    (mesh : Mesh) (is_walkable : bool) :
  forall fuel i,
    0 <= i ->
    mesh_indices_count mesh - i <= 3 * Z.of_nat fuel ->
    Z.of_nat (List.length (mesh_triangles fuel mtx model indices mesh is_walkable i))
    = Z.max 0 ((mesh_indices_count mesh - i + 2) / 3).
Proof.
  induction fuel as [ | fuel IH ]; intros i Hi Hfuel.
  - cbn. assert ((mesh_indices_count mesh - i + 2) / 3 <= 0); [ | lia ].
    apply Z.lt_succ_r. apply Z.div_lt_upper_bound; lia.
  - cbn [mesh_triangles]. destruct (i <? mesh_indices_count mesh) eqn:Hlt.
    + apply Z.ltb_lt in Hlt. cbn [List.length]. rewrite Nat2Z.inj_succ.
      rewrite IH by lia.
      replace (mesh_indices_count mesh - i + 2)
        with (mesh_indices_count mesh - (i + 3) + 2 + 1 * 3) by lia.
      rewrite Z.div_add by lia.
      assert (0 <= (mesh_indices_count mesh - (i + 3) + 2) / 3)
        by (apply Z.div_pos; lia).
      lia.
    + apply Z.ltb_ge in Hlt. cbn.
      assert ((mesh_indices_count mesh - i + 2) / 3 <= 0); [ | lia ].
      apply Z.lt_succ_r. apply Z.div_lt_upper_bound; lia.
Qed.

(** A sub-mesh flagged [no_navigation] contributes no triangle.  Any other
    sub-mesh contributes one triangle per started group of three indices:
    an index count that is not a multiple of three still yields a last
    triangle, whose missing corners are read behind the indices of the
    sub-mesh. *)
Theorem mesh_samples_count (mtx : Matrix) (model : Model) (mesh : Mesh) :
  Z.of_nat (List.length (mesh_samples mtx model mesh))
  = if isCustomFlag (mesh_material mesh) no_navigation_flag then 0
    else Z.max 0 ((mesh_indices_count mesh + 2) / 3).
Proof.
  unfold mesh_samples.
  destruct (isCustomFlag (mesh_material mesh) no_navigation_flag); [ reflexivity | ].
  rewrite mesh_triangles_length by lia.
  now rewrite Z.sub_0_r.
Qed.

(** ** Saving *)

Lemma save_tiles_all (nm : dtNavMesh) :
  forall coords,
    (forall c, In c coords -> dtNavMesh_getTileAt nm (fst c) (snd c) <> None) ->
    save_tiles nm coords = Some (flat_map (tile_chunks nm) coords).
Proof.
  induction coords as [ | c coords IH ]; intros Hall; cbn; [ reflexivity | ].
  unfold tile_chunks at 1.
  destruct (dtNavMesh_getTileAt nm (fst c) (snd c)) as [d | ] eqn:Hd.
  - rewrite IH; [ reflexivity | ]. intros c' Hin. apply Hall. right. exact Hin.
  - exfalso. exact (Hall c (or_introl eq_refl) Hd).
Qed.

Lemma save_tiles_missing (nm : dtNavMesh) (c : Z * Z) :
  dtNavMesh_getTileAt nm (fst c) (snd c) = None ->
  forall coords, In c coords -> save_tiles nm coords = None.
Proof.
  intros Hnone. induction coords as [ | c' coords IH ]; intros Hin; [ destruct Hin | ].
  cbn. destruct Hin as [-> | Hin].
  - now rewrite Hnone.
  - destruct (dtNavMesh_getTileAt nm (fst c') (snd c')); [ | reflexivity ].
    now rewrite IH.
Qed.

Lemma save_loops (nm : dtNavMesh) (nx nz : Z) :
  save_rows (Z.to_nat nz) nm nx nz 0 = save_tiles nm (row_major nx nz).
Proof.
  rewrite save_rows_list by lia. rewrite Z.sub_0_r. reflexivity.
Qed.

(** [save] gives up, writing nothing, when the scene has no navmesh or the
    file cannot be created.  Otherwise it writes the box, the grid size,
    the navmesh parameters and then size and data of every tile of the
    grid in row-major order, provided the navmesh holds a tile at every
    coordinate of the grid; if one is missing, [save] dereferences the null
    tile and is undefined. *)
Theorem save_outcome (w : World) (fs : FileSystem) (s : NavigationSceneImpl)
    (path : string) :
  (m_navmesh s = None \/ w_can_create w path = false ->
   save w fs s path = Some (fs, false)) /\
  (forall nm,
     m_navmesh s = Some nm -> w_can_create w path = true ->
     ((forall i j,
         0 <= i < m_num_tiles_x s -> 0 <= j < m_num_tiles_z s ->
         dtNavMesh_getTileAt nm i j <> None) ->
      save w fs s path
      = Some ((path,
               ChAABB (m_aabb s) :: ChInt (m_num_tiles_x s)
               :: ChInt (m_num_tiles_z s) :: ChParams (dtNavMesh_getParams nm)
               :: flat_map (tile_chunks nm)
                    (row_major (m_num_tiles_x s) (m_num_tiles_z s)))
              :: fs, true)) /\
     (forall i j,
        0 <= i < m_num_tiles_x s -> 0 <= j < m_num_tiles_z s ->
        dtNavMesh_getTileAt nm i j = None ->
        save w fs s path = None)).
Proof.
  split.
  - intros [Hnm | Hcreate]; unfold save.
    + now rewrite Hnm.
    + destruct (m_navmesh s); [ | reflexivity ]. now rewrite Hcreate.
  - intros nm Hnm Hcreate. unfold save. rewrite Hnm, Hcreate. cbn [negb].
    rewrite save_loops. split.
    + intros Hall. rewrite save_tiles_all; [ reflexivity | ].
      intros [i j] Hin. apply in_row_major in Hin. apply Hall; tauto.
    + intros i j Hi Hj Hnone.
      rewrite (save_tiles_missing nm (i, j) Hnone); [ reflexivity | ].
      apply in_row_major. tauto.
Qed.

(** ** Loading and saving again *)

Section StoredTiles.

Variable count : dtNavMesh -> Z.
Hypothesis laws : tile_store_laws count.

Lemma load_tiles_stored :
  forall ds coords,
    Forall2 names_tile ds coords ->
    NoDup coords ->
    forall nm_cur nm_fin rest rest',
      load_tiles (List.length ds) nm_cur (flat_map blob_chunks ds ++ rest)
      = Some (nm_fin, rest', true) ->
      rest' = rest /\
      dtNavMesh_getParams nm_fin = dtNavMesh_getParams nm_cur /\
      save_tiles nm_fin coords = Some (flat_map blob_chunks ds) /\
      forall c, ~ In c coords ->
                dtNavMesh_getTileAt nm_fin (fst c) (snd c)
                = dtNavMesh_getTileAt nm_cur (fst c) (snd c).
Proof.
  induction 1 as [ | d c ds coords Hname Hrest IH ];
    intros Hnd nm_cur nm_fin rest rest' Hload.
  - cbn in Hload. injection Hload as <- <-. repeat split.
  - inversion Hnd as [ | ? ? Hnotin Hnd' ]; subst.
    cbn [List.length load_tiles flat_map blob_chunks app] in Hload.
    rewrite Z.eqb_refl in Hload.
    destruct (dtNavMesh_addTile nm_cur d) as [nm1 [ | ]] eqn:Hadd;
      cbn [negb] in Hload; [ | discriminate ].
    destruct (add_result count laws _ _ _ Hadd)
      as (h & Hh & Hat & Hother & _ & Hparams).
    destruct Hname as (h' & Hh' & Hc). rewrite Hh in Hh'. injection Hh' as <-.
    destruct (IH Hnd' nm1 nm_fin rest rest' Hload)
      as (Hrest' & Hp & Hsave & Hout).
    split; [ exact Hrest' | ].
    split; [ now rewrite Hp | ].
    split.
    + cbn [save_tiles flat_map blob_chunks app].
      rewrite (Hout c Hnotin). rewrite <- Hc. cbn [fst snd]. rewrite Hat, Hsave.
      reflexivity.
    + intros c' Hc'. rewrite Hout.
      * apply Hother. rewrite Hc. destruct c'. cbn.
        intros Heq. apply Hc'. left. now rewrite Heq.
      * intros Hin. apply Hc'. right. exact Hin.
Qed.

Lemma load_parts (w : World) (fs : FileSystem) (s s' : NavigationSceneImpl)
    (path : string) (aabb : AABB) (nx nz : Z) (params : dtNavMeshParams)
    (tiles : list Chunk) :
  fs_lookup fs path
  = Some (ChAABB aabb :: ChInt nx :: ChInt nz :: ChParams params :: tiles) ->
  load w fs s path = Some (s', true) ->
  exists nm0 nm1 nm2 rest,
    dtAllocNavMesh = Some nm0 /\
    dtNavMesh_init nm0 params = (nm1, true) /\
    load_rows (Z.to_nat nz) nm1 tiles nx nz 0 = Some (nm2, rest, true) /\
    m_navmesh s' = Some nm2 /\ m_aabb s' = aabb /\
    m_num_tiles_x s' = nx /\ m_num_tiles_z s' = nz.
Proof.
  intros Hfile. unfold load, initNavmesh, initCrowd. rewrite Hfile.
  remember (float_of_int 4) as four eqn:Hfour.
  destruct dtAllocNavMesh as [nm | ]; simpl; [ | discriminate ].
  destruct dtAllocNavMeshQuery as [q | ]; simpl; [ | discriminate ].
  destruct (dtNavMeshQuery_init q nm 2048) as [q' [ | ]]; simpl; [ | discriminate ].
  destruct (dtNavMesh_init nm params) as [nm1 [ | ]] eqn:Hinit; simpl;
    [ | discriminate ].
  destruct (load_rows (Z.to_nat nz) nm1 tiles nx nz 0)
    as [ [ [nm2 rest] [ | ] ] | ] eqn:Hrows; simpl; try discriminate.
  destruct (dtCrowd_init dtAllocCrowd 1000 four (Some nm2)) as [c [ | ]];
    simpl; [ | discriminate ].
  destruct (add_all_agents (w_universe w) c (m_agents s)) as [c' agents].
  intros H. injection H as <-. simpl.
  exists nm, nm1, nm2, rest. repeat split; assumption.
Qed.

(** Saving what was loaded writes the file again.  When the blobs of a
    file are stored in row-major order of the tile coordinates their
    headers name, a [load] of the file that succeeds followed by a [save]
    writes the same box, grid size, parameters and blobs; what follows the
    last tile in the file is not read and not written.  (For a tile store
    that keeps the laws [tile_store_laws].) *)
Theorem load_save_roundtrip (w w' : World) (fs fs' : FileSystem)
    (s s' : NavigationSceneImpl) (path path' : string) (aabb : AABB) (nx nz : Z)
    (params : dtNavMeshParams) (ds : list blob) (rest : list Chunk) :
  fs_lookup fs path
  = Some (ChAABB aabb :: ChInt nx :: ChInt nz :: ChParams params
          :: flat_map blob_chunks ds ++ rest) ->
  Forall2 names_tile ds (row_major nx nz) ->
  load w fs s path = Some (s', true) ->
  w_can_create w' path' = true ->
  save w' fs' s' path'
  = Some ((path',
           ChAABB aabb :: ChInt nx :: ChInt nz :: ChParams params
           :: flat_map blob_chunks ds) :: fs', true).
Proof.
  intros Hfile Hnames Hload Hcreate.
  destruct (load_parts w fs s s' path aabb nx nz params _ Hfile Hload)
    as (nm0 & nm1 & nm2 & rest' & _ & Hinit & Hrows & Hnm & Haabb & Hnx & Hnz).
  rewrite load_rows_list in Hrows by lia. rewrite Z.sub_0_r in Hrows.
  rewrite <- row_major_length in Hrows.
  rewrite <- (Forall2_length Hnames) in Hrows.
  destruct (load_tiles_stored ds (row_major nx nz) Hnames (NoDup_row_major nx nz)
              nm1 nm2 rest rest' Hrows) as (_ & Hparams & Hsave & _).
  destruct (init_fresh count laws _ _ _ Hinit) as (Hp1 & _).
  unfold save. rewrite Hnm, Hcreate, Haabb, Hnx, Hnz. cbn [negb].
  rewrite save_loops, Hsave, Hparams, Hp1. reflexivity.
Qed.

(** [generateTile] and [generateTileAt] replace one tile of the store: a
    call that succeeds leaves at the tile coordinate a tile whose header
    names this coordinate, and leaves the tiles at all other coordinates
    and the parameters of the navmesh as they were.  [generateTileAt]
    builds the tile whose coordinate it computes from the x and z of the
    position; the y of the position plays no part.  (For a tile store that
    keeps the laws [tile_store_laws].) *)
Theorem generateTileAt_replaces_one_tile (w : World) (s s' : NavigationSceneImpl)
    (pos : Vec3) (keep_data : bool) (nm : dtNavMesh) :
  generateTileAt w s pos keep_data = (s', true) ->
  m_navmesh s = Some nm ->
  exists x z nm',
    generateTile w s x z keep_data = (s', true) /\
    (forall y, generateTileAt w s (mkVec3 (vx pos) y (vz pos)) keep_data
               = generateTile w s x z keep_data) /\
    m_navmesh s' = Some nm' /\
    tile_ok nm' (x, z) /\
    dtNavMesh_getParams nm' = dtNavMesh_getParams nm /\
    forall c, c <> (x, z) ->
              dtNavMesh_getTileAt nm' (fst c) (snd c)
              = dtNavMesh_getTileAt nm (fst c) (snd c).
Proof.
  unfold generateTileAt. intros Hgen Hnm.
  destruct (generateTile_tile count laws w s s' _ _ keep_data nm Hgen Hnm)
    as (nm' & Hnm' & Hok & Hparams & Hother).
  do 2 eexists. exists nm'.
  split; [ exact Hgen | ].
  split; [ intros y; reflexivity | ].
  repeat split; assumption.
Qed.

End StoredTiles.

End Coverage.

(** * Properties of the debug drawings *)

Section DebugProperties.

Context {E : Engine} {R : Recast} {D : Detour} {RD : RecastData}.

(** ** [debugDrawContours] *)

Lemma contour_lines_chain (orig : Vec3) (cs ch : float) (c : rcContour)
    (color : Z) (start : Vec3) :
  forall fuel j prev lines last,
    contour_lines fuel orig cs ch c color j prev = (lines, last) ->
    chain start prev (lines ++ [DebugLine last start color]) /\
    Forall (fun x => exists a b, x = DebugLine a b color) lines.
Proof.
  induction fuel as [ | fuel IH ]; intros j prev lines last Hrun.
  - cbn in Hrun. injection Hrun as <- <-. cbn. repeat split. constructor.
  - cbn in Hrun. destruct (j <? ct_nverts c).
    + destruct (contour_lines fuel orig cs ch c color (j + 1)
                  (contour_vertex orig cs ch (ct_verts c) (j * 4)))
        as [rest last'] eqn:Hrest.
      injection Hrun as <- <-.
      destruct (IH _ _ _ _ Hrest) as [Hchain Hall].
      cbn. repeat split; [ exact Hchain | ].
      constructor; [ eexists; eexists; reflexivity | exact Hall ].
    + injection Hrun as <- <-. cbn. repeat split. constructor.
Qed.

Lemma contour_lines_length (orig : Vec3) (cs ch : float) (c : rcContour)
    (color : Z) :
  forall fuel j prev,
    ct_nverts c - j <= Z.of_nat fuel ->
    List.length (fst (contour_lines fuel orig cs ch c color j prev))
    = Z.to_nat (ct_nverts c - j).
Proof.
  induction fuel as [ | fuel IH ]; intros j prev Hfuel.
  - cbn. lia.
  - cbn. destruct (j <? ct_nverts c) eqn:Hlt.
    + apply Z.ltb_lt in Hlt.
      specialize (IH (j + 1) (contour_vertex orig cs ch (ct_verts c) (j * 4))).
      destruct (contour_lines fuel orig cs ch c color (j + 1)
                  (contour_vertex orig cs ch (ct_verts c) (j * 4)))
        as [rest last']. cbn in IH |- *. rewrite IH by lia. lia.
    + apply Z.ltb_ge in Hlt. cbn. lia.
Qed.

Lemma draw_contour_closed (orig : Vec3) (cs ch : float) (i : Z) (c : rcContour) :
  2 <= ct_nverts c ->
  Z.of_nat (List.length (draw_contour orig cs ch i c)) = ct_nverts c /\
  chain (contour_vertex orig cs ch (ct_verts c) 0)
    (contour_vertex orig cs ch (ct_verts c) 0) (draw_contour orig cs ch i c) /\
  Forall (fun x =>
            exists a b,
              x = DebugLine a b (if Z.land i 1 =? 0 then COLOR_CONTOUR_EVEN
                                 else COLOR_CONTOUR_ODD))
    (draw_contour orig cs ch i c).
Proof.
  intros Hn. unfold draw_contour.
  replace (ct_nverts c <? 2) with false by lia.
  set (color := if Z.land i 1 =? 0 then COLOR_CONTOUR_EVEN else COLOR_CONTOUR_ODD).
  set (first := contour_vertex orig cs ch (ct_verts c) 0).
  pose proof (contour_lines_length orig cs ch c color (Z.to_nat (ct_nverts c)) 1
                first ltac:(lia)) as Hlen.
  destruct (contour_lines (Z.to_nat (ct_nverts c)) orig cs ch c color 1 first)
    as [lines prev] eqn:Hrun.
  destruct (contour_lines_chain orig cs ch c color first _ _ _ _ _ Hrun)
    as [Hchain Hall].
  cbn in Hlen. split; [ | split ].
  - rewrite length_app. cbn. lia.
  - exact Hchain.
  - apply Forall_app. split; [ exact Hall | ].
    constructor; [ eexists; eexists; reflexivity | constructor ].
Qed.

Lemma draw_contours_length (orig : Vec3) (cs ch : float) :
  forall l i,
    Z.of_nat (List.length (draw_contours orig cs ch i l))
    = fold_right Z.add 0
        (map (fun c => if ct_nverts c <? 2 then 0 else ct_nverts c) l).
Proof.
  induction l as [ | c l IH ]; intros i; cbn [draw_contours map fold_right];
    [ reflexivity | ].
  rewrite length_app, Nat2Z.inj_add, IH.
  destruct (ct_nverts c <? 2) eqn:Hlt.
  - unfold draw_contour. rewrite Hlt. reflexivity.
  - apply Z.ltb_ge in Hlt.
    now rewrite (proj1 (draw_contour_closed orig cs ch i c Hlt)).
Qed.

(** [debugDrawContours] draws nothing without a renderer or without kept
    contours.  Otherwise a contour with fewer than two vertices is skipped
    and a contour with [n >= 2] vertices is drawn as [n] lines of one
    colour (by the parity of its index) that form a closed chain: the
    first line starts at the first vertex, every line starts where the one
    before ended, and the last line ends at the first vertex again. *)
Theorem debugDrawContours_closed_chains (w : World) (s : NavigationSceneImpl) :
  (w_render_scene w = None \/ m_debug_contours s = None ->
   debugDrawContours w s = []) /\
  (forall rs cset,
     w_render_scene w = Some rs -> m_debug_contours s = Some cset ->
     Z.of_nat (List.length (debugDrawContours w s))
     = fold_right Z.add 0
         (map (fun c => if ct_nverts c <? 2 then 0 else ct_nverts c)
            (cset_conts cset))) /\
  (forall orig cs ch i c,
     (ct_nverts c < 2 -> draw_contour orig cs ch i c = []) /\
     (2 <= ct_nverts c ->
      Z.of_nat (List.length (draw_contour orig cs ch i c)) = ct_nverts c /\
      chain (contour_vertex orig cs ch (ct_verts c) 0)
        (contour_vertex orig cs ch (ct_verts c) 0) (draw_contour orig cs ch i c) /\
      Forall (fun x =>
                exists a b,
                  x = DebugLine a b (if Z.land i 1 =? 0 then COLOR_CONTOUR_EVEN
                                     else COLOR_CONTOUR_ODD))
        (draw_contour orig cs ch i c))).
Proof.
  split; [ | split ].
  - unfold debugDrawContours. intros [Hr | Hc].
    + now rewrite Hr.
    + rewrite Hc. destruct (w_render_scene w); reflexivity.
  - intros rs cset Hr Hc. unfold debugDrawContours. rewrite Hr, Hc.
    apply draw_contours_length.
  - intros orig cs ch i c. split.
    + intros Hlt. unfold draw_contour.
      replace (ct_nverts c <? 2) with true by lia. reflexivity.
    + apply draw_contour_closed.
Qed.

(** ** [debugDrawNavmesh] *)

Lemma poly_fan_count (vertices : list Vec3) (n : Z) :
  forall fuel i,
    n - i <= Z.of_nat fuel ->
    List.length (filter is_triangle (poly_fan fuel vertices i n)) = Z.to_nat (n - i) /\
    filter is_line (poly_fan fuel vertices i n) = [] /\
    Forall (fun x => exists b c, x = DebugTriangle (vertex_at vertices 0) b c
                                       COLOR_POLY_FILL)
      (poly_fan fuel vertices i n).
Proof.
  induction fuel as [ | fuel IH ]; intros i Hfuel.
  - cbn. repeat split; [ lia | constructor ].
  - cbn [poly_fan]. destruct (i <? n) eqn:Hlt.
    + apply Z.ltb_lt in Hlt. destruct (IH (i + 1)) as (Hlen & Hnone & Hall); [ lia | ].
      cbn. rewrite Hlen, Hnone. repeat split; [ lia | ].
      constructor; [ eexists; eexists; reflexivity | exact Hall ].
    + apply Z.ltb_ge in Hlt. cbn. repeat split; [ lia | constructor ].
Qed.

Lemma poly_edges_count (vertices : list Vec3) (n : Z) :
  forall fuel i,
    n - i <= Z.of_nat fuel ->
    List.length (filter is_line (poly_edges fuel vertices i n)) = Z.to_nat (n - i) /\
    filter is_triangle (poly_edges fuel vertices i n) = [].
Proof.
  induction fuel as [ | fuel IH ]; intros i Hfuel.
  - cbn. split; [ lia | reflexivity ].
  - cbn [poly_edges]. destruct (i <? n) eqn:Hlt.
    + apply Z.ltb_lt in Hlt. destruct (IH (i + 1)) as (Hlen & Hnone); [ lia | ].
      cbn. rewrite Hlen, Hnone. split; [ lia | reflexivity ].
    + apply Z.ltb_ge in Hlt. cbn. split; [ lia | reflexivity ].
Qed.

Lemma draw_poly_counts (vertices : list Vec3) :
  1 <= Z.of_nat (List.length vertices) <= 6 ->
  exists prims,
    draw_poly vertices = Some prims /\
    Z.of_nat (List.length (filter is_triangle prims))
    = Z.max 0 (Z.of_nat (List.length vertices) - 2) /\
    Z.of_nat (List.length (filter is_line prims)) = Z.of_nat (List.length vertices).
Proof.
  intros Hn. unfold draw_poly.
  set (n := Z.of_nat (List.length vertices)) in *.
  replace ((n =? 0) || (6 <? n)) with false
    by (symmetry; apply Bool.orb_false_iff; split; lia).
  eexists. split; [ reflexivity | ].
  destruct (poly_fan_count vertices n (Z.to_nat n) 2) as (Hf1 & Hf2 & _); [ lia | ].
  destruct (poly_edges_count vertices n (Z.to_nat n) 1) as (He1 & He2); [ lia | ].
  rewrite !filter_app, !length_app, Hf1, Hf2, He1, He2. cbn. lia.
Qed.

Lemma draw_polys_counts (mesh : rcPolyMesh) :
  forall fuel idx,
    0 <= idx ->
    pm_npolys mesh - idx <= Z.of_nat fuel ->
    (forall k, idx <= k < pm_npolys mesh -> 1 <= poly_size mesh k <= 6) ->
    exists prims,
      draw_polys fuel mesh idx = Some prims /\
      Z.of_nat (List.length (filter is_triangle prims))
      = fold_right Z.add 0
          (map (fun k => Z.max 0 (poly_size mesh k - 2))
             (zseq idx (Z.to_nat (pm_npolys mesh - idx)))) /\
      Z.of_nat (List.length (filter is_line prims))
      = fold_right Z.add 0
          (map (poly_size mesh) (zseq idx (Z.to_nat (pm_npolys mesh - idx)))).
Proof.
  induction fuel as [ | fuel IH ]; intros idx Hidx Hfuel Hsize.
  - cbn. replace (Z.to_nat (pm_npolys mesh - idx)) with 0%nat by lia.
    exists []. repeat split.
  - cbn [draw_polys]. destruct (idx <? pm_npolys mesh) eqn:Hlt.
    + apply Z.ltb_lt in Hlt.
      destruct (draw_poly_counts
                  (poly_vertices (Z.to_nat (pm_nvp mesh)) mesh
                     (idx * pm_nvp mesh * 2) 0)) as (prims & Hdraw & Ht & Hl).
      { apply (Hsize idx). lia. }
      destruct (IH (idx + 1)) as (rest & Hrest & Ht' & Hl'); [ lia | lia | | ].
      { intros k Hk. apply Hsize. lia. }
      rewrite Hdraw, Hrest. eexists. split; [ reflexivity | ].
      replace (Z.to_nat (pm_npolys mesh - idx))
        with (S (Z.to_nat (pm_npolys mesh - (idx + 1)))) by lia.
      cbn [zseq map fold_right].
      rewrite !filter_app, !length_app, !Nat2Z.inj_add, Ht, Hl, Ht', Hl'.
      unfold poly_size. split; reflexivity.
    + apply Z.ltb_ge in Hlt.
      replace (Z.to_nat (pm_npolys mesh - idx)) with 0%nat by lia.
      exists []. repeat split.
Qed.

Lemma draw_polys_empty_poly (mesh : rcPolyMesh) (k : Z) :
  poly_size mesh k = 0 ->
  forall fuel idx,
    pm_npolys mesh - idx <= Z.of_nat fuel ->
    idx <= k < pm_npolys mesh ->
    draw_polys fuel mesh idx = None.
Proof.
  intros Hempty. induction fuel as [ | fuel IH ]; intros idx Hfuel Hk; [ lia | ].
  cbn [draw_polys]. replace (idx <? pm_npolys mesh) with true by lia.
  destruct (Z.eq_dec idx k) as [-> | Hne].
  - unfold poly_size in Hempty. unfold draw_poly. rewrite Hempty. reflexivity.
  - rewrite IH by lia.
    destruct (draw_poly _); reflexivity.
Qed.

(** [debugDrawNavmesh] draws nothing without a polygon mesh or without a
    renderer.  Otherwise, when every polygon has between one and six
    vertices, a polygon with [k] vertices is drawn as a fan of [k - 2]
    triangles and [k] edge lines, so the drawing has the sums of these
    over the polygons; and when some polygon has no vertex at all, the
    closing edge reads in front of the local vertex array and the function
    is undefined. *)
Theorem debugDrawNavmesh_counts (w : World) (s : NavigationSceneImpl) :
  (m_polymesh s = None \/ w_render_scene w = None ->
   debugDrawNavmesh w s = Some []) /\
  (forall mesh rs,
     m_polymesh s = Some mesh -> w_render_scene w = Some rs ->
     ((forall k, 0 <= k < pm_npolys mesh -> 1 <= poly_size mesh k <= 6) ->
      exists prims,
        debugDrawNavmesh w s = Some prims /\
        Z.of_nat (List.length (filter is_triangle prims))
        = fold_right Z.add 0
            (map (fun k => Z.max 0 (poly_size mesh k - 2))
               (zseq 0 (Z.to_nat (pm_npolys mesh)))) /\
        Z.of_nat (List.length (filter is_line prims))
        = fold_right Z.add 0
            (map (poly_size mesh) (zseq 0 (Z.to_nat (pm_npolys mesh))))) /\
     (forall k,
        0 <= k < pm_npolys mesh -> poly_size mesh k = 0 ->
        debugDrawNavmesh w s = None)).
Proof.
  split.
  - unfold debugDrawNavmesh. intros [Hm | Hr].
    + now rewrite Hm.
    + rewrite Hr. destruct (m_polymesh s); reflexivity.
  - intros mesh rs Hm Hr. unfold debugDrawNavmesh. rewrite Hm, Hr. split.
    + intros Hsize.
      destruct (draw_polys_counts mesh (Z.to_nat (pm_npolys mesh)) 0)
        as (prims & Hdraw & Ht & Hl); [ lia | lia | exact Hsize | ].
      rewrite Z.sub_0_r in Ht, Hl. exists prims. repeat split; assumption.
    + intros k Hk Hempty.
      apply (draw_polys_empty_poly mesh k Hempty); lia.
Qed.

(** ** [debugDrawHeightfield] and [debugDrawCompactHeightfield] *)

Lemma heightfield_row_cells (hf : rcHeightfield) (orig : Vec3) (z : Z) :
  forall fuel x,
    hf_width hf - x <= Z.of_nat fuel ->
    heightfield_row fuel hf orig z x
    = flat_map (fun c => heightfield_cell hf orig (fst c) (snd c))
        (map (fun i => (i, z)) (zseq x (Z.to_nat (hf_width hf - x)))).
Proof.
  induction fuel as [ | fuel IH ]; intros x Hfuel.
  - cbn. replace (Z.to_nat (hf_width hf - x)) with 0%nat by lia. reflexivity.
  - cbn [heightfield_row]. destruct (x <? hf_width hf) eqn:Hlt.
    + apply Z.ltb_lt in Hlt.
      replace (Z.to_nat (hf_width hf - x))
        with (S (Z.to_nat (hf_width hf - (x + 1)))) by lia.
      cbn [zseq map flat_map fst snd]. now rewrite IH by lia.
    + apply Z.ltb_ge in Hlt.
      replace (Z.to_nat (hf_width hf - x)) with 0%nat by lia. reflexivity.
Qed.

Lemma heightfield_rows_cells (hf : rcHeightfield) (orig : Vec3) :
  forall fuel z,
    hf_height hf - z <= Z.of_nat fuel ->
    heightfield_rows fuel hf orig z
    = flat_map (fun c => heightfield_cell hf orig (fst c) (snd c))
        (flat_map (fun j => map (fun i => (i, j)) (zseq 0 (Z.to_nat (hf_width hf))))
           (zseq z (Z.to_nat (hf_height hf - z)))).
Proof.
  induction fuel as [ | fuel IH ]; intros z Hfuel.
  - cbn. replace (Z.to_nat (hf_height hf - z)) with 0%nat by lia. reflexivity.
  - cbn [heightfield_rows]. destruct (z <? hf_height hf) eqn:Hlt.
    + apply Z.ltb_lt in Hlt.
      replace (Z.to_nat (hf_height hf - z))
        with (S (Z.to_nat (hf_height hf - (z + 1)))) by lia.
      cbn [zseq flat_map]. rewrite flat_map_app, IH by lia.
      rewrite heightfield_row_cells by lia. now rewrite Z.sub_0_r.
    + apply Z.ltb_ge in Hlt.
      replace (Z.to_nat (hf_height hf - z)) with 0%nat by lia. reflexivity.
Qed.

Lemma emit_app (l1 l2 : list (list DebugDraw)) :
  forall r,
    emit (l1 ++ l2) r
    = let '(o1, r1, s1) := emit l1 r in
      if s1 then (o1, r1, true)
      else let '(o2, r2, s2) := emit l2 r1 in (o1 ++ o2, r2, s2).
Proof.
  induction l1 as [ | t l1 IH ]; intros r.
  - cbn. destruct (emit l2 r) as [ [o2 r2] s2 ]. reflexivity.
  - cbn [emit app]. destruct (MAX_CUBES <? r + 1); [ reflexivity | ].
    rewrite IH. destruct (emit l1 (r + 1)) as [ [o1 r1] s1 ].
    destruct s1; [ reflexivity | ].
    destruct (emit l2 r1) as [ [o2 r2] s2 ]. now rewrite app_assoc.
Qed.

Lemma compact_cell_emit (chf : rcCompactHeightfield) (orig : Vec3)
    (px pz : float) (ni : Z) :
  forall fuel i r,
    ni - i <= Z.of_nat fuel ->
    compact_cell fuel chf orig px pz i ni r
    = emit (map (fun k =>
                   compact_span_triangles orig px pz (chf_cs chf) (chf_ch chf)
                     (index_at (chf_spans chf) k))
              (zseq i (Z.to_nat (ni - i)))) r.
Proof.
  induction fuel as [ | fuel IH ]; intros i r Hfuel.
  - cbn. replace (Z.to_nat (ni - i)) with 0%nat by lia. reflexivity.
  - cbn [compact_cell]. destruct (i <? ni) eqn:Hlt.
    + apply Z.ltb_lt in Hlt.
      replace (Z.to_nat (ni - i)) with (S (Z.to_nat (ni - (i + 1)))) by lia.
      cbn [zseq map emit]. destruct (MAX_CUBES <? r + 1); [ reflexivity | ].
      now rewrite IH by lia.
    + apply Z.ltb_ge in Hlt.
      replace (Z.to_nat (ni - i)) with 0%nat by lia. reflexivity.
Qed.

Lemma compact_row_emit (chf : rcCompactHeightfield) (orig : Vec3) (y : Z) :
  forall fuel x r,
    chf_width chf - x <= Z.of_nat fuel ->
    compact_row fuel chf orig y x r
    = emit (flat_map (compact_cell_spans chf orig)
              (map (fun i => (i, y)) (zseq x (Z.to_nat (chf_width chf - x))))) r.
Proof.
  induction fuel as [ | fuel IH ]; intros x r Hfuel.
  - cbn. replace (Z.to_nat (chf_width chf - x)) with 0%nat by lia. reflexivity.
  - cbn [compact_row]. destruct (x <? chf_width chf) eqn:Hlt.
    + apply Z.ltb_lt in Hlt.
      replace (Z.to_nat (chf_width chf - x))
        with (S (Z.to_nat (chf_width chf - (x + 1)))) by lia.
      cbn [zseq map flat_map]. rewrite emit_app.
      rewrite compact_cell_emit by lia.
      unfold compact_cell_spans at 1. cbn [fst snd].
      replace (cc_index (compact_cell_at chf x y) + cc_count (compact_cell_at chf x y)
               - cc_index (compact_cell_at chf x y))
        with (cc_count (compact_cell_at chf x y)) by lia.
      destruct (emit _ r) as [ [o1 r1] s1 ].
      destruct s1; [ reflexivity | ]. now rewrite IH by lia.
    + apply Z.ltb_ge in Hlt.
      replace (Z.to_nat (chf_width chf - x)) with 0%nat by lia. reflexivity.
Qed.

Lemma compact_rows_emit (chf : rcCompactHeightfield) (orig : Vec3) :
  forall fuel y r,
    chf_height chf - y <= Z.of_nat fuel ->
    compact_rows fuel chf orig y r
    = emit (flat_map (compact_cell_spans chf orig)
              (flat_map (fun j => map (fun i => (i, j))
                                    (zseq 0 (Z.to_nat (chf_width chf))))
                 (zseq y (Z.to_nat (chf_height chf - y))))) r.
Proof.
  induction fuel as [ | fuel IH ]; intros y r Hfuel.
  - cbn. replace (Z.to_nat (chf_height chf - y)) with 0%nat by lia. reflexivity.
  - cbn [compact_rows]. destruct (y <? chf_height chf) eqn:Hlt.
    + apply Z.ltb_lt in Hlt.
      replace (Z.to_nat (chf_height chf - y))
        with (S (Z.to_nat (chf_height chf - (y + 1)))) by lia.
      cbn [zseq flat_map]. rewrite flat_map_app, emit_app.
      rewrite compact_row_emit by lia. rewrite Z.sub_0_r.
      destruct (emit _ r) as [ [o1 r1] s1 ].
      destruct s1; [ reflexivity | ]. now rewrite IH by lia.
    + apply Z.ltb_ge in Hlt.
      replace (Z.to_nat (chf_height chf - y)) with 0%nat by lia. reflexivity.
Qed.

Lemma emit_firstn (spans : list (list DebugDraw)) :
  Forall (fun t => List.length t = 2%nat) spans ->
  forall r,
    0 <= r <= MAX_CUBES ->
    fst (fst (emit spans r))
    = firstn (Z.to_nat (2 * (MAX_CUBES + 1 - r))) (List.concat spans).
Proof.
  induction 1 as [ | t spans Ht Hall IH ]; intros r Hr.
  - cbn [emit fst List.concat]. now rewrite firstn_nil.
  - cbn [emit List.concat]. rewrite firstn_app, Ht.
    rewrite (firstn_all2 (n := Z.to_nat (2 * (MAX_CUBES + 1 - r))) t)
      by (rewrite Ht; lia).
    destruct (MAX_CUBES <? r + 1) eqn:Hfull.
    + apply Z.ltb_lt in Hfull. cbn [fst].
      replace (Z.to_nat (2 * (MAX_CUBES + 1 - r)) - 2)%nat with 0%nat by lia.
      cbn [firstn]. now rewrite app_nil_r.
    + apply Z.ltb_ge in Hfull.
      specialize (IH (r + 1) ltac:(lia)).
      destruct (emit spans (r + 1)) as [ [out r'] stop ]. cbn [fst] in IH |- *.
      rewrite IH. f_equal. f_equal. lia.
Qed.

Lemma compact_spans_pairs (chf : rcCompactHeightfield) (orig : Vec3) :
  Forall (fun t => List.length t = 2%nat) (compact_spans chf orig).
Proof.
  unfold compact_spans. apply Forall_flat_map. apply Forall_forall. intros c _.
  unfold compact_cell_spans. apply Forall_map. apply Forall_forall. intros k _.
  reflexivity.
Qed.

(** The two heightfield drawings draw nothing without a renderer or
    without the kept buffer.  [debugDrawHeightfield] draws, cell by cell in
    row-major order, a solid and a wire cube for every span.
    [debugDrawCompactHeightfield] draws two triangles for every span in the
    same order, but stops after 65536 spans: the drawing is the first
    131072 triangles of the complete one. *)
Theorem debugDraw_heightfields (w : World) (s : NavigationSceneImpl) :
  (w_render_scene w = None ->
   debugDrawHeightfield w s = [] /\ debugDrawCompactHeightfield w s = []) /\
  (m_debug_heightfield s = None -> debugDrawHeightfield w s = []) /\
  (m_debug_compact_heightfield s = None -> debugDrawCompactHeightfield w s = []) /\
  (forall rs hf,
     w_render_scene w = Some rs -> m_debug_heightfield s = Some hf ->
     debugDrawHeightfield w s = heightfield_cubes hf (m_debug_tile_origin s)) /\
  (forall rs chf,
     w_render_scene w = Some rs -> m_debug_compact_heightfield s = Some chf ->
     debugDrawCompactHeightfield w s
     = firstn (Z.to_nat (2 * 65536))
         (List.concat (compact_spans chf (m_debug_tile_origin s))) /\
     Z.of_nat (List.length (debugDrawCompactHeightfield w s)) <= 2 * 65536).
Proof.
  unfold debugDrawHeightfield, debugDrawCompactHeightfield.
  split; [ intros ->; split; reflexivity | ].
  split; [ intros ->; destruct (w_render_scene w); reflexivity | ].
  split; [ intros ->; destruct (w_render_scene w); reflexivity | ].
  split.
  - intros rs hf -> ->. rewrite heightfield_rows_cells by lia.
    rewrite Z.sub_0_r. reflexivity.
  - intros rs chf -> ->.
    assert (Heq : fst (fst (compact_rows (Z.to_nat (chf_height chf)) chf
                              (m_debug_tile_origin s) 0 0))
                  = firstn (Z.to_nat (2 * 65536))
                      (List.concat (compact_spans chf (m_debug_tile_origin s)))).
    { rewrite compact_rows_emit by lia. rewrite Z.sub_0_r.
      change (flat_map (compact_cell_spans chf (m_debug_tile_origin s))
                (flat_map (fun j => map (fun i => (i, j))
                                      (zseq 0 (Z.to_nat (chf_width chf))))
                   (zseq 0 (Z.to_nat (chf_height chf)))))
        with (compact_spans chf (m_debug_tile_origin s)).
      rewrite (emit_firstn _ (compact_spans_pairs chf (m_debug_tile_origin s)) 0)
        by (unfold MAX_CUBES; lia).
      reflexivity. }
    rewrite Heq. split; [ reflexivity | ].
    pose proof (firstn_le_length (Z.to_nat (2 * 65536))
                  (List.concat (compact_spans chf (m_debug_tile_origin s)))) as Hle.
    lia.
Qed.

End DebugProperties.

(** * Arrival, resynchronisation and sampling *)

Section Steps.

Context {E : Engine} {R : Recast} {D : Detour}.

(** ** The constructor *)

(** The constructor leaves a cleared scene without agents and with an empty
    grid; the script scene, the box, the tile origin and the bounds of the
    configuration are those of the storage it was given. *)
Remark construct_keeps_storage (raw : NavigationSceneImpl) :
  is_cleared (construct raw) = true /\
  m_agents (construct raw) = [] /\
  (m_num_tiles_x (construct raw), m_num_tiles_z (construct raw)) = (0, 0) /\
  m_script_scene (construct raw) = m_script_scene raw /\
  m_aabb (construct raw) = m_aabb raw /\
  m_debug_tile_origin (construct raw) = m_debug_tile_origin raw /\
  cfg_bmin (m_config (construct raw)) = cfg_bmin (m_config raw) /\
  cfg_bmax (m_config (construct raw)) = cfg_bmax (m_config raw).
Proof. repeat split. Qed.

(** ** One step seen from one entry of the agent map *)

Lemma onPathFinished_listeners (script_scene : option LuaScriptScene) (a : Agent) :
  onPathFinished script_scene a = listeners script_scene (entity a).
Proof.
  unfold onPathFinished, listeners. destruct script_scene as [ls | ]; [ | reflexivity ].
  destruct (ls_getComponent ls (entity a)) as [cmp | ]; [ | reflexivity ].
  rewrite script_calls_filter by lia. rewrite Z.sub_0_r. reflexivity.
Qed.

Lemma path_finished_writes (a : Agent) (d : dtCrowdAgent) :
  path_finished (transform_writes a d) = [].
Proof.
  unfold path_finished, transform_writes. cbn [filter is_path_finished].
  destruct (fgt _ _); reflexivity.
Qed.

Lemma path_finished_agent (script_scene : option LuaScriptScene) (c : dtCrowd)
    (k : Entity) (a : Agent) (n : Z) :
  corners c a = Some n ->
  path_finished (agent_effects script_scene c (k, a))
  = if (n =? 0) && negb (is_finished a)
    then [PathFinished (entity a) (listeners script_scene (entity a))]
    else [].
Proof.
  unfold corners, agent_effects, arriving, corners. cbn [snd].
  destruct (dtCrowd_getAgent c (agent a)) as [d | ]; cbn [option_map];
    [ | discriminate ].
  intros H. injection H as <-.
  unfold path_finished. rewrite filter_app.
  fold (path_finished (transform_writes a d)). rewrite path_finished_writes.
  destruct ((ca_ncorners d =? 0) && negb (is_finished a)); [ | reflexivity ].
  cbn [filter is_path_finished app]. rewrite onPathFinished_listeners. reflexivity.
Qed.

(** One step of [update] seen from the [i]-th entry of the agent map: the
    effects of the step are those of the entries in map order, the entry
    keeps its place and its key and is settled, and its own effects hold
    one notification exactly when it arrives. *)
Lemma update_step_at (s s' : NavigationSceneImpl) (time_delta : float)
    (paused : bool) (effects : list Effect) (i : nat) (k : Entity) (a : Agent)
    (n : Z) :
  reset_keeps_motion ->
  update s time_delta paused = Some (s', effects) ->
  nth_error (m_agents s) i = Some (k, a) ->
  seen_corners s time_delta a = Some n ->
  effects = flat_map (step_effects s time_delta) (m_agents s) /\
  nth_error (m_agents s') i = Some (k, with_is_finished a (n =? 0)) /\
  path_finished (step_effects s time_delta (k, a))
  = (if (n =? 0) && negb (is_finished a)
     then [PathFinished (entity a) (listeners (m_script_scene s) (entity a))]
     else []) /\
  m_script_scene s' = m_script_scene s /\
  m_crowd s'
  = option_map
      (fun c =>
         fold_left dtCrowd_resetMoveTarget (step_resets s time_delta)
           (dtCrowd_update c time_delta))
      (m_crowd s) /\
  ((n =? 0) && negb (is_finished a) = true ->
   In (agent a) (step_resets s time_delta)).
Proof.
  intros Hlaw Hup Hnth Hn. unfold seen_corners in Hn.
  unfold step_effects, step_resets.
  destruct (m_crowd s) as [c | ] eqn:Hc; [ | discriminate ].
  destruct (update_spec s s' c time_delta paused effects Hlaw Hc Hup)
    as (Hcrowd & Hag & Heff & Hsc).
  split; [ exact Heff | ].
  split.
  { rewrite Hag, nth_error_map, Hnth. cbn [option_map]. unfold settle.
    cbn [fst snd]. rewrite Hn. reflexivity. }
  split; [ apply path_finished_agent; exact Hn | ].
  split; [ exact Hsc | ].
  split; [ exact Hcrowd | ].
  intros Harr. eapply arrivals_in; [ eapply nth_error_In; exact Hnth | ].
  unfold arriving. rewrite Hn. exact Harr.
Qed.

(** ** Arrival is notified once *)


(** ** [navigate] and the arrived flag *)


(** ** [onEntityMoved] *)

(** What [onEntityMoved] does for a live agent stored under the moved
    entity [e]: the position of [e] is compared with the simulated position.
    Above the tolerance the agent is removed and [addCrowdAgent] adds it
    again, at the position of the entity recorded in the agent, and the
    record gets the new handle; otherwise the scene is unchanged. *)
Lemma onEntityMoved_outcome (u : Universe) (s : NavigationSceneImpl) (e : Entity)
    (a : Agent) (c : dtCrowd) (dt_agent : dtCrowdAgent) :
  find_agent (m_agents s) e = Some a ->
  m_crowd s = Some c ->
  dtCrowd_getAgent c (agent a) = Some dt_agent ->
  onEntityMoved u s e
  = if fgt (squaredLength (vsub (getPosition u e) (ca_npos dt_agent)))
         RESYNC_TOLERANCE
    then
      Some (set_agents
              (set_crowd s
                 (Some (fst (dtCrowd_addAgent (dtCrowd_removeAgent c (agent a))
                               (getPosition u (entity a)) (crowd_agent_params a)))))
              (store_agent (m_agents s) e
                 (with_agent a
                    (snd (dtCrowd_addAgent (dtCrowd_removeAgent c (agent a))
                            (getPosition u (entity a)) (crowd_agent_params a))))))
    else Some s.
Proof.
  intros Hfind Hc Hget. unfold onEntityMoved, addCrowdAgent.
  rewrite Hfind, Hc, Hget.
  destruct (fgt _ RESYNC_TOLERANCE); [ | reflexivity ].
  destruct (dtCrowd_addAgent _ _ _) as [c2 idx]. reflexivity.
Qed.

(** Setting the radius of a live agent changes the record only: the crowd,
    and with it the parameters the agent is simulated with, stays as it is,
    also across a move of the entity within the tolerance.  A move beyond
    the tolerance adds the agent again; when the crowd had a slot for it,
    the crowd agent then stands at the position of the entity recorded in
    the agent and has the new radius, the query ranges derived from it and
    the old height.  The crowd library is assumed to keep the position and
    the parameters [addAgent] is given. *)
Theorem setAgentRadius_reaches_crowd_on_resync (u : Universe)
    (s : NavigationSceneImpl) (e : Entity) (a : Agent) (c : dtCrowd)
    (dt_agent : dtCrowdAgent) (r : float) :
  add_stores ->
  find_agent (m_agents s) e = Some a ->
  m_crowd s = Some c ->
  dtCrowd_getAgent c (agent a) = Some dt_agent ->
  exists s1,
    setAgentRadius s e r = Some s1 /\
    m_crowd s1 = Some c /\
    find_agent (m_agents s1) e = Some (with_radius a r) /\
    (fgt (squaredLength (vsub (getPosition u e) (ca_npos dt_agent)))
         RESYNC_TOLERANCE = false ->
     onEntityMoved u s1 e = Some s1) /\
    (fgt (squaredLength (vsub (getPosition u e) (ca_npos dt_agent)))
         RESYNC_TOLERANCE = true ->
     exists s2 c2 h,
       onEntityMoved u s1 e = Some s2 /\
       m_crowd s2 = Some c2 /\
       find_agent (m_agents s2) e = Some (with_agent (with_radius a r) h) /\
       (0 <= h ->
        exists d,
          dtCrowd_getAgent c2 h = Some d /\
          ca_npos d = getPosition u (entity a) /\
          ap_radius (ca_params d) = r /\
          ap_height (ca_params d) = height a /\
          ap_collisionQueryRange (ca_params d) = fmul r (float_of_int 12) /\
          ap_pathOptimizationRange (ca_params d) = fmul r (float_of_int 30))).
Proof.
  intros Hstore Hfind Hc Hget.
  exists (set_agents s (store_agent (m_agents s) e (with_radius a r))).
  assert (Hfind1 : find_agent (store_agent (m_agents s) e (with_radius a r)) e
                   = Some (with_radius a r))
    by (exact (find_store_agent _ _ _ _ Hfind)).
  split; [ unfold setAgentRadius; rewrite Hfind; reflexivity | ].
  split; [ exact Hc | ].
  split; [ exact Hfind1 | ].
  pose proof (onEntityMoved_outcome u
                (set_agents s (store_agent (m_agents s) e (with_radius a r))) e
                (with_radius a r) c dt_agent Hfind1 Hc Hget) as Hmove.
  split.
  - intros Hnear. rewrite Hmove, Hnear. reflexivity.
  - intros Hfar. rewrite Hfar in Hmove.
    destruct (dtCrowd_addAgent (dtCrowd_removeAgent c (agent (with_radius a r)))
                (getPosition u (entity (with_radius a r)))
                (crowd_agent_params (with_radius a r))) as [c2 h] eqn:Hadd.
    cbn [fst snd] in Hmove.
    eexists. exists c2, h.
    split; [ exact Hmove | ].
    split; [ reflexivity | ].
    split.
    { cbn [m_agents set_agents set_crowd].
      exact (find_store_agent _ _ _ _ Hfind1). }
    intros Hh. destruct (Hstore _ _ _ _ _ Hadd Hh) as (d & Hd & Hpos & Hpar).
    exists d. rewrite Hpar, Hpos. repeat split; try reflexivity. exact Hd.
Qed.

End Steps.

Section Sampling.

Context {E : Engine} {R : Recast} {D : Detour}.

(** ** The loops of the samplers as lists *)

Lemma mesh_triangles_map (mtx : Matrix) (model : Model) (indices : list Z)
    (mesh : Mesh) (is_walkable : bool) :
  forall fuel t0,
    mesh_indices_count mesh - 3 * t0 <= Z.of_nat fuel ->
    mesh_triangles fuel mtx model indices mesh is_walkable (3 * t0)
    = map (fun t => mesh_triangle mtx model indices mesh is_walkable (3 * t))
        (zseq t0 (Z.to_nat ((mesh_indices_count mesh + 2) / 3 - t0))).
Proof.
  induction fuel as [ | fuel IH ]; intros t0 Hfuel.
  - assert (Hn : Z.to_nat ((mesh_indices_count mesh + 2) / 3 - t0) = 0%nat)
      by (Z.div_mod_to_equations; lia).
    rewrite Hn. reflexivity.
  - cbn [mesh_triangles]. destruct (3 * t0 <? mesh_indices_count mesh) eqn:Hlt.
    + apply Z.ltb_lt in Hlt.
      assert (Hn : Z.to_nat ((mesh_indices_count mesh + 2) / 3 - t0)
                   = S (Z.to_nat ((mesh_indices_count mesh + 2) / 3 - (t0 + 1))))
        by (Z.div_mod_to_equations; lia).
      rewrite Hn. cbn [zseq map].
      replace (3 * t0 + 3) with (3 * (t0 + 1)) by lia.
      rewrite IH by lia. reflexivity.
    + apply Z.ltb_ge in Hlt.
      assert (Hn : Z.to_nat ((mesh_indices_count mesh + 2) / 3 - t0) = 0%nat)
        by (Z.div_mod_to_equations; lia).
      rewrite Hn. reflexivity.
Qed.

Lemma mesh_samples_spec (mtx : Matrix) (model : Model) (mesh : Mesh) :
  mesh_samples mtx model mesh
  = if navigable mesh then sub_mesh_triangles mtx model mesh else [].
Proof.
  unfold mesh_samples, navigable, sub_mesh_triangles, walkable_material,
    model_indices, triangle_count.
  destruct (isCustomFlag (mesh_material mesh) no_navigation_flag); cbn [negb];
    [ reflexivity | ].
  pose proof (mesh_triangles_map mtx model
                (if model_is16 model then model_indices16 model
                 else model_indices32 model) mesh
                (negb (isCustomFlag (mesh_material mesh) nonwalkable_flag))
                (Z.to_nat (mesh_indices_count mesh)) 0 ltac:(lia)) as H.
  change (3 * 0) with 0 in H. rewrite Z.sub_0_r in H. exact H.
Qed.

Lemma flat_map_if_filter {A B : Type} (f : A -> list B) (p : A -> bool) (l : list A) :
  flat_map (fun x => if p x then f x else []) l = flat_map f (filter p l).
Proof.
  induction l as [ | x l IH ]; [ reflexivity | ].
  cbn [flat_map filter]. destruct (p x); cbn [flat_map app]; rewrite IH; reflexivity.
Qed.

Lemma renderable_samples_spec (u : Universe) (aabb : AABB) (l : list Renderable) :
  renderable_samples u aabb l = sampled_mesh_triangles u aabb l.
Proof.
  unfold sampled_mesh_triangles.
  induction l as [ | r l IH ]; [ reflexivity | ].
  cbn [renderable_samples candidates].
  destruct (rend_model r) as [model | ]; [ | reflexivity ].
  cbn [filter]. unfold instance_overlaps at 1. cbn [fst snd].
  destruct (aabb_overlaps (aabb_transform (model_aabb model)
                             (getMatrix u (rend_entity r))) aabb);
    cbn [negb]; [ | exact IH ].
  cbn [flat_map fst snd]. rewrite IH. f_equal.
  rewrite <- flat_map_if_filter. apply flat_map_ext. intros mesh.
  apply mesh_samples_spec.
Qed.

Lemma terrain_row_spec (t : Terrain) (pos : Vec3) (rot : Quat) (to_x j : Z) :
  forall fuel i,
    to_x - i <= Z.of_nat fuel ->
    terrain_row fuel t pos rot i to_x j
    = flat_map (fun i' => terrain_cell t pos rot i' j)
        (zseq i (Z.to_nat (to_x - i))).
Proof.
  induction fuel as [ | fuel IH ]; intros i Hfuel.
  - replace (Z.to_nat (to_x - i)) with 0%nat by lia. reflexivity.
  - cbn [terrain_row]. destruct (i <? to_x) eqn:Hlt.
    + apply Z.ltb_lt in Hlt.
      replace (Z.to_nat (to_x - i)) with (S (Z.to_nat (to_x - (i + 1)))) by lia.
      cbn [zseq flat_map]. rewrite IH by lia. reflexivity.
    + apply Z.ltb_ge in Hlt.
      replace (Z.to_nat (to_x - i)) with 0%nat by lia. reflexivity.
Qed.

Lemma terrain_rows_spec (t : Terrain) (pos : Vec3) (rot : Quat)
    (from_x to_x to_z : Z) :
  forall fuel j,
    to_z - j <= Z.of_nat fuel ->
    terrain_rows fuel t pos rot from_x to_x j to_z
    = flat_map
        (fun j' =>
           flat_map (fun i => terrain_cell t pos rot i j')
             (zseq from_x (Z.to_nat (to_x - from_x))))
        (zseq j (Z.to_nat (to_z - j))).
Proof.
  induction fuel as [ | fuel IH ]; intros j Hfuel.
  - replace (Z.to_nat (to_z - j)) with 0%nat by lia. reflexivity.
  - cbn [terrain_rows]. destruct (j <? to_z) eqn:Hlt.
    + apply Z.ltb_lt in Hlt.
      replace (Z.to_nat (to_z - j)) with (S (Z.to_nat (to_z - (j + 1)))) by lia.
      cbn [zseq flat_map]. rewrite IH by lia.
      rewrite terrain_row_spec by lia. reflexivity.
    + apply Z.ltb_ge in Hlt.
      replace (Z.to_nat (to_z - j)) with 0%nat by lia. reflexivity.
Qed.

Lemma terrain_samples_spec (u : Universe) (aabb : AABB) (t : Terrain) :
  terrain_samples u aabb t = terrain_triangles u aabb t.
Proof.
  unfold terrain_samples, terrain_triangles, terrain_window.
  rewrite terrain_rows_spec by lia. reflexivity.
Qed.

(** ** What is sampled, and how it is classified *)

Lemma in_sampled_mesh_triangles (u : Universe) (aabb : AABB) (l : list Renderable)
    (smp : Sample) :
  In smp (sampled_mesh_triangles u aabb l) <->
  exists model e mesh t,
    In (model, e) (candidates l) /\
    instance_overlaps u aabb (model, e) = true /\
    In mesh (lod_meshes model) /\
    isCustomFlag (mesh_material mesh) no_navigation_flag = false /\
    0 <= t /\ 3 * t < mesh_indices_count mesh /\
    smp = mesh_triangle (getMatrix u e) model (model_indices model) mesh
            (walkable_material mesh) (3 * t).
Proof.
  unfold sampled_mesh_triangles. rewrite in_flat_map. split.
  - intros ([model e] & Hme & Hin). apply filter_In in Hme.
    destruct Hme as [Hc Ho]. cbn [fst snd] in Hin.
    apply in_flat_map in Hin. destruct Hin as (mesh & Hmesh & Hin).
    apply filter_In in Hmesh. destruct Hmesh as [Hl Hnav].
    unfold sub_mesh_triangles in Hin. apply in_map_iff in Hin.
    destruct Hin as (t & Heq & Ht). apply in_zseq in Ht.
    unfold triangle_count in Ht.
    exists model, e, mesh, t.
    split; [ exact Hc | ]. split; [ exact Ho | ]. split; [ exact Hl | ].
    split; [ unfold navigable in Hnav; apply Bool.negb_true_iff in Hnav; exact Hnav | ].
    split; [ lia | ].
    split; [ Z.div_mod_to_equations; lia | ].
    symmetry. exact Heq.
  - intros (model & e & mesh & t & Hc & Ho & Hl & Hnav & Ht0 & Ht & ->).
    exists (model, e). split; [ apply filter_In; auto | ].
    cbn [fst snd]. apply in_flat_map. exists mesh. split.
    + apply filter_In. split; [ exact Hl | ].
      unfold navigable. rewrite Hnav. reflexivity.
    + unfold sub_mesh_triangles. apply in_map_iff. exists t.
      split; [ reflexivity | ]. apply in_zseq. unfold triangle_count.
      Z.div_mod_to_equations; lia.
Qed.

Lemma in_terrain_triangles (u : Universe) (aabb : AABB) (t : Terrain) (smp : Sample) :
  In smp (terrain_triangles u aabb t) <->
  exists from_x to_x from_z to_z i j,
    terrain_window u aabb t = (from_x, to_x, from_z, to_z) /\
    from_x <= i < to_x /\ from_z <= j < to_z /\
    In smp (terrain_cell t (getPosition u (terrain_entity t))
              (getRotation u (terrain_entity t)) i j).
Proof.
  unfold terrain_triangles.
  destruct (terrain_window u aabb t) as [ [ [from_x to_x] from_z ] to_z ].
  rewrite in_flat_map. split.
  - intros (j & Hj & Hin). apply in_flat_map in Hin.
    destruct Hin as (i & Hi & Hin). apply in_zseq in Hj. apply in_zseq in Hi.
    exists from_x, to_x, from_z, to_z, i, j.
    split; [ reflexivity | ]. split; [ lia | ]. split; [ lia | exact Hin ].
  - intros (fx & tx & fz & tz & i & j & Heq & Hi & Hj & Hin).
    injection Heq as <- <- <- <-.
    exists j. split; [ apply in_zseq; lia | ].
    apply in_flat_map. exists i. split; [ apply in_zseq; lia | exact Hin ].
Qed.


(** Without a renderer nothing is sampled: the heightfield is returned as
    it was passed. *)
Lemma rasterizeGeometry_no_renderer (w : World) (aabb : AABB) (solid : rcHeightfield) :
  w_render_scene w = None -> rasterizeGeometry w aabb solid = solid.
Proof.
  intros Hrs.
  unfold rasterizeGeometry, rasterizeTerrains, rasterizeMeshes, meshes_samples,
    terrains_samples. rewrite Hrs. reflexivity.
Qed.

End Sampling.

(** * The properties on concrete scenes *)

Import RefLib.

(** C1, counterexample: in [Demo.world2] the grid is 2 x 1; tile (0,0) is
    built, tile (1,0) has no polygons and its encoding is refused.
    [generateNavmesh] returns failure and the scene is not cleared: the
    navmesh object is still there and holds tile (0,0) but not tile (1,0). *)
Lemma generateNavmesh_failure_keeps_partial_store :
  snd (generateNavmesh Demo.world2 new_scene) = false /\
  is_cleared (fst (generateNavmesh Demo.world2 new_scene)) = false /\
  row_major (m_num_tiles_x (fst (generateNavmesh Demo.world2 new_scene)))
            (m_num_tiles_z (fst (generateNavmesh Demo.world2 new_scene)))
    = [(0, 0); (1, 0)] /\
  option_map (fun nm => (dtNavMesh_getTileAt nm 0 0, dtNavMesh_getTileAt nm 1 0))
    (m_navmesh (fst (generateNavmesh Demo.world2 new_scene)))
    = Some (Some [0; 0; 1; 3], None).
Proof. vm_compute. repeat split. Qed.

(** C1 on [Demo.world2]: the set-up succeeds there, and the run is the
    row-major traversal of the 2 x 1 grid. *)
Lemma generateNavmesh_row_major_abort_witness :
  snd (generateNavmesh_setup Demo.world2 new_scene) = true /\
  generateNavmesh Demo.world2 new_scene =
  build_tiles Demo.world2
    (row_major
       (m_num_tiles_x (fst (generateNavmesh_setup Demo.world2 new_scene)))
       (m_num_tiles_z (fst (generateNavmesh_setup Demo.world2 new_scene))))
    (fst (generateNavmesh_setup Demo.world2 new_scene)).
Proof.
  assert (H : snd (generateNavmesh_setup Demo.world2 new_scene) = true)
    by (vm_compute; reflexivity).
  split; [ exact H | ].
  exact (proj1 (generateNavmesh_row_major_abort Demo.world2 new_scene H)).
Defined.

(** C5, counterexample: tile (1,0) of [Demo.world2].  The navmesh is
    initialised, no triangle at all is sampled inside the expanded bounds of
    the tile, and [generateTile] returns failure: the encoder refuses the
    mesh without polygons. *)
Lemma generateTile_empty_tile_fails :
  isNavmeshReady Demo.scene2 = true /\
  meshes_samples Demo.world2 (tile_box Demo.scene2 1 0)
    ++ terrains_samples Demo.world2 (tile_box Demo.scene2 1 0) = [] /\
  snd (generateTile Demo.world2 Demo.scene2 1 0 false) = false /\
  tile_pipeline Demo.world2 Demo.scene2 1 0 = None.
Proof. vm_compute. repeat split. Qed.

(** With an encoder that accepts a mesh without polygons the same tile is
    built, with zero polygons. *)
Example generateTile_empty_tile_lenient :
  snd (generateTile (D := lenient_detour) Demo.world2 Demo.scene2_lenient 1 0 false)
    = true /\
  getPolygonCount
    (fst (generateTile (D := lenient_detour) Demo.world2 Demo.scene2_lenient 1 0
            false)) = 0.
Proof. vm_compute. split; reflexivity. Qed.

(** C6, counterexample: a file whose stored parameters are refused makes
    [load] return failure with the navmesh object still in place, and a file
    whose second tile is refused leaves the store with the first tile only. *)
Lemma load_failure_leaves_navmesh :
  option_map (fun r => (snd r, isNavmeshReady (fst r), is_cleared (fst r)))
    (load Demo.world1 Demo.files new_scene "refused_params.nav")
    = Some (false, true, false) /\
  option_map
    (fun r =>
       (snd r,
        option_map
          (fun nm => (dtNavMesh_getTileAt nm 0 0, dtNavMesh_getTileAt nm 1 0))
          (m_navmesh (fst r))))
    (load Demo.world1 Demo.files new_scene "refused_tile.nav")
    = Some (false, Some (Some [0; 0; 1; 3], None)).
Proof. vm_compute. split; reflexivity. Qed.

(** C6 on the file whose stored parameters are refused: [load] returns
    failure and the scene it leaves is described by the second case. *)
Lemma load_failure_state_witness :
  load Demo.world1 Demo.files new_scene "refused_params.nav"
    = Some (Demo.after_refused_params, false) /\
  (false = false ->
   ((fs_lookup Demo.files "refused_params.nav" = None \/ dtAllocNavMesh = None) /\
    Demo.after_refused_params = clear new_scene) \/
   (isNavmeshReady Demo.after_refused_params = true /\
    is_cleared Demo.after_refused_params = false)).
Proof.
  assert (H : load Demo.world1 Demo.files new_scene "refused_params.nav"
              = Some (Demo.after_refused_params, false))
    by (apply scene_of_result; vm_compute; reflexivity).
  split; [ exact H | ].
  exact (proj2 (load_failure_state Demo.world1 Demo.files new_scene
                  "refused_params.nav" Demo.after_refused_params false H)).
Defined.

(** The reference crowd satisfies the frame law of [resetMoveTarget]. *)
Lemma reference_reset_keeps_motion : reset_keeps_motion (D := detour).
Proof.
  intros c i j. cbn. destruct c as [mx l]. cbn.
  induction l as [ | [k a] l IH ]; cbn; [ reflexivity | ].
  destruct (k =? i); cbn; destruct (k =? j); auto.
Qed.

(** C3, counterexample: the query finds no polygon near the destination,
    [navigate] returns failure and the target is still null, but the agent's
    max speed has changed from 10 to 3. *)
Lemma navigate_failure_changes_max_speed :
  option_map
    (fun q => dtNavMeshQuery_findNearestPoly q Demo.dest_off navigate_ext)
    (m_navquery Demo.scene_agent) = Some 0 /\
  option_map snd Demo.nav_off = Some false /\
  Demo.max_speed_of Demo.scene_agent = Some (float_of_int 10) /\
  Demo.max_speed_of (scene_of Demo.nav_off new_scene) = Some (float_of_int 3) /\
  Demo.target_of Demo.scene_agent = Some 0 /\
  Demo.target_of (scene_of Demo.nav_off new_scene) = Some 0.
Proof. vm_compute. repeat split. Qed.


(** ** The reference tile store keeps the contract *)

Lemma find_app_blob (f : blob -> bool) (l1 l2 : list blob) :
  find f (l1 ++ l2)
  = match find f l1 with
    | Some x => Some x
    | None => find f l2
    end.
Proof.
  induction l1 as [ | x l1 IH ]; cbn; [ reflexivity | ].
  destruct (f x); [ reflexivity | exact IH ].
Qed.

Lemma tile_at_unique (x y x' y' : Z) (d : blob) :
  tile_at x y d = true -> (x', y') <> (x, y) -> tile_at x' y' d = false.
Proof.
  unfold tile_at. destruct (header d) as [h | ]; [ | discriminate ].
  intros H Hne. apply andb_true_iff in H. destruct H as [Hx Hy].
  apply Z.eqb_eq in Hx. apply Z.eqb_eq in Hy. subst.
  destruct (hdr_x h =? x') eqn:Ex; [ | reflexivity ].
  destruct (hdr_y h =? y') eqn:Ey; [ | reflexivity ].
  apply Z.eqb_eq in Ex. apply Z.eqb_eq in Ey. subst. congruence.
Qed.

Lemma tile_index_range (x y : Z) :
  forall l k, 1 <= k -> tile_index l x y k = 0 \/ k <= tile_index l x y k.
Proof.
  induction l as [ | d l IH ]; intros k Hk; cbn; [ auto | ].
  destruct (tile_at x y d); [ right; lia | ].
  destruct (IH (k + 1)); [ lia | auto | right; lia ].
Qed.

Lemma remove_indexed_other (x y x' y' : Z) :
  (x', y') <> (x, y) ->
  forall l k,
    1 <= k -> tile_index l x y k <> 0 ->
    find (tile_at x' y') (remove_nth l (Z.to_nat (tile_index l x y k - k)))
    = find (tile_at x' y') l.
Proof.
  intros Hne. induction l as [ | d l IH ]; intros k Hk Hidx; cbn in *;
    [ reflexivity | ].
  destruct (tile_at x y d) eqn:Hd.
  - replace (Z.to_nat (k - k)) with O by lia. cbn.
    rewrite (tile_at_unique x y x' y' d Hd Hne). reflexivity.
  - destruct (tile_index_range x y l (k + 1)) as [H0 | Hge]; [ lia | contradiction | ].
    replace (Z.to_nat (tile_index l x y (k + 1) - k))
      with (S (Z.to_nat (tile_index l x y (k + 1) - (k + 1)))) by lia.
    cbn. destruct (tile_at x' y' d); [ reflexivity | ].
    apply IH; [ lia | exact Hidx ].
Qed.

Lemma reference_tile_store_laws : tile_store_laws (D := detour) tile_count.
Proof.
  constructor.
  - intros nm p nm' H. cbn in H. unfold init in H.
    destruct (32 - _ - _ <? 10); [ discriminate | ].
    injection H as <-. cbn. auto.
  - intros nm d h Hh Hfree Hroom. cbn in *. unfold addTile.
    rewrite Hh, Hfree. unfold tile_count in Hroom.
    destruct (nmp_maxTiles (nm_params nm) <=? Z.of_nat (List.length (nm_tiles nm)))
      eqn:Hfull; [ apply Z.leb_le in Hfull; lia | reflexivity ].
  - intros nm d nm' H. cbn in H. unfold addTile in H.
    destruct (header d) as [h | ] eqn:Hh; [ | discriminate ].
    destruct (getTileAt nm (hdr_x h) (hdr_y h)) eqn:Hfree; [ discriminate | ].
    destruct (nmp_maxTiles (nm_params nm) <=? Z.of_nat (List.length (nm_tiles nm)));
      [ discriminate | ].
    injection H as <-. exists h. cbn. split; [ exact Hh | ].
    assert (Hd : tile_at (hdr_x h) (hdr_y h) d = true)
      by (unfold tile_at; rewrite Hh, !Z.eqb_refl; reflexivity).
    unfold getTileAt in *. cbn. repeat split.
    + rewrite find_app_blob, Hfree. cbn. rewrite Hd. reflexivity.
    + intros x y Hne. rewrite find_app_blob. cbn.
      rewrite (tile_at_unique _ _ x y d Hd Hne).
      destruct (find (tile_at x y) (nm_tiles nm)); reflexivity.
    + unfold tile_count. cbn. rewrite length_app. cbn. lia.
  - intros nm x y. unfold evict. cbn.
    destruct (tile_index (nm_tiles nm) x y 1 =? 0) eqn:Hidx; [ auto | ].
    cbn. split; [ reflexivity | ].
    intros x' y' Hne. unfold getTileAt. cbn.
    apply (remove_indexed_other x y x' y' Hne); [ lia | ].
    apply Z.eqb_neq. exact Hidx.
  - intros p d H. cbn in H. unfold createNavMeshData in H.
    destruct (_ || _); [ discriminate | ]. injection H as <-.
    eexists. cbn. repeat split.
Qed.

Lemma pair_of_result {A : Type} (r : A * bool) (b : bool) :
  snd r = b -> r = (fst r, b).
Proof. destruct r as [a ok]. cbn. intros ->. reflexivity. Qed.

(** C2 on the reference library: the scene built from [Demo.world1] is
    saved into an empty file system and loaded into a new scene. *)
Lemma save_load_roundtrip_witness :
  (tile_store_laws (D := detour) tile_count /\
   generateNavmesh Demo.world1 new_scene = (Demo.scene_built, true) /\
   w_can_create Demo.world1 "level.nav" = true /\
   (forall nm' : dtNavMesh,
      snd (dtCrowd_init dtAllocCrowd 1000 (float_of_int 4) (Some nm')) = true)) /\
  (exists fs' s' nm nm',
     save Demo.world1 [] Demo.scene_built "level.nav" = Some (fs', true) /\
     load Demo.world1 fs' new_scene "level.nav" = Some (s', true) /\
     m_aabb s' = m_aabb Demo.scene_built /\
     m_num_tiles_x s' = m_num_tiles_x Demo.scene_built /\
     m_num_tiles_z s' = m_num_tiles_z Demo.scene_built /\
     m_navmesh Demo.scene_built = Some nm /\
     m_navmesh s' = Some nm' /\
     dtNavMesh_getParams nm' = dtNavMesh_getParams nm /\
     forall i j,
       0 <= i < m_num_tiles_x Demo.scene_built ->
       0 <= j < m_num_tiles_z Demo.scene_built ->
       dtNavMesh_getTileAt nm' i j = dtNavMesh_getTileAt nm i j /\
       tile_counts nm' i j = tile_counts nm i j).
Proof.
  assert (H1 := reference_tile_store_laws).
  assert (H2 : generateNavmesh Demo.world1 new_scene = (Demo.scene_built, true))
    by (unfold Demo.scene_built; apply pair_of_result; vm_compute; reflexivity).
  assert (H3 : w_can_create Demo.world1 "level.nav" = true) by reflexivity.
  assert (H4 : forall nm' : dtNavMesh,
             snd (dtCrowd_init dtAllocCrowd 1000 (float_of_int 4) (Some nm'))
             = true) by (intros nm'; reflexivity).
  split; [ repeat (split; [ assumption | ]); assumption | ].
  exact (save_load_roundtrip tile_count H1 Demo.world1 Demo.world1 Demo.world1 []
           new_scene Demo.scene_built new_scene "level.nav" H2 H3 H4).
Defined.

(** Sampling on the reference library: a flat floor is walkable, the same
    floor flagged [nonwalkable] and a vertical wall are not, a sub-mesh
    flagged [no_navigation] is not sampled; the cells of a flat terrain are
    walkable, those of a steep terrain are not. *)
Example sampling_meshes :
  map s_area (meshes_samples Demo.world1 Demo.sample_box) = [63] /\
  map s_area
    (meshes_samples
       (Demo.world_of (mkRenderScene [mkRenderable (Some (Demo.floor_model 2)) 1] []))
       Demo.sample_box) = [0] /\
  map s_area
    (meshes_samples
       (Demo.world_of (mkRenderScene [mkRenderable (Some Demo.wall_model) 1] []))
       Demo.sample_box) = [0] /\
  map s_area
    (meshes_samples
       (Demo.world_of (mkRenderScene [mkRenderable (Some (Demo.floor_model 1)) 1] []))
       Demo.sample_box) = [].
Proof. vm_compute. repeat split. Qed.

Example sampling_terrains :
  map s_area
    (terrains_samples (Demo.world_of (mkRenderScene [] [Demo.flat_terrain]))
       Demo.sample_box) = [63; 63; 63; 63; 63; 63; 63; 63] /\
  map s_area
    (terrains_samples (Demo.world_of (mkRenderScene [] [Demo.steep_terrain]))
       Demo.sample_box) = [0; 0; 0; 0; 0; 0; 0; 0].
Proof. vm_compute. split; reflexivity. Qed.

(** C3 on the reference library: the destination lies off the mesh, the
    query returns the null reference, the crowd refuses it, and the scene
    after the call differs from the one before by the agent's parameters. *)
Lemma navigate_outcome_witness :
  (m_navquery Demo.scene_agent = Some Demo.query_handle /\
   m_crowd Demo.scene_agent = Some (Demo.crowd_of Demo.scene_agent) /\
   10 <> INVALID_ENTITY /\
   find_agent (m_agents Demo.scene_agent) 10 = Some Demo.agent10 /\
   dtCrowd_getAgent (Demo.crowd_of Demo.scene_agent) (agent Demo.agent10)
     = Some Demo.fresh10 /\
   dtNavMeshQuery_findNearestPoly Demo.query_handle Demo.dest_off navigate_ext = 0 /\
   (forall c' i pos, dtCrowd_requestMoveTarget c' i 0 pos = (c', false))) /\
  navigate Demo.scene_agent 10 Demo.dest_off Demo.speed3
  = Some (set_crowd Demo.scene_agent
            (Some (dtCrowd_updateAgentParameters (Demo.crowd_of Demo.scene_agent)
                     (agent Demo.agent10)
                     (with_maxSpeed (ca_params Demo.fresh10) Demo.speed3))),
          false).
Proof.
  assert (H1 : m_navquery Demo.scene_agent = Some Demo.query_handle)
    by (vm_compute; reflexivity).
  assert (H2 : m_crowd Demo.scene_agent = Some (Demo.crowd_of Demo.scene_agent))
    by (vm_compute; reflexivity).
  assert (H3 : 10 <> INVALID_ENTITY) by (unfold INVALID_ENTITY; lia).
  assert (H4 : find_agent (m_agents Demo.scene_agent) 10 = Some Demo.agent10)
    by (vm_compute; reflexivity).
  assert (H5 : dtCrowd_getAgent (Demo.crowd_of Demo.scene_agent)
                 (agent Demo.agent10) = Some Demo.fresh10)
    by (vm_compute; reflexivity).
  assert (H6 : dtNavMeshQuery_findNearestPoly Demo.query_handle Demo.dest_off
                 navigate_ext = 0)
    by (vm_compute; reflexivity).
  assert (H7 : forall c' i pos,
             dtCrowd_requestMoveTarget c' i 0 pos = (c', false)).
  { intros c' i pos. cbn. rewrite Bool.orb_true_r. reflexivity. }
  split; [ repeat (split; [ assumption | ]); assumption | ].
  exact (proj2 (proj2 (navigate_outcome Demo.scene_agent 10 Demo.dest_off
                         Demo.speed3))
           Demo.query_handle (Demo.crowd_of Demo.scene_agent) Demo.agent10
           Demo.fresh10 H1 H2 H3 H4 H5 H6 H7).
Defined.

(** C10 on the reference library: a new scene has no crowd and is left as it
    is; the started scene is stepped, whatever [paused] is. *)
Lemma update_ignores_paused_witness :
  (m_crowd (new_scene (D := detour)) = None /\
   m_crowd Demo.scene_agent = Some (Demo.crowd_of Demo.scene_agent)) /\
  update new_scene Demo.tick true = Some (new_scene, []) /\
  update Demo.scene_agent Demo.tick true
  = match update_agents (m_script_scene Demo.scene_agent)
            (dtCrowd_update (Demo.crowd_of Demo.scene_agent) Demo.tick)
            (m_agents Demo.scene_agent) with
    | None => None
    | Some (c', agents, effects) =>
        Some (set_agents (set_crowd Demo.scene_agent (Some c')) agents, effects)
    end.
Proof.
  assert (H1 : m_crowd (new_scene (D := detour)) = None) by reflexivity.
  assert (H2 : m_crowd Demo.scene_agent = Some (Demo.crowd_of Demo.scene_agent))
    by (vm_compute; reflexivity).
  split; [ split; assumption | ].
  split.
  - exact (proj1 (proj2 (update_ignores_paused new_scene Demo.tick true false)) H1).
  - exact (proj2 (proj2 (update_ignores_paused Demo.scene_agent Demo.tick true
                           false))
             (Demo.crowd_of Demo.scene_agent) H2).
Defined.

(** * The further properties on concrete scenes *)

(** Entity 10 gets its agent in the started scene. *)
Lemma createComponent_agent_witness :
  find_agent (m_agents Demo.scene_started) 10 = None /\
  (agents_wf (m_agents Demo.scene_started) ->
   agents_wf (m_agents (createComponent Demo.universe Demo.scene_started 10))).
Proof.
  assert (H : find_agent (m_agents Demo.scene_started) 10 = None)
    by (vm_compute; reflexivity).
  split; [ exact H | ].
  exact (proj2 (proj2 (createComponent_agent Demo.universe Demo.scene_started 10 H))).
Defined.

(** The component of entity 10 is created in the started scene and
    destroyed again. *)
Lemma create_destroy_component_witness :
  find_agent (m_agents Demo.scene_started) 10 = None /\
  destroyComponent (createComponent Demo.universe Demo.scene_started 10) 10
  = Some match m_crowd Demo.scene_started with
         | None => Demo.scene_started
         | Some c =>
             let r := dtCrowd_addAgent c (getPosition Demo.universe 10)
                        (crowd_agent_params (new_agent 10)) in
             set_crowd Demo.scene_started
               (Some (if 0 <=? snd r then dtCrowd_removeAgent (fst r) (snd r)
                      else fst r))
         end.
Proof.
  assert (H : find_agent (m_agents Demo.scene_started) 10 = None)
    by (vm_compute; reflexivity).
  split; [ exact H | ].
  exact (create_destroy_component Demo.universe Demo.scene_started 10 H).
Defined.

(** The agent of entity 10 is destroyed. *)
Lemma destroyComponent_removes_witness :
  find_agent (m_agents Demo.scene_agent) 10 = Some Demo.agent10 /\
  exists s',
    destroyComponent Demo.scene_agent 10 = Some s' /\
    (NoDup (map fst (m_agents Demo.scene_agent)) ->
     find_agent (m_agents s') 10 = None).
Proof.
  assert (H : find_agent (m_agents Demo.scene_agent) 10 = Some Demo.agent10)
    by (vm_compute; reflexivity).
  split; [ exact H | ].
  destruct (destroyComponent_removes Demo.scene_agent 10 Demo.agent10 H)
    as (s' & Hd & _ & Hgone & _).
  exists s'. split; [ exact Hd | exact Hgone ].
Defined.

(** The radius of the agent of entity 10 is set to 1. *)
Lemma agent_property_set_get_witness :
  find_agent (m_agents Demo.scene_agent) 10 = Some Demo.agent10 /\
  exists s',
    setAgentRadius Demo.scene_agent 10 (float_of_int 1) = Some s' /\
    getAgentRadius s' 10 = Some (float_of_int 1) /\
    getAgentHeight s' 10 = Some (height Demo.agent10).
Proof.
  assert (H : find_agent (m_agents Demo.scene_agent) 10 = Some Demo.agent10)
    by (vm_compute; reflexivity).
  split; [ exact H | ].
  destruct (proj1 (agent_property_set_get Demo.scene_agent 10 Demo.agent10
                     (float_of_int 1) H)) as (s' & Hs & Hr & Hh & _).
  exists s'. repeat split; assumption.
Defined.

(** The agent of entity 10, with radius 1, is written to a blob and read
    back into the started scene. *)
Lemma serialize_deserialize_witness :
  VERSION_AGENTS < 1 /\
  exists s2,
    deserialize Demo.stale Demo.scene_started
      (serialize Demo.scene_wide [] ++ [IInt 5]) 1 = Some (s2, [IInt 5]) /\
    map fst (m_agents s2) = map fst (m_agents Demo.scene_wide) /\
    m_crowd s2 = m_crowd Demo.scene_started.
Proof.
  assert (H : VERSION_AGENTS < 1) by (unfold VERSION_AGENTS; lia).
  split; [ exact H | ].
  destruct (serialize_deserialize Demo.stale Demo.scene_wide Demo.scene_started
              [IInt 5] 1 H) as (s2 & Hde & _ & Hkeys & _ & _ & Hcrowd).
  exists s2. repeat split; assumption.
Defined.

(** The same blob, read as any blob. *)
Lemma deserialize_shape_witness :
  deserialize Demo.stale Demo.scene_started Demo.agents_blob 1
  = Some (Demo.scene_reread, Demo.reread_rest) /\
  Forall (fun ka => agent (snd ka) = -1) (m_agents Demo.scene_reread) /\
  m_crowd Demo.scene_reread = m_crowd Demo.scene_started.
Proof.
  assert (H : deserialize Demo.stale Demo.scene_started Demo.agents_blob 1
              = Some (Demo.scene_reread, Demo.reread_rest))
    by (apply defined_result; vm_compute; reflexivity).
  split; [ exact H | ].
  destruct (deserialize_shape Demo.stale Demo.scene_started Demo.scene_reread
              Demo.agents_blob Demo.reread_rest 1 H) as (Hall & Hcrowd & _).
  split; assumption.
Defined.

(** The scene built from [Demo.world1], with the agent of entity 10, is
    stopped and started again. *)
Lemma restart_rebuilds_crowd_witness :
  (m_navmesh Demo.scene_agent = Some (Demo.navmesh_of Demo.scene_agent) /\
   dtCrowd_init dtAllocCrowd 1000 (float_of_int 4)
     (Some (Demo.navmesh_of Demo.scene_agent)) = (mkCrowd 1000 [], true)) /\
  m_crowd (startGame Demo.world1 (stopGame Demo.scene_agent))
  = Some (crowd_with (w_universe Demo.world1) (m_agents Demo.scene_agent)
            (mkCrowd 1000 [])).
Proof.
  assert (H1 : m_navmesh Demo.scene_agent = Some (Demo.navmesh_of Demo.scene_agent))
    by (vm_compute; reflexivity).
  assert (H2 : dtCrowd_init dtAllocCrowd 1000 (float_of_int 4)
                 (Some (Demo.navmesh_of Demo.scene_agent)) = (mkCrowd 1000 [], true))
    by reflexivity.
  split; [ split; assumption | ].
  exact (proj1 (restart_rebuilds_crowd Demo.world1 Demo.scene_agent
                  (Demo.navmesh_of Demo.scene_agent) (mkCrowd 1000 []) H1 H2)).
Defined.

(** A 2 x 1 navmesh is loaded into the scene with the agent of entity 10. *)
Lemma load_starts_crowd_witness :
  load Demo.world1 Demo.level_fs Demo.scene_agent "level.nav"
  = Some (Demo.scene_loaded, true) /\
  exists nm c0,
    m_navmesh Demo.scene_loaded = Some nm /\
    m_crowd Demo.scene_loaded
    = Some (crowd_with (w_universe Demo.world1) (m_agents Demo.scene_agent) c0).
Proof.
  assert (H : load Demo.world1 Demo.level_fs Demo.scene_agent "level.nav"
              = Some (Demo.scene_loaded, true))
    by (unfold Demo.scene_loaded, Demo.loaded; apply scene_of_result;
        vm_compute; reflexivity).
  split; [ exact H | ].
  destruct (load_starts_crowd Demo.world1 Demo.level_fs Demo.scene_agent
              Demo.scene_loaded "level.nav" H) as (nm & c0 & Hnm & _ & _ & Hc & _).
  exists nm, c0. split; assumption.
Defined.

(** Before the game is started a new scene has no crowd. *)
Lemma onEntityMoved_needs_crowd_witness :
  m_crowd (new_scene (D := detour)) = None /\
  onEntityMoved Demo.universe_far (createComponent Demo.universe new_scene 10) 10
  = None.
Proof.
  assert (H : m_crowd (new_scene (D := detour)) = None) by reflexivity.
  split; [ exact H | ].
  exact (proj1 (onEntityMoved_needs_crowd Demo.universe Demo.universe_far
                  Demo.world1 new_scene 10) H).
Defined.

(** A crowd without any slot: the agent of entity 10 gets the handle -1. *)
Lemma update_after_full_crowd_witness :
  (reset_keeps_motion (D := detour) /\
   m_crowd Demo.scene_full = Some (mkCrowd 0 []) /\
   dtCrowd_addAgent (mkCrowd 0 []) (getPosition Demo.universe 10)
     (crowd_agent_params (new_agent 10)) = (mkCrowd 0 [], -1) /\
   dtCrowd_getAgent (dtCrowd_update (mkCrowd 0 []) Demo.tick) (-1) = None) /\
  update (createComponent Demo.universe Demo.scene_full 10) Demo.tick false = None.
Proof.
  assert (H1 := reference_reset_keeps_motion).
  assert (H2 : m_crowd Demo.scene_full = Some (mkCrowd 0 [])) by reflexivity.
  assert (H3 : dtCrowd_addAgent (mkCrowd 0 []) (getPosition Demo.universe 10)
                 (crowd_agent_params (new_agent 10)) = (mkCrowd 0 [], -1))
    by (vm_compute; reflexivity).
  assert (H4 : dtCrowd_getAgent (dtCrowd_update (mkCrowd 0 []) Demo.tick) (-1) = None)
    by reflexivity.
  split; [ repeat (split; [ assumption | ]); assumption | ].
  exact (update_after_full_crowd Demo.universe Demo.scene_full 10 (mkCrowd 0 [])
           (mkCrowd 0 []) Demo.tick false H1 H2 H3 H4).
Defined.

(** The blob is read while the crowd of the started scene is running. *)
Lemma update_after_deserialize_witness :
  (reset_keeps_motion (D := detour) /\
   m_crowd Demo.scene_started = Some (Demo.crowd_of Demo.scene_started) /\
   dtCrowd_getAgent (dtCrowd_update (Demo.crowd_of Demo.scene_started) Demo.tick)
     (-1) = None /\
   deserialize Demo.stale Demo.scene_started Demo.agents_blob 1
   = Some (Demo.scene_reread, Demo.reread_rest) /\
   m_agents Demo.scene_reread <> []) /\
  update Demo.scene_reread Demo.tick false = None.
Proof.
  assert (H1 := reference_reset_keeps_motion).
  assert (H2 : m_crowd Demo.scene_started = Some (Demo.crowd_of Demo.scene_started))
    by (vm_compute; reflexivity).
  assert (H3 : dtCrowd_getAgent
                 (dtCrowd_update (Demo.crowd_of Demo.scene_started) Demo.tick)
                 (-1) = None) by (vm_compute; reflexivity).
  assert (H4 : deserialize Demo.stale Demo.scene_started Demo.agents_blob 1
               = Some (Demo.scene_reread, Demo.reread_rest))
    by (apply defined_result; vm_compute; reflexivity).
  assert (H5 : m_agents Demo.scene_reread <> []).
  { intros Hnil. apply (f_equal (@List.length _)) in Hnil.
    vm_compute in Hnil. discriminate. }
  split; [ repeat (split; [ assumption | ]); assumption | ].
  exact (update_after_deserialize Demo.stale Demo.scene_started Demo.scene_reread
           Demo.agents_blob Demo.reread_rest 1 (Demo.crowd_of Demo.scene_started)
           Demo.tick false H1 H2 H3 H4 H5).
Defined.



(** The loaded 2 x 1 navmesh is saved again: the file comes back without
    the value that followed the last tile. *)
Lemma load_save_roundtrip_witness :
  (tile_store_laws (D := detour) tile_count /\
   fs_lookup Demo.level_fs "level.nav"
   = Some (ChAABB Demo.level_box :: ChInt 2 :: ChInt 1
           :: ChParams Demo.level_params
           :: flat_map blob_chunks Demo.level_tiles ++ [ChInt 7]) /\
   Forall2 names_tile Demo.level_tiles (row_major 2 1) /\
   load Demo.world1 Demo.level_fs Demo.scene_agent "level.nav"
   = Some (Demo.scene_loaded, true) /\
   w_can_create Demo.world1 "copy.nav" = true) /\
  save Demo.world1 [] Demo.scene_loaded "copy.nav"
  = Some (("copy.nav"%string,
           ChAABB Demo.level_box :: ChInt 2 :: ChInt 1
           :: ChParams Demo.level_params
           :: flat_map blob_chunks Demo.level_tiles) :: [], true).
Proof.
  assert (H1 := reference_tile_store_laws).
  assert (H2 : fs_lookup Demo.level_fs "level.nav"
               = Some (ChAABB Demo.level_box :: ChInt 2 :: ChInt 1
                       :: ChParams Demo.level_params
                       :: flat_map blob_chunks Demo.level_tiles ++ [ChInt 7]))
    by reflexivity.
  assert (H3 : Forall2 names_tile Demo.level_tiles (row_major 2 1)).
  { change (row_major 2 1) with [(0, 0); (1, 0)]. unfold Demo.level_tiles.
    repeat constructor; eexists; split; reflexivity. }
  assert (H4 : load Demo.world1 Demo.level_fs Demo.scene_agent "level.nav"
               = Some (Demo.scene_loaded, true))
    by (unfold Demo.scene_loaded, Demo.loaded; apply scene_of_result;
        vm_compute; reflexivity).
  assert (H5 : w_can_create Demo.world1 "copy.nav" = true) by reflexivity.
  split; [ repeat (split; [ assumption | ]); assumption | ].
  exact (load_save_roundtrip tile_count H1 Demo.world1 Demo.world1 Demo.level_fs []
           Demo.scene_agent Demo.scene_loaded "level.nav" "copy.nav"
           Demo.level_box 2 1 Demo.level_params Demo.level_tiles [ChInt 7]
           H2 H3 H4 H5).
Defined.

(** The built scene is started: it has a navmesh and no crowd yet.  So has
    the stopped scene, which has an agent: starting it gives a crowd with
    this agent in slot 0. *)
Lemma startGame_crowd_witness :
  ((m_navmesh Demo.scene_built = Some (Demo.navmesh_of Demo.scene_built) /\
    m_crowd Demo.scene_built = None) /\
   m_crowd (startGame Demo.world1 Demo.scene_built)
   = (let r := dtCrowd_init dtAllocCrowd 1000 (float_of_int 4)
                 (Some (Demo.navmesh_of Demo.scene_built)) in
      if snd r
      then Some (crowd_with (w_universe Demo.world1) (m_agents Demo.scene_built)
                   (fst r))
      else None)) /\
  ((m_navmesh Demo.scene_stopped = Some (Demo.navmesh_of Demo.scene_stopped) /\
    m_crowd Demo.scene_stopped = None) /\
   m_crowd (startGame Demo.world1 Demo.scene_stopped)
   = (let r := dtCrowd_init dtAllocCrowd 1000 (float_of_int 4)
                 (Some (Demo.navmesh_of Demo.scene_stopped)) in
      if snd r
      then Some (crowd_with (w_universe Demo.world1) (m_agents Demo.scene_stopped)
                   (fst r))
      else None)) /\
  map fst (m_agents Demo.scene_stopped) = [10] /\
  option_map (fun c => map fst (cr_agents c))
    (m_crowd (startGame Demo.world1 Demo.scene_stopped)) = Some [0].
Proof.
  assert (H1 : m_navmesh Demo.scene_built = Some (Demo.navmesh_of Demo.scene_built))
    by (vm_compute; reflexivity).
  assert (H2 : m_crowd Demo.scene_built = None) by (vm_compute; reflexivity).
  assert (H3 : m_navmesh Demo.scene_stopped
               = Some (Demo.navmesh_of Demo.scene_stopped))
    by (vm_compute; reflexivity).
  assert (H4 : m_crowd Demo.scene_stopped = None) by (vm_compute; reflexivity).
  split.
  - split; [ split; assumption | ].
    exact (proj1 (proj2 (proj2 (proj2 (proj2
             (startGame_crowd Demo.world1 Demo.scene_built))))
             (Demo.navmesh_of Demo.scene_built) H1 H2)).
  - split.
    + split; [ split; assumption | ].
      exact (proj1 (proj2 (proj2 (proj2 (proj2
               (startGame_crowd Demo.world1 Demo.scene_stopped))))
               (Demo.navmesh_of Demo.scene_stopped) H3 H4)).
    + split; vm_compute; reflexivity.
Defined.

(** A new scene has no crowd: stopping it changes nothing.  The started
    scene with the agent of entity 10 has one: stopping it leaves no crowd
    and the agent with the handle -1. *)
Lemma stopGame_unregisters_witness :
  (m_crowd (new_scene (D := detour)) = None /\ stopGame new_scene = new_scene) /\
  m_crowd (stopGame Demo.scene_agent) = None /\
  m_agents (stopGame Demo.scene_agent)
  = match m_crowd Demo.scene_agent with
    | Some _ => map unhandled (m_agents Demo.scene_agent)
    | None => m_agents Demo.scene_agent
    end /\
  defined (m_crowd Demo.scene_agent) = true /\
  map (fun ka => agent (snd ka)) (m_agents (stopGame Demo.scene_agent)) = [-1].
Proof.
  assert (H : m_crowd (new_scene (D := detour)) = None) by reflexivity.
  split.
  - split; [ exact H | ].
    exact (proj1 (proj2 (proj2 (stopGame_unregisters new_scene))) H).
  - split; [ exact (proj1 (stopGame_unregisters Demo.scene_agent)) | ].
    split; [ exact (proj1 (proj2 (stopGame_unregisters Demo.scene_agent))) | ].
    split; vm_compute; reflexivity.
Defined.

(** The scripts of entity 10: two scripts, of which script 1 defines the
    function. *)
Lemma onPathFinished_calls_witness :
  ls_getComponent Demo.scripts (entity Demo.agent10) = Some 7 /\
  onPathFinished (Some Demo.scripts) Demo.agent10
  = filter (fun k => ls_hasFunction Demo.scripts 7 k "onPathFinished")
      (zseq 0 (Z.to_nat (ls_getScriptCount Demo.scripts 7))).
Proof.
  assert (H : ls_getComponent Demo.scripts (entity Demo.agent10) = Some 7)
    by reflexivity.
  split; [ exact H | ].
  exact (proj2 (proj2 (onPathFinished_calls (Some Demo.scripts) Demo.agent10))
           Demo.scripts 7 eq_refl H).
Defined.

(** A renderable without a model between two floors. *)
Lemma renderable_without_model_witness :
  rend_model Demo.no_model = None /\
  meshes_samples
    (mkWorld Demo.universe
       (Some (mkRenderScene
                ([mkRenderable (Some (Demo.floor_model 0)) 1]
                 ++ Demo.no_model :: [mkRenderable (Some (Demo.floor_model 0)) 2])
                []))
       None (fun _ => true)) Demo.sample_box
  = meshes_samples
      (mkWorld Demo.universe
         (Some (mkRenderScene [mkRenderable (Some (Demo.floor_model 0)) 1] []))
         None (fun _ => true)) Demo.sample_box.
Proof.
  assert (H : rend_model Demo.no_model = None) by reflexivity.
  split; [ exact H | ].
  exact (proj1 (renderable_without_model Demo.universe
                  [mkRenderable (Some (Demo.floor_model 0)) 1]
                  [mkRenderable (Some (Demo.floor_model 0)) 2] Demo.no_model []
                  None (fun _ => true) Demo.sample_box new_scene H)).
Defined.

(** A mesh of two polygons, the first walkable, with stale flags. *)
Lemma flag_polys_marks_walkable_witness :
  0 <= 0 < Z.of_nat (List.length (pm_flags (mkPolyMesh [] [] [63; 0] [5; 5] 0 2 6
                                             vzero vzero))) /\
  List.length (pm_flags (flag_polys (mkPolyMesh [] [] [63; 0] [5; 5] 0 2 6
                                        vzero vzero)))
  = List.length (pm_flags (mkPolyMesh [] [] [63; 0] [5; 5] 0 2 6 vzero vzero)).
Proof.
  assert (H : 0 <= 0 < Z.of_nat (List.length
                                   (pm_flags (mkPolyMesh [] [] [63; 0] [5; 5] 0 2 6
                                                vzero vzero))))
    by (simpl; lia).
  split; [ exact H | ].
  exact (proj1 (proj2 (flag_polys_marks_walkable
                         (mkPolyMesh [] [] [63; 0] [5; 5] 0 2 6 vzero vzero) 0 H))).
Defined.

(** Tile (0,0) of [Demo.world2] is built with [keep_data]. *)
Lemma generateTile_keeps_data_witness :
  generateTile Demo.world2 Demo.scene2 0 0 true = (Demo.scene2_kept, true) /\
  (true = true ->
   m_debug_heightfield Demo.scene2_kept <> None /\
   m_debug_compact_heightfield Demo.scene2_kept <> None /\
   m_debug_contours Demo.scene2_kept <> None /\
   m_debug_tile_origin Demo.scene2_kept = tile_bmin Demo.scene2 0 0).
Proof.
  assert (H : generateTile Demo.world2 Demo.scene2 0 0 true
              = (Demo.scene2_kept, true))
    by (unfold Demo.scene2_kept; apply pair_of_result; vm_compute; reflexivity).
  split; [ exact H | ].
  exact (proj1 (proj2 (proj2 (proj2 (proj2
           (generateTile_keeps_data Demo.world2 Demo.scene2 Demo.scene2_kept 0 0
              true H)))))).
Defined.

(** The navmesh of [Demo.world1] has one tile, which is the last one.  The
    navmesh of [Demo.world2], built with the lenient encoder, has two: the
    count is that of the last one, 0, while the first tile has one
    polygon. *)
Lemma getPolygonCount_after_generateNavmesh_witness :
  ((generateNavmesh Demo.world1 new_scene = (Demo.scene_built, true) /\
    row_major (m_num_tiles_x (fst (generateNavmesh_setup Demo.world1 new_scene)))
      (m_num_tiles_z (fst (generateNavmesh_setup Demo.world1 new_scene)))
    = [] ++ [(0, 0)]) /\
   exists s_prev pm dm data,
     build_tiles Demo.world1 [] (fst (generateNavmesh_setup Demo.world1 new_scene))
     = (s_prev, true) /\
     tile_pipeline Demo.world1 s_prev 0 0 = Some (pm, dm, data) /\
     getPolygonCount Demo.scene_built = pm_npolys pm) /\
  ((generateNavmesh (D := lenient_detour) Demo.world2 new_scene
    = (Demo.scene2_built_lenient, true) /\
    row_major
      (m_num_tiles_x
         (fst (generateNavmesh_setup (D := lenient_detour) Demo.world2 new_scene)))
      (m_num_tiles_z
         (fst (generateNavmesh_setup (D := lenient_detour) Demo.world2 new_scene)))
    = [(0, 0)] ++ [(1, 0)]) /\
   exists s_prev pm dm data,
     build_tiles (D := lenient_detour) Demo.world2 [(0, 0)]
       (fst (generateNavmesh_setup (D := lenient_detour) Demo.world2 new_scene))
     = (s_prev, true) /\
     tile_pipeline (D := lenient_detour) Demo.world2 s_prev 1 0
     = Some (pm, dm, data) /\
     getPolygonCount Demo.scene2_built_lenient = pm_npolys pm) /\
  getPolygonCount Demo.scene2_built_lenient = 0 /\
  option_map (fun nm => tile_counts (D := lenient_detour) nm 0 0)
    (m_navmesh Demo.scene2_built_lenient) = Some (Some (1, 3)).
Proof.
  assert (H1 : generateNavmesh Demo.world1 new_scene = (Demo.scene_built, true))
    by (unfold Demo.scene_built; apply pair_of_result; vm_compute; reflexivity).
  assert (H2 : row_major
                 (m_num_tiles_x (fst (generateNavmesh_setup Demo.world1 new_scene)))
                 (m_num_tiles_z (fst (generateNavmesh_setup Demo.world1 new_scene)))
               = [] ++ [(0, 0)]) by (vm_compute; reflexivity).
  assert (H3 : generateNavmesh (D := lenient_detour) Demo.world2 new_scene
               = (Demo.scene2_built_lenient, true))
    by (unfold Demo.scene2_built_lenient; apply pair_of_result; vm_compute;
        reflexivity).
  assert (H4 : row_major
                 (m_num_tiles_x
                    (fst (generateNavmesh_setup (D := lenient_detour) Demo.world2
                            new_scene)))
                 (m_num_tiles_z
                    (fst (generateNavmesh_setup (D := lenient_detour) Demo.world2
                            new_scene)))
               = [(0, 0)] ++ [(1, 0)]) by (vm_compute; reflexivity).
  split.
  - split; [ split; assumption | ].
    exact (proj2 (getPolygonCount_after_generateNavmesh Demo.world1 new_scene
                    Demo.scene_built H1) [] 0 0 H2).
  - split.
    + split; [ split; assumption | ].
      exact (proj2 (getPolygonCount_after_generateNavmesh (D := lenient_detour)
                      Demo.world2 new_scene Demo.scene2_built_lenient H3)
               [(0, 0)] 1 0 H4).
    + split; vm_compute; reflexivity.
Defined.

(** A new scene has no navmesh to save.  The scene built from
    [Demo.world1] holds the one tile of its grid: saving it writes the
    header and the tile. *)
Lemma save_outcome_witness :
  (m_navmesh (new_scene (D := detour)) = None /\
   save Demo.world1 [] new_scene "level.nav" = Some ([], false)) /\
  (m_navmesh Demo.scene_built = Some (Demo.navmesh_of Demo.scene_built) /\
   w_can_create Demo.world1 "level.nav" = true /\
   (forall i j,
      0 <= i < m_num_tiles_x Demo.scene_built ->
      0 <= j < m_num_tiles_z Demo.scene_built ->
      dtNavMesh_getTileAt (Demo.navmesh_of Demo.scene_built) i j <> None)) /\
  save Demo.world1 [] Demo.scene_built "level.nav"
  = Some (("level.nav"%string,
           ChAABB (m_aabb Demo.scene_built) :: ChInt (m_num_tiles_x Demo.scene_built)
           :: ChInt (m_num_tiles_z Demo.scene_built)
           :: ChParams (dtNavMesh_getParams (Demo.navmesh_of Demo.scene_built))
           :: flat_map (tile_chunks (Demo.navmesh_of Demo.scene_built))
                (row_major (m_num_tiles_x Demo.scene_built)
                   (m_num_tiles_z Demo.scene_built)))
          :: [], true) /\
  flat_map (tile_chunks (Demo.navmesh_of Demo.scene_built))
    (row_major (m_num_tiles_x Demo.scene_built) (m_num_tiles_z Demo.scene_built))
  = [ChInt 4; ChData [0; 0; 1; 3]].
Proof.
  assert (H : m_navmesh (new_scene (D := detour)) = None) by reflexivity.
  assert (H1 : m_navmesh Demo.scene_built = Some (Demo.navmesh_of Demo.scene_built))
    by (vm_compute; reflexivity).
  assert (H2 : w_can_create Demo.world1 "level.nav" = true) by reflexivity.
  assert (H3 : forall i j,
             0 <= i < m_num_tiles_x Demo.scene_built ->
             0 <= j < m_num_tiles_z Demo.scene_built ->
             dtNavMesh_getTileAt (Demo.navmesh_of Demo.scene_built) i j <> None).
  { assert (Hx : m_num_tiles_x Demo.scene_built = 1) by (vm_compute; reflexivity).
    assert (Hz : m_num_tiles_z Demo.scene_built = 1) by (vm_compute; reflexivity).
    intros i j Hi Hj. rewrite Hx in Hi. rewrite Hz in Hj.
    assert (Hi0 : i = 0) by lia. assert (Hj0 : j = 0) by lia. subst i j.
    intros Hnone. vm_compute in Hnone. discriminate Hnone. }
  split.
  - split; [ exact H | ].
    exact (proj1 (save_outcome Demo.world1 [] new_scene "level.nav") (or_introl H)).
  - split; [ repeat (split; [ assumption | ]); assumption | ].
    split.
    + exact (proj1 (proj2 (save_outcome Demo.world1 [] Demo.scene_built "level.nav")
                      (Demo.navmesh_of Demo.scene_built) H1 H2) H3).
    + vm_compute. reflexivity.
Defined.

(** The tile under the origin of [Demo.world2] is tile (0,0). *)
Lemma generateTileAt_replaces_one_tile_witness :
  (tile_store_laws (D := detour) tile_count /\
   generateTileAt Demo.world2 Demo.scene2 (Demo.v3 0 5 0) false
   = (Demo.scene2_at, true) /\
   m_navmesh Demo.scene2 = Some (Demo.navmesh_of Demo.scene2)) /\
  exists x z nm',
    generateTile Demo.world2 Demo.scene2 x z false = (Demo.scene2_at, true) /\
    m_navmesh Demo.scene2_at = Some nm' /\
    tile_ok nm' (x, z).
Proof.
  assert (H1 := reference_tile_store_laws).
  assert (H2 : generateTileAt Demo.world2 Demo.scene2 (Demo.v3 0 5 0) false
               = (Demo.scene2_at, true))
    by (unfold Demo.scene2_at; apply pair_of_result; vm_compute; reflexivity).
  assert (H3 : m_navmesh Demo.scene2 = Some (Demo.navmesh_of Demo.scene2))
    by (vm_compute; reflexivity).
  split; [ repeat (split; [ assumption | ]); assumption | ].
  destruct (generateTileAt_replaces_one_tile (D := detour) tile_count H1
              Demo.world2 Demo.scene2
              Demo.scene2_at (Demo.v3 0 5 0) false (Demo.navmesh_of Demo.scene2)
              H2 H3) as (x & z & nm' & Hgen & _ & Hnm & Hok & _).
  exists x, z, nm'. repeat split; assumption.
Defined.

(** The contours kept for tile (0,0) of [Demo.world2]: one contour of three
    vertices. *)
Lemma debugDrawContours_closed_chains_witness :
  (w_render_scene Demo.world2 = Some Demo.floors /\
   m_debug_contours Demo.scene2_kept = Some [63]) /\
  Z.of_nat (List.length (debugDrawContours Demo.world2 Demo.scene2_kept))
  = fold_right Z.add 0
      (map (fun c => if ct_nverts c <? 2 then 0 else ct_nverts c)
         (cset_conts (R := recast) [63])).
Proof.
  assert (H1 : w_render_scene Demo.world2 = Some Demo.floors) by reflexivity.
  assert (H2 : m_debug_contours Demo.scene2_kept = Some [63])
    by (vm_compute; reflexivity).
  split; [ split; assumption | ].
  exact (proj1 (proj2 (debugDrawContours_closed_chains Demo.world2
                         Demo.scene2_kept)) Demo.floors [63] H1 H2).
Defined.

(** The polygon mesh of tile (0,0) of [Demo.world2]: one polygon, drawn
    with six vertices. *)
Lemma debugDrawNavmesh_counts_witness :
  (m_polymesh Demo.scene2_kept = Some (Demo.polymesh_of Demo.scene2_kept) /\
   w_render_scene Demo.world2 = Some Demo.floors /\
   (forall k,
      0 <= k < pm_npolys (Demo.polymesh_of Demo.scene2_kept) ->
      1 <= poly_size (Demo.polymesh_of Demo.scene2_kept) k <= 6)) /\
  exists prims,
    debugDrawNavmesh Demo.world2 Demo.scene2_kept = Some prims /\
    Z.of_nat (List.length (filter is_triangle prims))
    = fold_right Z.add 0
        (map (fun k => Z.max 0 (poly_size (Demo.polymesh_of Demo.scene2_kept) k - 2))
           (zseq 0 (Z.to_nat (pm_npolys (Demo.polymesh_of Demo.scene2_kept))))).
Proof.
  assert (H1 : m_polymesh Demo.scene2_kept = Some (Demo.polymesh_of Demo.scene2_kept))
    by (vm_compute; reflexivity).
  assert (H2 : w_render_scene Demo.world2 = Some Demo.floors) by reflexivity.
  assert (H3 : forall k,
             0 <= k < pm_npolys (Demo.polymesh_of Demo.scene2_kept) ->
             1 <= poly_size (Demo.polymesh_of Demo.scene2_kept) k <= 6).
  { assert (Hn : pm_npolys (Demo.polymesh_of Demo.scene2_kept) = 1)
      by (vm_compute; reflexivity).
    assert (Hsize : poly_size (Demo.polymesh_of Demo.scene2_kept) 0 = 6)
      by (vm_compute; reflexivity).
    intros k Hk. rewrite Hn in Hk. replace k with 0 by lia. rewrite Hsize. lia. }
  split; [ repeat (split; [ assumption | ]); assumption | ].
  destruct (proj1 (proj2 (debugDrawNavmesh_counts Demo.world2 Demo.scene2_kept)
                     (Demo.polymesh_of Demo.scene2_kept) Demo.floors H1 H2) H3)
    as (prims & Hdraw & Ht & _).
  exists prims. split; assumption.
Defined.

(** The heightfields kept for tile (0,0) of [Demo.world2]: one cell with
    one span. *)
Lemma debugDraw_heightfields_witness :
  (w_render_scene Demo.world2 = Some Demo.floors /\
   m_debug_heightfield Demo.scene2_kept = Some [63] /\
   m_debug_compact_heightfield Demo.scene2_kept = Some [63]) /\
  debugDrawHeightfield Demo.world2 Demo.scene2_kept
  = heightfield_cubes (R := recast) [63] (m_debug_tile_origin Demo.scene2_kept) /\
  Z.of_nat (List.length (debugDrawCompactHeightfield Demo.world2 Demo.scene2_kept))
  <= 2 * 65536.
Proof.
  assert (H1 : w_render_scene Demo.world2 = Some Demo.floors) by reflexivity.
  assert (H2 : m_debug_heightfield Demo.scene2_kept = Some [63])
    by (vm_compute; reflexivity).
  assert (H3 : m_debug_compact_heightfield Demo.scene2_kept = Some [63])
    by (vm_compute; reflexivity).
  split; [ repeat (split; [ assumption | ]); assumption | ].
  split.
  - exact (proj1 (proj2 (proj2 (proj2 (debugDraw_heightfields Demo.world2
                                         Demo.scene2_kept))))
             Demo.floors [63] H1 H2).
  - exact (proj2 (proj2 (proj2 (proj2 (proj2 (debugDraw_heightfields Demo.world2
                                                Demo.scene2_kept))))
                    Demo.floors [63] H1 H3)).
Defined.

(** The debug drawings of that tile on the reference library: two cubes,
    two triangles, a contour of three lines, and one polygon drawn as a fan
    of four triangles with six edges. *)
Example debug_drawings :
  List.length (debugDrawHeightfield Demo.world2 Demo.scene2_kept) = 2%nat /\
  List.length (debugDrawCompactHeightfield Demo.world2 Demo.scene2_kept) = 2%nat /\
  List.length (debugDrawContours Demo.world2 Demo.scene2_kept) = 3%nat /\
  option_map (fun prims => (List.length (filter is_triangle prims),
                            List.length (filter is_line prims)))
    (debugDrawNavmesh Demo.world2 Demo.scene2_kept) = Some (4%nat, 6%nat) /\
  debugDrawContours Demo.world2 Demo.scene2 = [].
Proof. vm_compute. repeat split. Qed.

(** The agent of entity 10 on its way through a blob: the radius 1 and the
    height 2 come back, the handle is -1, and the [entity] member and the
    arrived flag are those of the allocation, not 10 and the flag saved. *)
Example serialization_on_demo :
  Demo.agents_blob
  = [IInt 1; IEntity 10; IFloat (float_of_int 1); IFloat (float_of_int 2); IInt 5] /\
  m_agents Demo.scene_reread
  = [(10, mkAgent 99 (float_of_int 1) (float_of_int 2) (-1) false)] /\
  Demo.reread_rest = [IInt 5].
Proof. vm_compute. repeat split. Qed.

(** The handle of the agent of entity 10 over the life of a game: 0 while
    the crowd runs, -1 after [stopGame], 0 again after [startGame]; after
    [generateNavmesh] the handle is still 0 but there is no crowd. *)
Example handles_on_demo :
  map (fun ka => agent (snd ka)) (m_agents Demo.scene_agent) = [0] /\
  map (fun ka => agent (snd ka)) (m_agents (stopGame Demo.scene_agent)) = [-1] /\
  map (fun ka => agent (snd ka))
    (m_agents (startGame Demo.world1 (stopGame Demo.scene_agent))) = [0] /\
  map (fun ka => agent (snd ka))
    (m_agents (fst (generateNavmesh Demo.world1 Demo.scene_agent))) = [0] /\
  defined (m_crowd (fst (generateNavmesh Demo.world1 Demo.scene_agent))) = false /\
  defined (m_crowd Demo.scene_loaded) = true.
Proof. vm_compute. repeat split. Qed.

(** ** Arrival, resynchronisation and sampling on the reference library *)



(** C7, the failing input: the agent of entity 10 was read back by
    [deserialize] and the game was started, so the agent is live, stored
    under entity 10, and its member [entity] holds what the allocation
    held, 99.  Entity 10 is moved from the simulated position (0, 0, 0) to
    (5, 0, 0).  [onEntityMoved] sees the distance, removes the agent and adds
    it again, but at the position of entity 99, (0, 0, 7), not at the new
    position of entity 10.  The agent [createComponent] made for the same
    entity is added again at the new position. *)
Lemma onEntityMoved_restored_agent_misplaced :
  find_agent (m_agents Demo.scene_restored) 10
  = Some (mkAgent 99 (float_of_int 1) (float_of_int 2) 0 false) /\
  Demo.simulated_position Demo.scene_restored 10 = Some (Demo.v3 0 0 0) /\
  getPosition Demo.universe_moved 10 = Demo.v3 5 0 0 /\
  option_map (fun s => Demo.simulated_position s 10)
    (onEntityMoved Demo.universe_moved Demo.scene_restored 10)
  = Some (Some (Demo.v3 0 0 7)) /\
  find_agent (m_agents Demo.scene_agent) 10 = Some Demo.agent10 /\
  Demo.simulated_position Demo.scene_agent 10 = Some (Demo.v3 0 0 0) /\
  option_map (fun s => Demo.simulated_position s 10)
    (onEntityMoved Demo.universe_moved Demo.scene_agent 10)
  = Some (Some (Demo.v3 5 0 0)).
Proof. vm_compute. repeat split. Qed.

(** The reference crowd keeps what [addAgent] is given. *)
Lemma free_slot_free (l : list (Z * dtCrowdAgent)) (max : Z) :
  forall fuel idx, 0 <= free_slot fuel l idx max ->
                   slot l (free_slot fuel l idx max) = None.
Proof.
  induction fuel as [ | fuel IH ]; intros idx; cbn [free_slot]; [ lia | ].
  destruct (max <=? idx); [ lia | ].
  destruct (slot l idx) eqn:Hs; [ apply IH | intros _; exact Hs ].
Qed.

Lemma slot_app (l1 l2 : list (Z * dtCrowdAgent)) (idx : Z) :
  slot (l1 ++ l2) idx
  = match slot l1 idx with
    | Some a => Some a
    | None => slot l2 idx
    end.
Proof.
  induction l1 as [ | [k a] l1 IH ]; cbn [app slot]; [ reflexivity | ].
  destruct (k =? idx); [ reflexivity | exact IH ].
Qed.

Lemma reference_add_stores : add_stores (D := detour).
Proof.
  intros c c' pos params idx. cbn -[free_slot].
  remember (free_slot (S (List.length (cr_agents c))) (cr_agents c) 0 (cr_max c))
    as i eqn:Hi.
  destruct (i <? 0) eqn:Hneg.
  - intros H. injection H as <- <-. lia.
  - intros H Hidx. injection H as <- <-. cbn [cr_agents].
    assert (Hfree : slot (cr_agents c) i = None).
    { rewrite Hi. apply free_slot_free. rewrite <- Hi. exact Hidx. }
    eexists. split.
    + rewrite slot_app, Hfree. cbn [slot]. rewrite Z.eqb_refl. reflexivity.
    + split; reflexivity.
Qed.

(** The radius of the agent of entity 10 is set to 1 while the crowd runs:
    the crowd agent keeps the radius 0.5 until entity 10 is moved five units
    away; then it is added again with the radius 1. *)
Lemma setAgentRadius_reaches_crowd_on_resync_witness :
  (add_stores (D := detour) /\
   find_agent (m_agents Demo.scene_agent) 10 = Some Demo.agent10 /\
   m_crowd Demo.scene_agent = Some (Demo.crowd_of Demo.scene_agent) /\
   dtCrowd_getAgent (Demo.crowd_of Demo.scene_agent) (agent Demo.agent10)
   = Some Demo.fresh10) /\
  (exists s1,
     setAgentRadius Demo.scene_agent 10 (float_of_int 1) = Some s1 /\
     m_crowd s1 = Some (Demo.crowd_of Demo.scene_agent) /\
     find_agent (m_agents s1) 10 = Some (with_radius Demo.agent10 (float_of_int 1)) /\
     (fgt (squaredLength (vsub (getPosition Demo.universe_far 10)
                            (ca_npos Demo.fresh10))) RESYNC_TOLERANCE = false ->
      onEntityMoved Demo.universe_far s1 10 = Some s1) /\
     (fgt (squaredLength (vsub (getPosition Demo.universe_far 10)
                            (ca_npos Demo.fresh10))) RESYNC_TOLERANCE = true ->
      exists s2 c2 h,
        onEntityMoved Demo.universe_far s1 10 = Some s2 /\
        m_crowd s2 = Some c2 /\
        find_agent (m_agents s2) 10
        = Some (with_agent (with_radius Demo.agent10 (float_of_int 1)) h) /\
        (0 <= h ->
         exists d,
           dtCrowd_getAgent c2 h = Some d /\
           ca_npos d = getPosition Demo.universe_far (entity Demo.agent10) /\
           ap_radius (ca_params d) = float_of_int 1 /\
           ap_height (ca_params d) = height Demo.agent10 /\
           ap_collisionQueryRange (ca_params d)
           = fmul (float_of_int 1) (float_of_int 12) /\
           ap_pathOptimizationRange (ca_params d)
           = fmul (float_of_int 1) (float_of_int 30)))) /\
  fgt (squaredLength (vsub (getPosition Demo.universe_far 10)
                        (ca_npos Demo.fresh10))) RESYNC_TOLERANCE = true /\
  ap_radius (ca_params Demo.fresh10) = flit 5 10.
Proof.
  assert (H1 := reference_add_stores).
  assert (H2 : find_agent (m_agents Demo.scene_agent) 10 = Some Demo.agent10)
    by (vm_compute; reflexivity).
  assert (H3 : m_crowd Demo.scene_agent = Some (Demo.crowd_of Demo.scene_agent))
    by (vm_compute; reflexivity).
  assert (H4 : dtCrowd_getAgent (Demo.crowd_of Demo.scene_agent)
                 (agent Demo.agent10) = Some Demo.fresh10)
    by (vm_compute; reflexivity).
  split; [ repeat (split; [ assumption | ]); assumption | ].
  split.
  - exact (setAgentRadius_reaches_crowd_on_resync Demo.universe_far
             Demo.scene_agent 10 Demo.agent10 (Demo.crowd_of Demo.scene_agent)
             Demo.fresh10 (float_of_int 1) H1 H2 H3 H4).
  - split; vm_compute; reflexivity.
Defined.


(** The [int] arithmetic of the build configuration and of the tile bounds
    on out-of-range inputs.  With a cell size of 1e-10 the agent radius in
    cells does not fit an [int]: the cast gives [INT_MIN], the border is
    [INT_MIN + 3] and the heightfield is 262 cells wide.  For the tile
    column 10000000 the product with the tile size wraps, and the lower
    bound of the tile lies at about -5.2e8 instead of +7.7e8. *)
Example int_arithmetic_on_demo :
  (let c := m_config (setGeneratorParams (new_scene (D := detour))
                        (flit 1 10000000000) (flit 1 10) (flit 3 10)
                        (float_of_int 2) (float_of_int 60) (flit 15 10)) in
   (cfg_walkableRadius c, cfg_borderSize c, cfg_width c, cfg_height c))
  = (-2147483648, -2147483645, 262, 262) /\
  (let c := m_config (new_scene (D := detour)) in
   (cfg_walkableRadius c, cfg_borderSize c, cfg_width c, cfg_walkableHeight c,
    cfg_walkableClimb c, cfg_maxEdgeLen c))
  = (1, 4, 264, 20, 15, 40) /\
  wrap32 (10000000 * CELLS_PER_TILE_SIDE) = -1734967296 /\
  int_of_float (vx (tile_bmin (new_scene (D := detour)) 10000000 0)) = -520490208 /\
  int_of_float (vx (tile_bmin (new_scene (D := detour)) 1 0)) = 75 /\
  (int_of_float (flit 75 10), int_of_float (flit (-75) 10),
   int_of_float (float_of_int 2147483648), int_of_float (float_of_int 2147483520))
  = (7, -7, -2147483648, 2147483520).
Proof. vm_compute. repeat split. Qed.
